(** * The Kubernetes application reconciler of juju
      (caas/kubernetes/provider/application), embedded in Rocq.

    The package drives a cluster towards the state an application
    configuration describes ([Ensure]) and answers queries about the live
    state ([Exists], [State]).  The embedding keeps the shape of the Go
    code: the cluster behind the client, the applier of the running call and
    the variables its closures capture form an explicit machine state that a
    small state-and-error monad threads through the methods of [app]. *)

From Stdlib Require Import String Ascii ZArith List.
From stdpp Require Import base option list gmap strings sorting pretty.

Local Open Scope Z_scope.

(** ** Errors (github.com/juju/errors) *)

Module errors.

(** An error value.  [Annotate] is what [errors.Annotate] and
    [errors.Annotatef] build: a message in front of an unchanged cause.
    [Foreign] stands for any error of a collaborator that is none of the
    juju kinds (a refused request, a broken connection). *)
Inductive error : Type :=
| NotFound (what : string)
| NotSupported (what : string)
| NotValid (what : string)
| Errorf (msg : string)
| Foreign (msg : string)
| Annotate (ctx : string) (cause : error).

(** [errors.Trace] records the call site and keeps message and cause. *)
Definition Trace (e : error) : error := e.

Fixpoint Cause (e : error) : error :=
  match e with
  | Annotate _ c => Cause c
  | _ => e
  end.

Definition IsNotFound (e : error) : bool :=
  match Cause e with NotFound _ => true | _ => false end.


Definition IsNotValid (e : error) : bool :=
  match Cause e with NotValid _ => true | _ => false end.

End errors.
Export errors.

(** A Go result pair [(v, err)]. *)
Inductive result (A : Type) : Type :=
| Ok (a : A)
| Err (e : error).
Arguments Ok {A} a.
Arguments Err {A} e.

(** ** Kubernetes objects (the fields the package reads or writes) *)

Record ObjectMeta : Type := {
  Name : string;
  Namespace : string;
  Labels : gmap string string;
  Annotations : gmap string string;
  (** [Some t] once the object is marked for deletion *)
  DeletionTimestamp : option Z;
}.

Definition emptyMeta : ObjectMeta :=
  {| Name := ""; Namespace := ""; Labels := ∅; Annotations := ∅;
     DeletionTimestamp := None |}.

Record Secret : Type := {
  secretMeta : ObjectMeta;
  Data : gmap string string;
}.

Record ServicePort : Type := {
  spName : string;
  spPort : Z;
  spTargetPort : Z;
  spProtocol : string;
}.

Record Service : Type := {
  svcMeta : ObjectMeta;
  svcSelector : gmap string string;
  svcType : string;
  svcClusterIP : string;
  svcPublishNotReadyAddresses : bool;
  svcPorts : list ServicePort;
}.

Definition ServiceTypeClusterIP : string := "ClusterIP".

Inductive Quantity : Type :=
| MilliQuantity (milli : Z)
| BinaryQuantity (bytes : Z)
| ParsedQuantity (text : string).

Inductive VolumeSource : Type :=
| EmptyDirSource
| PersistentVolumeClaimSource (claimName : string) (readOnly : bool)
| OtherSource (kind : string) (options : gmap string string).

Record Volume : Type := {
  volName : string;
  volSource : VolumeSource;
}.

Record VolumeMount : Type := {
  vmName : string;
  vmReadOnly : bool;
  vmMountPath : string;
  vmSubPath : string;
}.

Inductive EnvValue : Type :=
| EnvLiteral (value : string)
| EnvFieldRef (fieldPath : string).

Record Probe : Type := {
  probePath : string;
  probePort : string;
  InitialDelaySeconds : Z;
  PeriodSeconds : Z;
  SuccessThreshold : Z;
  FailureThreshold : Z;
}.

Record Container : Type := {
  cName : string;
  cImagePullPolicy : string;
  cImage : string;
  cWorkingDir : string;
  cCommand : list string;
  cArgs : list string;
  cEnv : list (string * EnvValue);
  cEnvFromSecret : list string;
  (** [SecurityContext]: user and group the container runs as *)
  cRunAs : option (Z * Z);
  cLivenessProbe : option Probe;
  cReadinessProbe : option Probe;
  cStartupProbe : option Probe;
  cVolumeMounts : list VolumeMount;
  cRequests : gmap string Quantity;
}.

Record PodSpec : Type := {
  AutomountServiceAccountToken : option bool;
  NodeSelector : gmap string string;
  InitContainers : list Container;
  Containers : list Container;
  Volumes : list Volume;
}.

Record PodTemplateSpec : Type := {
  tplLabels : gmap string string;
  tplAnnotations : gmap string string;
  tplSpec : PodSpec;
}.

Record PersistentVolumeClaimSpec_ : Type := {
  pvcStorageClassName : string;
  pvcRequest : Quantity;
  pvcAccessModes : list string;
}.

Record PersistentVolumeClaim : Type := {
  pvcMeta : ObjectMeta;
  pvcSpec : PersistentVolumeClaimSpec_;
}.

Record StorageClass : Type := {
  scMeta : ObjectMeta;
  scProvisioner : string;
  scParameters : gmap string string;
}.

Record StatefulSet : Type := {
  ssMeta : ObjectMeta;
  (** [Spec.Replicas], a [*int32] *)
  ssReplicas : option Z;
  ssSelector : gmap string string;
  ssTemplate : PodTemplateSpec;
  ssPodManagementPolicy : string;
  ssVolumeClaimTemplates : list PersistentVolumeClaim;
}.

Record Deployment : Type := {
  dMeta : ObjectMeta;
  dReplicas : option Z;
  dSelector : gmap string string;
  dTemplate : PodTemplateSpec;
}.

Record DaemonSet : Type := {
  dsMeta : ObjectMeta;
  dsSelector : gmap string string;
  dsTemplate : PodTemplateSpec;
  (** [Status.DesiredNumberScheduled] *)
  dsDesiredNumberScheduled : Z;
}.

Record Pod : Type := {
  podMeta : ObjectMeta;
}.

(** One page of a pod listing. *)
Record PodList : Type := {
  Items : list Pod;
  Continue : string;
  (** [*int64]: how many items follow this page, when the server says *)
  RemainingItemCount : option Z;
}.

(** ** The caller's configuration (package caas) *)

Record MountConfig : Type := {
  mcStorageName : string;
  mcPath : string;
}.

Record ContainerConfig : Type := {
  ccName : string;
  ccImage : string;
  ccMounts : list MountConfig;
}.

Record FilesystemAttachment : Type := {
  faReadOnly : bool;
  faPath : string;
}.

(** storage.KubernetesFilesystemParams *)
Record KubernetesFilesystemParams : Type := {
  StorageName : string;
  (** a [uint64], in MiB *)
  Size : Z;
  Provider : string;
  Attributes : gmap string string;
  fsResourceTags : gmap string string;
  Attachment : option FilesystemAttachment;
}.

(** constraints.Value, the three fields [applicationPodSpec] reads *)
Record Constraints_ : Type := {
  CpuPower : option Z;
  Mem : option Z;
  Arch : option string;
}.

Record ApplicationConfig : Type := {
  IntroductionSecret : string;
  AgentVersion : string;
  AgentImagePath : string;
  ControllerAddresses : string;
  ControllerCertBundle : string;
  ResourceTags : gmap string string;
  Constraints : Constraints_;
  Filesystems : list KubernetesFilesystemParams;
  ccContainers : gmap string ContainerConfig;
  CharmBaseImage : string;
  CharmModifiedVersion : Z;
}.

(** caas.DeploymentType is a string type; the three constants are those of
    package caas. *)
Definition DeploymentType : Type := string.
Definition DeploymentStateful : DeploymentType := "stateful".
Definition DeploymentStateless : DeploymentType := "stateless".
Definition DeploymentDaemon : DeploymentType := "daemon".

Record DeploymentState : Type := {
  dsExists : bool;
  dsTerminating : bool;
}.

Record ApplicationState : Type := {
  DesiredReplicas : Z;
  Replicas : list string;
}.

Definition emptyDeploymentState : DeploymentState :=
  {| dsExists := false; dsTerminating := false |}.
Definition emptyApplicationState : ApplicationState :=
  {| DesiredReplicas := 0; Replicas := [] |}.

(** storage.VolumeParams with its StorageConfig *)
Record StorageConfig : Type := {
  cfgStorageClass : string;
  cfgStorageProvisioner : string;
  cfgParameters : gmap string string;
}.

Record VolumeParams : Type := {
  vpName : string;
  vpStorageConfig : StorageConfig;
  vpSize : Quantity;
}.

(** k8sstorage.StorageProvisioner *)
Record StorageProvisioner_ : Type := {
  provName : string;
  provNamespace : string;
  provModel : string;
  provProvisioner : string;
  provParameters : gmap string string;
}.

(** The receiver of every method. The client, the watcher factory and the
    clock are not fields here: the cluster the client talks to is part of
    the machine state below. *)
Record app : Type := {
  name : string;
  namespace : string;
  modelUUID : string;
  modelName : string;
  legacyLabels : bool;
  deploymentType : DeploymentType;
}.

(** ** Collaborators

    Functions of other packages of the repository and of Go's library that
    the methods call.  They are an interface of the development: every
    theorem holds for any implementation. *)
Class Collaborators : Type := {
  (** k8sutils *)
  LabelsForApp : string → bool → gmap string string;
  SelectorLabelsForApp : string → bool → gmap string string;
  LabelsForStorage : string → bool → gmap string string;
  LabelsJuju : gmap string string;
  ResourceTagsToAnnotations : gmap string string → bool → gmap string string;
  AnnotationsForVersion : string → bool → gmap string string;
  AnnotationsForStorage : string → bool → gmap string string;
  AnnotationKeyApplicationUUID : bool → string;
  (** the generator behind [a.randomPrefix]: the answer to the n-th call *)
  randomPrefix : nat → result string;
  (** constants *)
  QualifiedStorageClassName : string → string → string;
  EnvAgentHTTPProbePort : string;
  AgentHTTPProbePort : string;
  AgentHTTPPathLiveness : string;
  AgentHTTPPathReadiness : string;
  AgentHTTPPathStartup : string;
  (** storage *)
  VolumeSourceForFilesystem :
    KubernetesFilesystemParams → result (option VolumeSource);
  ParseVolumeParams :
    string → Quantity → gmap string string → result VolumeParams;
  StorageProvisioner : string → string → VolumeParams → StorageProvisioner_;
  StorageClassSpec : StorageProvisioner_ → bool → StorageClass;
  PersistentVolumeClaimSpec : VolumeParams → PersistentVolumeClaimSpec_;
  GetMountPathForFilesystem :
    nat → string → KubernetesFilesystemParams → string;
  (** [PushUniqueVolume] and [PushUniqueVolumeClaimTemplate] only touch the
      [Volumes] of the pod spec and the [VolumeClaimTemplates] of the
      stateful set spec: they are given and return that list. *)
  PushUniqueVolume : list Volume → Volume → bool → result (list Volume);
  PushUniqueVolumeClaimTemplate :
    list PersistentVolumeClaim → PersistentVolumeClaim →
    result (list PersistentVolumeClaim);
  (** resource.ParseQuantity, arch.NormaliseArch, paths.DataDir *)
  ParseQuantity : string → result Quantity;
  NormaliseArch : string → string;
  DataDir : string;
  (** what the verb %q of package fmt prints for a string
      ([strconv.Quote]): the string in double quotes, with Go's escapes *)
  Quote : string → string;
}.

(** ** The machine state *)

Inductive Kind : Type :=
| KSecret | KService | KStatefulSet | KDeployment | KDaemonSet
| KStorageClass | KPersistentVolumeClaim | KPod.

Inductive Verb : Type := VGet | VList | VApply | VDelete.

#[global] Instance Kind_eq_dec : EqDecision Kind.
Proof. solve_decision. Defined.
#[global] Instance Verb_eq_dec : EqDecision Verb.
Proof. solve_decision. Defined.

(** A resource handed to the applier (package resources). *)
Inductive Resource : Type :=
| RSecret (s : Secret)
| RService (s : Service)
| RStatefulSet (s : StatefulSet)
| RDeployment (d : Deployment)
| RDaemonSet (d : DaemonSet)
| RStorageClass (c : StorageClass)
| RPersistentVolumeClaim (c : PersistentVolumeClaim).

Inductive Op : Type :=
| OpApply (r : Resource)
| OpDelete (k : Kind) (n : string).

(** The cluster as the client of one namespace sees it: the objects of each
    kind by name, the pages of the pod listing by cursor, and the requests
    the server refuses. *)
Record Cluster : Type := {
  secrets : gmap string Secret;
  services : gmap string Service;
  statefulsets : gmap string StatefulSet;
  deployments : gmap string Deployment;
  daemonsets : gmap string DaemonSet;
  storageclasses : gmap string StorageClass;
  claims : gmap string PersistentVolumeClaim;
  (** the answer to [Pods.List] with [Continue] set to the cursor *)
  podPages : string → result PodList;
  (** [faults v k n = Some msg]: the server refuses request [v] on object
      [n] of kind [k] with an error that says [msg] ([n] is the cursor for a
      listing of pods, and empty for other listings) *)
  faults : Verb → Kind → string → option string;
}.

(** The state a call runs in: the cluster, the log of requests sent to it
    (oldest first), how often the prefix generator ran, and the variables
    of the running call that its closures share, namely the ops staged in
    its applier, the pod spec under construction and the claim templates of
    the stateful set under construction. *)
Record Machine : Type := {
  cluster : Cluster;
  requests : list (Verb * Kind * string);
  prefixCalls : nat;
  staged : list Op;
  podSpec : PodSpec;
  claimTemplates : list PersistentVolumeClaim;
}.

Definition emptyPodSpec : PodSpec :=
  {| AutomountServiceAccountToken := None; NodeSelector := ∅;
     InitContainers := []; Containers := []; Volumes := [] |}.

(** A call enters with nothing staged and nothing under construction. *)
Definition boot (c : Cluster) : Machine :=
  {| cluster := c; requests := []; prefixCalls := 0; staged := [];
     podSpec := emptyPodSpec; claimTemplates := [] |}.

(** ** The monad: a Go function that may fail and may have changed the
    state before it fails *)

Definition M (A : Type) : Type := Machine → result A * Machine.

Definition ret {A} (a : A) : M A := fun m => (Ok a, m).
Definition fail {A} (e : error) : M A := fun m => (Err e, m).
Definition bind {A B} (c : M A) (k : A → M B) : M B :=
  fun m => match c m with
           | (Ok a, m') => k a m'
           | (Err e, m') => (Err e, m')
           end.
(** [attempt c] hands the error of [c] to the caller as a value, as
    [v, err := f()] does. *)
Definition attempt {A} (c : M A) : M (result A) :=
  fun m => let '(r, m') := c m in (Ok r, m').
Definition lift {A} (r : result A) : M A := fun m => (r, m).
Definition gets {A} (f : Machine → A) : M A := fun m => (Ok (f m), m).
Definition modify (f : Machine → Machine) : M unit := fun m => (Ok tt, f m).

Declare Scope go_scope.
Delimit Scope go_scope with go.
Notation "'let*' x ':=' c 'in' k" := (bind c (fun x => k))
  (at level 10, x name, c at level 100, k at level 200) : go_scope.
Notation "'let*' ' p ':=' c 'in' k" :=
  (bind c (fun x => match x with p => k end))
  (at level 10, p pattern, c at level 100, k at level 200) : go_scope.
Local Open Scope go_scope.

(** [errors.Annotate(err, ctx)] on the error path of [c]. *)
Definition annotated {A} (ctx : string) (c : M A) : M A :=
  fun m => match c m with
           | (Err e, m') => (Err (Annotate ctx e), m')
           | r => r
           end.

(** ** The cluster client and the applier (package resources)

    Modelled from the spec: the typed client of the cluster and the
    mutation batch are collaborators whose code is not part of the package.
    The client offers get, list, apply and delete per resource kind; get
    tells not-found from other errors; apply is an upsert that leaves alone
    what the applied object does not set (a nil replica count) and what the
    server owns (deletion mark, status); the batch buffers ops and runs them
    in order, is not transactional, and tolerates not-found on delete. *)

Definition withCluster (f : Cluster → Cluster) (m : Machine) : Machine :=
  {| cluster := f (cluster m); requests := requests m;
     prefixCalls := prefixCalls m; staged := staged m;
     podSpec := podSpec m; claimTemplates := claimTemplates m |}.

Definition withStaged (f : list Op → list Op) (m : Machine) : Machine :=
  {| cluster := cluster m; requests := requests m;
     prefixCalls := prefixCalls m; staged := f (staged m);
     podSpec := podSpec m; claimTemplates := claimTemplates m |}.

Definition withPodSpec (f : PodSpec → PodSpec) (m : Machine) : Machine :=
  {| cluster := cluster m; requests := requests m;
     prefixCalls := prefixCalls m; staged := staged m;
     podSpec := f (podSpec m); claimTemplates := claimTemplates m |}.

Definition withClaimTemplates
    (f : list PersistentVolumeClaim → list PersistentVolumeClaim)
    (m : Machine) : Machine :=
  {| cluster := cluster m; requests := requests m;
     prefixCalls := prefixCalls m; staged := staged m;
     podSpec := podSpec m; claimTemplates := f (claimTemplates m) |}.

(** Every request is logged; a refused one fails with the server's error. *)
Definition request (v : Verb) (k : Kind) (n : string) : M unit :=
  fun m =>
    let m' := {| cluster := cluster m;
                 requests := requests m ++ [(v, k, n)];
                 prefixCalls := prefixCalls m; staged := staged m;
                 podSpec := podSpec m; claimTemplates := claimTemplates m |} in
    match faults (cluster m) v k n with
    | Some msg => (Err (Foreign msg), m')
    | None => (Ok tt, m')
    end.

Definition getFrom {A} (k : Kind) (store : Cluster → gmap string A)
    (n : string) : M A :=
  let* _ := request VGet k n in
  let* c := gets cluster in
  match store c !! n with
  | Some o => ret o
  | None => fail (NotFound n)
  end.

Definition getSecretObject := getFrom KSecret secrets.
Definition getServiceObject := getFrom KService services.
Definition getStatefulSetObject := getFrom KStatefulSet statefulsets.
Definition getDeploymentObject := getFrom KDeployment deployments.
Definition getDaemonSetObject := getFrom KDaemonSet daemonsets.

Definition ListStorageClass : M (list StorageClass) :=
  let* _ := request VList KStorageClass "" in
  let* c := gets cluster in
  ret ((map_to_list (storageclasses c)).*2).

Definition listPods (next : string) : M PodList :=
  let* _ := request VList KPod next in
  let* c := gets cluster in
  lift (podPages c next).

Definition withDeletion (live : option ObjectMeta) (o : ObjectMeta)
    : ObjectMeta :=
  {| Name := Name o; Namespace := Namespace o; Labels := Labels o;
     Annotations := Annotations o;
     DeletionTimestamp := live ≫= DeletionTimestamp |}.

(** What the server stores when an object is applied over [live]. *)
Definition mergeSecret (live : option Secret) (s : Secret) : Secret :=
  {| secretMeta := withDeletion (secretMeta <$> live) (secretMeta s);
     Data := Data s |}.

Definition mergeService (live : option Service) (s : Service) : Service :=
  {| svcMeta := withDeletion (svcMeta <$> live) (svcMeta s);
     svcSelector := svcSelector s; svcType := svcType s;
     svcClusterIP := svcClusterIP s;
     svcPublishNotReadyAddresses := svcPublishNotReadyAddresses s;
     svcPorts := svcPorts s |}.

(** A nil replica count keeps the live count; a new object gets the
    server's default of one. *)
Definition mergeReplicas (live : option (option Z)) (r : option Z)
    : option Z :=
  match r with
  | Some n => Some n
  | None => match live with Some l => l | None => Some 1 end
  end.

Definition mergeStatefulSet (live : option StatefulSet) (s : StatefulSet)
    : StatefulSet :=
  {| ssMeta := withDeletion (ssMeta <$> live) (ssMeta s);
     ssReplicas := mergeReplicas (ssReplicas <$> live) (ssReplicas s);
     ssSelector := ssSelector s; ssTemplate := ssTemplate s;
     ssPodManagementPolicy := ssPodManagementPolicy s;
     ssVolumeClaimTemplates := ssVolumeClaimTemplates s |}.

Definition mergeDeployment (live : option Deployment) (d : Deployment)
    : Deployment :=
  {| dMeta := withDeletion (dMeta <$> live) (dMeta d);
     dReplicas := mergeReplicas (dReplicas <$> live) (dReplicas d);
     dSelector := dSelector d; dTemplate := dTemplate d |}.

Definition mergeDaemonSet (live : option DaemonSet) (d : DaemonSet)
    : DaemonSet :=
  {| dsMeta := withDeletion (dsMeta <$> live) (dsMeta d);
     dsSelector := dsSelector d; dsTemplate := dsTemplate d;
     dsDesiredNumberScheduled :=
       match live with
       | Some l => dsDesiredNumberScheduled l
       | None => 0
       end |}.

Definition mergeStorageClass (live : option StorageClass) (c : StorageClass)
    : StorageClass :=
  {| scMeta := withDeletion (scMeta <$> live) (scMeta c);
     scProvisioner := scProvisioner c; scParameters := scParameters c |}.

Definition mergeClaim (live : option PersistentVolumeClaim)
    (c : PersistentVolumeClaim) : PersistentVolumeClaim :=
  {| pvcMeta := withDeletion (pvcMeta <$> live) (pvcMeta c);
     pvcSpec := pvcSpec c |}.

Definition resourceKind (r : Resource) : Kind :=
  match r with
  | RSecret _ => KSecret
  | RService _ => KService
  | RStatefulSet _ => KStatefulSet
  | RDeployment _ => KDeployment
  | RDaemonSet _ => KDaemonSet
  | RStorageClass _ => KStorageClass
  | RPersistentVolumeClaim _ => KPersistentVolumeClaim
  end.

Definition resourceMeta (r : Resource) : ObjectMeta :=
  match r with
  | RSecret s => secretMeta s
  | RService s => svcMeta s
  | RStatefulSet s => ssMeta s
  | RDeployment d => dMeta d
  | RDaemonSet d => dsMeta d
  | RStorageClass c => scMeta c
  | RPersistentVolumeClaim c => pvcMeta c
  end.

Definition resourceName (r : Resource) : string := Name (resourceMeta r).

Definition store (r : Resource) (c : Cluster) : Cluster :=
  let n := resourceName r in
  {| secrets :=
       match r with
       | RSecret s => <[n := mergeSecret (secrets c !! n) s]> (secrets c)
       | _ => secrets c
       end;
     services :=
       match r with
       | RService s => <[n := mergeService (services c !! n) s]> (services c)
       | _ => services c
       end;
     statefulsets :=
       match r with
       | RStatefulSet s =>
           <[n := mergeStatefulSet (statefulsets c !! n) s]> (statefulsets c)
       | _ => statefulsets c
       end;
     deployments :=
       match r with
       | RDeployment d =>
           <[n := mergeDeployment (deployments c !! n) d]> (deployments c)
       | _ => deployments c
       end;
     daemonsets :=
       match r with
       | RDaemonSet d =>
           <[n := mergeDaemonSet (daemonsets c !! n) d]> (daemonsets c)
       | _ => daemonsets c
       end;
     storageclasses :=
       match r with
       | RStorageClass s =>
           <[n := mergeStorageClass (storageclasses c !! n) s]>
             (storageclasses c)
       | _ => storageclasses c
       end;
     claims :=
       match r with
       | RPersistentVolumeClaim p =>
           <[n := mergeClaim (claims c !! n) p]> (claims c)
       | _ => claims c
       end;
     podPages := podPages c;
     faults := faults c |}.

Definition remove (k : Kind) (n : string) (c : Cluster) : Cluster :=
  {| secrets := if decide (k = KSecret) then delete n (secrets c)
                else secrets c;
     services := if decide (k = KService) then delete n (services c)
                 else services c;
     statefulsets := if decide (k = KStatefulSet)
                     then delete n (statefulsets c) else statefulsets c;
     deployments := if decide (k = KDeployment)
                    then delete n (deployments c) else deployments c;
     daemonsets := if decide (k = KDaemonSet)
                   then delete n (daemonsets c) else daemonsets c;
     storageclasses := if decide (k = KStorageClass)
                       then delete n (storageclasses c)
                       else storageclasses c;
     claims := if decide (k = KPersistentVolumeClaim)
               then delete n (claims c) else claims c;
     podPages := podPages c;
     faults := faults c |}.

(** [r.Apply(ctx, client)] *)
Definition applyResource (r : Resource) : M unit :=
  let* _ := request VApply (resourceKind r) (resourceName r) in
  modify (withCluster (store r)).

(** [r.Delete(ctx, client)], not-found tolerated *)
Definition deleteResource (k : Kind) (n : string) : M unit :=
  let* _ := request VDelete k n in
  modify (withCluster (remove k n)).

(** The applier: [newApplier], [Apply], [Delete], [Run]. *)
Definition newApplier : M unit := modify (withStaged (fun _ => [])).

Definition applierApply (r : Resource) : M unit :=
  modify (withStaged (fun ops => ops ++ [OpApply r])).

Definition applierDelete (k : Kind) (n : string) : M unit :=
  modify (withStaged (fun ops => ops ++ [OpDelete k n])).

Definition process (op : Op) : M unit :=
  match op with
  | OpApply r => applyResource r
  | OpDelete k n => deleteResource k n
  end.

Fixpoint runOps (ops : list Op) : M unit :=
  match ops with
  | [] => ret tt
  | op :: rest => let* _ := process op in runOps rest
  end.

Definition applierRun : M unit :=
  let* ops := gets staged in runOps ops.

(** ** Small helpers of the Go runtime and of neighbouring packages *)

(** annotations.Annotation: [Add] and [Merge] (later entries win). *)
Definition Add (k v : string) (a : gmap string string) : gmap string string :=
  <[k := v]> a.
Definition Merge (a b : gmap string string) : gmap string string := b ∪ a.
(** k8sutils.LabelsMerge: the second set wins. *)
Definition LabelsMerge (a b : gmap string string) : gmap string string :=
  b ∪ a.

(** strings.Join and strings.TrimPrefix *)
Definition Join (elems : list string) (sep : string) : string :=
  String.concat sep elems.
Definition TrimPrefix (s prefix : string) : string :=
  if String.prefix prefix s
  then String.substring (String.length prefix)
         (String.length s - String.length prefix)%nat s
  else s.

(** sort.Strings *)
Definition sortStrings (l : list string) : list string :=
  merge_sort String.le l.

(** Conversion of a [uint64] to [int64]/[int]: the same 64 bits. *)
Definition uint64 (z : Z) : Z := z mod 2 ^ 64.
Definition int64 (z : Z) : Z :=
  let r := z mod 2 ^ 64 in if r <? 2 ^ 63 then r else r - 2 ^ 64.

(** constraints.Value: [HasCpuPower], [HasMem], [HasArch] *)
Definition HasCpuPower (v : Constraints_) : bool :=
  match CpuPower v with Some p => 0 <? p | None => false end.
Definition HasMem (v : Constraints_) : bool :=
  match Mem v with Some p => 0 <? p | None => false end.
Definition HasArch (v : Constraints_) : bool :=
  match Arch v with Some s => negb (String.eqb s "") | None => false end.

(** The switch over [a.deploymentType] that every operation starts its
    topology-specific part with. *)
Inductive topology : Type := Stateful | Stateless | Daemon.

Definition switchDeploymentType (t : DeploymentType) : option topology :=
  if String.eqb t DeploymentStateful then Some Stateful
  else if String.eqb t DeploymentStateless then Some Stateless
  else if String.eqb t DeploymentDaemon then Some Daemon
  else None.

Definition isMarked (o : ObjectMeta) : bool :=
  match DeletionTimestamp o with Some _ => true | None => false end.

Definition unitContainerName : string := "charm".
Definition charmVolumeName : string := "charm-data".
Definition agentProbeInitialDelay : Z := 30.
Definition agentProbePeriod : Z := 10.
Definition agentProbeSuccess : Z := 1.
Definition agentProbeFailure : Z := 2.

Definition headlessServiceName (appName : string) : string :=
  appName +:+ "-endpoints".

Definition int32Ptr (v : Z) : option Z := Some v.

(** [resources.NewService], [resources.NewPersistentVolumeClaim]: the object
    with its name and namespace set. *)
Definition named (n ns : string) (o : ObjectMeta) : ObjectMeta :=
  {| Name := n; Namespace := ns; Labels := Labels o;
     Annotations := Annotations o;
     DeletionTimestamp := DeletionTimestamp o |}.

Definition NewService (n ns : string) (s : Service) : Service :=
  {| svcMeta := named n ns (svcMeta s); svcSelector := svcSelector s;
     svcType := svcType s; svcClusterIP := svcClusterIP s;
     svcPublishNotReadyAddresses := svcPublishNotReadyAddresses s;
     svcPorts := svcPorts s |}.

Definition NewPersistentVolumeClaim (n ns : string)
    (c : PersistentVolumeClaim) : PersistentVolumeClaim :=
  {| pvcMeta := named n ns (pvcMeta c); pvcSpec := pvcSpec c |}.

(** Every error return of [Exists] and of [State] hands back the zero value
    next to the error: the Go pair [(v, err)]. *)
Definition orZero {A} (zero : A) (r : result A) : A * option error :=
  match r with
  | Ok v => (v, None)
  | Err e => (zero, Some e)
  end.

(** ** The methods of [app] *)

Section application.
Context `{!Collaborators}.

Definition secretName (a : app) : string :=
  name a +:+ "-application-config".

Definition volumeName (a : app) (storageName : string) : string :=
  name a +:+ "-" +:+ storageName.

Definition annotations (a : app) (config : ApplicationConfig)
    : gmap string string :=
  Merge (ResourceTagsToAnnotations (ResourceTags config) (legacyLabels a))
        (AnnotationsForVersion (AgentVersion config) (legacyLabels a)).

Definition labels (a : app) : gmap string string :=
  LabelsForApp (name a) (legacyLabels a).

Definition selectorLabels (a : app) : gmap string string :=
  SelectorLabelsForApp (name a) (legacyLabels a).

(** The object [configureDefaultService] builds. *)
Definition defaultService (a : app) (annotation : gmap string string)
    : Service :=
  NewService (name a) (namespace a)
    {| svcMeta := {| Name := ""; Namespace := ""; Labels := labels a;
                     Annotations := annotation;
                     DeletionTimestamp := None |};
       svcSelector := selectorLabels a;
       svcType := ServiceTypeClusterIP;
       svcClusterIP := "";
       svcPublishNotReadyAddresses := false;
       svcPorts := [ {| spName := "placeholder"; spPort := 65535;
                        spTargetPort := 0; spProtocol := "" |} ] |}.

Definition configureDefaultService (a : app)
    (annotation : gmap string string) : M unit :=
  let svc := defaultService a annotation in
  let* r := attempt (getServiceObject (name a)) in
  match r with
  | Err err =>
      if IsNotFound err then applyResource (RService svc)
      else fail (Trace err)
  | Ok _ => ret tt
  end.

Definition headlessService (a : app) (n : string)
    (annotation : gmap string string) : Service :=
  NewService (headlessServiceName n) (namespace a)
    {| svcMeta :=
         {| Name := ""; Namespace := ""; Labels := labels a;
            Annotations :=
              Add "service.alpha.kubernetes.io/tolerate-unready-endpoints"
                  "true" annotation;
            DeletionTimestamp := None |};
       svcSelector := selectorLabels a;
       svcType := ServiceTypeClusterIP;
       svcClusterIP := "None";
       svcPublishNotReadyAddresses := true;
       svcPorts := [] |}.

Definition configureHeadlessService (a : app) (n : string)
    (annotation : gmap string string) : M unit :=
  applyResource (RService (headlessService a n annotation)).

(** *** Exists *)

(** The five [...Exists] methods differ in the kind they get. *)
Definition resourceExists {A} (get : string → M A) (meta : A → ObjectMeta)
    (n : string) : M (bool * bool) :=
  let* r := attempt (get n) in
  match r with
  | Err err =>
      if IsNotFound err then ret (false, false) else fail (Trace err)
  | Ok ss => ret (true, isMarked (meta ss))
  end.

Definition statefulSetExists (a : app) : M (bool * bool) :=
  resourceExists getStatefulSetObject ssMeta (name a).
Definition deploymentExists (a : app) : M (bool * bool) :=
  resourceExists getDeploymentObject dMeta (name a).
Definition daemonSetExists (a : app) : M (bool * bool) :=
  resourceExists getDaemonSetObject dsMeta (name a).
Definition secretExists (a : app) : M (bool * bool) :=
  resourceExists getSecretObject secretMeta (secretName a).
Definition serviceExists (a : app) : M (bool * bool) :=
  resourceExists getServiceObject svcMeta (name a).

Record existenceCheck : Type := {
  label : string;
  check : M (bool * bool);
  forceTerminating : bool;
}.

(** The loop over [checks]. *)
Fixpoint runChecks (checks : list existenceCheck) (state : DeploymentState)
    : M DeploymentState :=
  match checks with
  | [] => ret state
  | c :: rest =>
      let* '(found, terminating) :=
        annotated (label c +:+ " resource check") (check c) in
      if negb found then runChecks rest state
      else
        let state := {| dsExists := true;
                        dsTerminating := dsTerminating state |} in
        if terminating || forceTerminating c
        then ret {| dsExists := true; dsTerminating := true |}
        else runChecks rest state
  end.

Definition ExistsM (a : app) : M DeploymentState :=
  let tail := [ {| label := "secret"; check := secretExists a;
                   forceTerminating := false |};
                {| label := "service"; check := serviceExists a;
                   forceTerminating := false |} ] in
  let* first :=
    match switchDeploymentType (deploymentType a) with
    | Some Stateful =>
        ret {| label := "statefulset"; check := statefulSetExists a;
               forceTerminating := false |}
    | Some Stateless =>
        ret {| label := "deployment"; check := deploymentExists a;
               forceTerminating := false |}
    | Some Daemon =>
        ret {| label := "daemonset"; check := daemonSetExists a;
               forceTerminating := false |}
    | None => fail (NotSupported "unknown deployment type")
    end in
  runChecks (first :: tail) emptyDeploymentState.

Definition Exists (a : app) (m : Machine)
    : (DeploymentState * option error) * Machine :=
  let '(r, m') := ExistsM a m in (orZero emptyDeploymentState r, m').

(** *** Delete *)

Definition Delete (a : app) : M unit :=
  let* _ := newApplier in
  let* _ :=
    match switchDeploymentType (deploymentType a) with
    | Some Stateful =>
        let* _ := applierDelete KStatefulSet (name a) in
        applierDelete KService (headlessServiceName (name a))
    | Some Stateless => applierDelete KDeployment (name a)
    | Some Daemon => applierDelete KDaemonSet (name a)
    | None => fail (NotSupported "unknown deployment type")
    end in
  let* _ := applierDelete KService (name a) in
  let* _ := applierDelete KSecret (secretName a) in
  applierRun.

(** *** State *)

Definition noneRemaining (res : PodList) : bool :=
  match RemainingItemCount res with
  | None => true
  | Some n => n =? 0
  end.

(** The [for] loop over the pages.  It has no bound in the source; the
    model counts the requests it may still send and answers [None] when
    the count is used up before the server reports no remaining items. *)
Fixpoint listReplicas (fuel : nat) (next : string) (replicas : list string)
    : M (option (list string)) :=
  match fuel with
  | O => ret None
  | S fuel' =>
      let* res := listPods next in
      let replicas := replicas ++ map (fun pod => Name (podMeta pod))
                                      (Items res) in
      if noneRemaining res then ret (Some replicas)
      else listReplicas fuel' (Continue res) replicas
  end.

Definition desiredReplicas (a : app) : M Z :=
  match switchDeploymentType (deploymentType a) with
  | Some Stateful =>
      let* ss := getStatefulSetObject (name a) in
      match ssReplicas ss with
      | None => fail (Errorf "missing replicas")
      | Some n => ret n
      end
  | Some Stateless =>
      let* d := getDeploymentObject (name a) in
      match dReplicas d with
      | None => fail (Errorf "missing replicas")
      | Some n => ret n
      end
  | Some Daemon =>
      let* d := getDaemonSetObject (name a) in
      ret (dsDesiredNumberScheduled d)
  | None => fail (NotSupported "unknown deployment type")
  end.

Definition StateM (a : app) (fuel : nat) : M (option ApplicationState) :=
  let* desired := desiredReplicas a in
  let* replicas := listReplicas fuel "" [] in
  ret ((fun names => {| DesiredReplicas := desired;
                        Replicas := sortStrings names |}) <$> replicas).

(** [None]: the loop is still asking for pages after [fuel] requests. *)
Definition State (a : app) (fuel : nat) (m : Machine)
    : option ((ApplicationState * option error) * Machine) :=
  match StateM a fuel m with
  | (Ok None, _) => None
  | (Ok (Some s), m') => Some ((s, None), m')
  | (Err e, m') => Some ((emptyApplicationState, Some e), m')
  end.

End application.

Section podspec.
Context `{!Collaborators}.

Definition agentProbe (path : string) : Probe :=
  {| probePath := path; probePort := AgentHTTPProbePort;
     InitialDelaySeconds := agentProbeInitialDelay;
     PeriodSeconds := agentProbePeriod;
     SuccessThreshold := agentProbeSuccess;
     FailureThreshold := agentProbeFailure |}.

Definition charmMount (mountPath subPath : string) (readOnly : bool)
    : VolumeMount :=
  {| vmName := charmVolumeName; vmReadOnly := readOnly;
     vmMountPath := mountPath; vmSubPath := subPath |}.

(** [resourceRequests]: CPU power in millicores, memory in bytes. *)
Definition resourceRequests (c : Constraints_) : gmap string Quantity :=
  let requests : gmap string Quantity := ∅ in
  let requests :=
    if HasCpuPower c
    then <["cpu" := MilliQuantity (int64 (int64 (default 0 (CpuPower c))))]>
           requests
    else requests in
  if HasMem c
  then <["memory" :=
           BinaryQuantity
             (int64 (uint64 (default 0 (Mem c) * 1024 * 1024)))]> requests
  else requests.

Definition unitContainer (config : ApplicationConfig)
    (containerNames : list string) : Container :=
  {| cName := unitContainerName;
     cImagePullPolicy := "IfNotPresent";
     cImage := CharmBaseImage config;
     cWorkingDir := DataDir;
     cCommand := ["/charm/bin/containeragent"];
     cArgs := ["unit"; "--data-dir"; DataDir;
               "--charm-modified-version";
               pretty (CharmModifiedVersion config);
               "--append-env"; "PATH=$PATH:/charm/bin"];
     cEnv := [("JUJU_CONTAINER_NAMES",
               EnvLiteral (Join containerNames ","));
              (EnvAgentHTTPProbePort, EnvLiteral AgentHTTPProbePort)];
     cEnvFromSecret := [];
     cRunAs := Some (0, 0);
     cLivenessProbe := Some (agentProbe AgentHTTPPathLiveness);
     cReadinessProbe := Some (agentProbe AgentHTTPPathReadiness);
     cStartupProbe := Some (agentProbe AgentHTTPPathStartup);
     cVolumeMounts :=
       [charmMount "/charm/bin" "charm/bin" true;
        charmMount DataDir (TrimPrefix DataDir "/") false;
        charmMount "/charm/containers" "charm/containers" false];
     cRequests := resourceRequests (Constraints config) |}.

Definition workloadContainer (v : ContainerConfig) : Container :=
  {| cName := ccName v;
     cImagePullPolicy := "IfNotPresent";
     cImage := ccImage v;
     cWorkingDir := "";
     cCommand := ["/charm/bin/pebble"];
     cArgs := ["run"; "--create-dirs"; "--hold"];
     cEnv := [("JUJU_CONTAINER_NAME", EnvLiteral (ccName v));
              ("PEBBLE_SOCKET",
               EnvLiteral "/charm/container/pebble.socket")];
     cEnvFromSecret := [];
     cRunAs := Some (0, 0);
     cLivenessProbe := None;
     cReadinessProbe := None;
     cStartupProbe := None;
     cVolumeMounts :=
       [charmMount "/charm/bin/pebble" "charm/bin/pebble" true;
        charmMount "/charm/container"
          ("charm/containers/" +:+ ccName v) false];
     cRequests := ∅ |}.

Definition initContainer (a : app) (config : ApplicationConfig)
    (containerNames : list string) : Container :=
  {| cName := "charm-init";
     cImagePullPolicy := "IfNotPresent";
     cImage := AgentImagePath config;
     cWorkingDir := DataDir;
     cCommand := ["/opt/containeragent"];
     cArgs := ["init"; "--data-dir"; DataDir; "--bin-dir"; "/charm/bin"];
     cEnv := [("JUJU_CONTAINER_NAMES",
               EnvLiteral (Join containerNames ","));
              ("JUJU_K8S_POD_NAME", EnvFieldRef "metadata.name");
              ("JUJU_K8S_POD_UUID", EnvFieldRef "metadata.uid")];
     cEnvFromSecret := [secretName a];
     cRunAs := None;
     cLivenessProbe := None;
     cReadinessProbe := None;
     cStartupProbe := None;
     cVolumeMounts :=
       [charmMount DataDir (TrimPrefix DataDir "/") false;
        charmMount "/charm/bin" "charm/bin" false;
        charmMount "/charm/containers" "charm/containers" false];
     cRequests := ∅ |}.

(** The Go name of the architecture, or the normalised name when there
    is none. *)
Definition goArch (cpuArch : string) : result string :=
  if String.eqb cpuArch "amd64" then Ok "amd64"
  else if String.eqb cpuArch "arm64" then Ok "arm64"
  else if String.eqb cpuArch "ppc64el" then Ok "ppc64le"
  else if String.eqb cpuArch "s390x" then Ok "s390x"
  else Err (NotSupported ("architecture " +:+ Quote cpuArch)).

Definition nodeSelector (c : Constraints_)
    : result (gmap string string) :=
  if HasArch c
  then match goArch (NormaliseArch (default "" (Arch c))) with
       | Ok cpuArch => Ok {["kubernetes.io/arch" := cpuArch]}
       | Err e => Err e
       end
  else Ok ∅.

(** The containers of the configuration in the order of their names.  The
    source collects them by ranging over a Go map and sorts afterwards;
    the model ranges in the order of [map_to_list]. *)
Definition sortedContainers (config : ApplicationConfig)
    : list ContainerConfig :=
  merge_sort (fun x y => String.le (ccName x) (ccName y))
             ((map_to_list (ccContainers config)).*2).

Definition applicationPodSpec (a : app) (config : ApplicationConfig)
    : result PodSpec :=
  let containerNames :=
    sortStrings (ccName <$> (map_to_list (ccContainers config)).*2) in
  let containers := sortedContainers config in
  let containerSpecs :=
    unitContainer config containerNames
      :: map workloadContainer containers in
  match nodeSelector (Constraints config) with
  | Err e => Err e
  | Ok selector =>
      Ok {| AutomountServiceAccountToken := Some false;
            NodeSelector := selector;
            InitContainers := [initContainer a config containerNames];
            Containers := containerSpecs;
            Volumes := [ {| volName := charmVolumeName;
                            volSource := EmptyDirSource |} ] |}
  end.

End podspec.

(** ** Storage *)

(** The handler types of the source.  A handler may be nil. *)
Definition handleVolumeFunc : Type :=
  Volume → string → bool → M (option VolumeMount).
Definition handlePVCFunc : Type :=
  PersistentVolumeClaim → string → bool → M (option VolumeMount).
Definition handleVolumeMountFunc : Type := string → VolumeMount → M unit.
Definition handleStorageClassFunc : Type := StorageClass → M unit.

Definition withStorageClass (c : string) (p : VolumeParams) : VolumeParams :=
  {| vpName := vpName p;
     vpStorageConfig :=
       {| cfgStorageClass := c;
          cfgStorageProvisioner := cfgStorageProvisioner (vpStorageConfig p);
          cfgParameters := cfgParameters (vpStorageConfig p) |};
     vpSize := vpSize p |}.

Definition scName (c : StorageClass) : string := Name (scMeta c).
Definition pvcName (c : PersistentVolumeClaim) : string := Name (pvcMeta c).

(** [storageClassMap[v.Name] = v] for every listed class. *)
Definition storageClassMapOf (storageClasses : list StorageClass)
    : gmap string StorageClass :=
  foldl (fun m v => <[scName v := v]> m) ∅ storageClasses.

Definition hasKey {A} (m : gmap string A) (k : string) : bool :=
  match m !! k with Some _ => true | None => false end.

Section storage.
Context `{!Collaborators}.

(** The [if / else if / else] of [filesystemToVolumeInfo] that settles the
    storage class: the class to synthesize, if any, and the parameters
    with the class the claim will name. *)
Definition resolveStorageClass (a : app)
    (storageClasses : gmap string StorageClass) (params : VolumeParams)
    : option StorageClass * VolumeParams :=
  let configured := cfgStorageClass (vpStorageConfig params) in
  let qualifiedStorageClassName :=
    QualifiedStorageClassName (namespace a) configured in
  if hasKey storageClasses configured then (None, params)
  else if hasKey storageClasses qualifiedStorageClassName
  then (None, withStorageClass qualifiedStorageClassName params)
  else
    let sp := StorageProvisioner (namespace a) (modelName a) params in
    let newStorageClass := StorageClassSpec sp (legacyLabels a) in
    (Some newStorageClass, withStorageClass (scName newStorageClass) params).

Definition filesystemToVolumeInfo (a : app) (n : string)
    (fs : KubernetesFilesystemParams)
    (storageClasses : gmap string StorageClass)
    (pvcNameGetter : string → string)
    : result (option Volume * option PersistentVolumeClaim
              * option StorageClass) :=
  match ParseQuantity (pretty (Size fs) +:+ "Mi") with
  | Err err =>
      Err (Annotate ("invalid volume size " +:+ pretty (Size fs)) err)
  | Ok fsSize =>
      match VolumeSourceForFilesystem fs with
      | Err err => Err (Trace err)
      | Ok (Some volumeSource) =>
          Ok (Some {| volName := n; volSource := volumeSource |},
              None, None)
      | Ok None =>
          match ParseVolumeParams (pvcNameGetter n) fsSize
                  (Attributes fs) with
          | Err err =>
              Err (Annotate ("getting volume params for "
                             +:+ StorageName fs) err)
          | Ok params =>
              let '(newStorageClass, params) :=
                resolveStorageClass a storageClasses params in
              let labels :=
                LabelsMerge
                  (LabelsForStorage (StorageName fs) (legacyLabels a))
                  LabelsJuju in
              let pvc :=
                {| pvcMeta :=
                     {| Name := vpName params; Namespace := "";
                        Labels := labels;
                        Annotations :=
                          Merge (ResourceTagsToAnnotations
                                   (fsResourceTags fs) (legacyLabels a))
                                (AnnotationsForStorage (StorageName fs)
                                   (legacyLabels a));
                        DeletionTimestamp := None |};
                   pvcSpec := PersistentVolumeClaimSpec params |} in
              Ok (None, Some pvc, newStorageClass)
          end
      end
  end.

(** The body of the loop of [configureStorage], from the filesystem at
    [index] on; [fsNames] and [storageClassMap] are the locals the loop
    updates. *)
Fixpoint configureStorageFrom (a : app) (storageUniqueID : string)
    (handleVolume : option handleVolumeFunc)
    (handleVolumeMount : handleVolumeMountFunc)
    (handlePVC : option handlePVCFunc)
    (handleStorageClass : option handleStorageClassFunc)
    (index : nat) (filesystems : list KubernetesFilesystemParams)
    (fsNames : gset string) (storageClassMap : gmap string StorageClass)
    : M unit :=
  match filesystems with
  | [] => ret tt
  | fs :: rest =>
      if decide (StorageName fs ∈ fsNames)
      then fail (NotValid ("duplicated storage name "
                           +:+ Quote (StorageName fs)
                           +:+ " for " +:+ Quote (name a)))
      else
        let fsNames := fsNames ∪ {[StorageName fs]} in
        let readOnly :=
          match Attachment fs with
          | Some at_ => faReadOnly at_
          | None => false
          end in
        let n := volumeName a (StorageName fs) in
        let pvcNameGetter :=
          fun volName => volName +:+ "-" +:+ storageUniqueID in
        let* '(vol, pvc, sc) :=
          lift (filesystemToVolumeInfo a n fs storageClassMap
                  pvcNameGetter) in
        let mountPath := GetMountPathForFilesystem index (name a) fs in
        let* volumeMount :=
          match vol, handleVolume with
          | Some v, Some h => h v mountPath readOnly
          | _, _ => ret None
          end in
        let* storageClassMap :=
          match sc, handleStorageClass with
          | Some c, Some h =>
              let* _ := h c in ret (<[scName c := c]> storageClassMap)
          | _, _ => ret storageClassMap
          end in
        let* volumeMount :=
          match pvc, handlePVC with
          | Some p, Some h => h p mountPath readOnly
          | _, _ => ret volumeMount
          end in
        let* _ :=
          match volumeMount with
          | Some m => handleVolumeMount (StorageName fs) m
          | None => ret tt
          end in
        configureStorageFrom a storageUniqueID handleVolume
          handleVolumeMount handlePVC handleStorageClass
          (S index) rest fsNames storageClassMap
  end.

Definition configureStorage (a : app) (storageUniqueID : string)
    (filesystems : list KubernetesFilesystemParams)
    (storageClasses : list StorageClass)
    (handleVolume : option handleVolumeFunc)
    (handleVolumeMount : handleVolumeMountFunc)
    (handlePVC : option handlePVCFunc)
    (handleStorageClass : option handleStorageClassFunc) : M unit :=
  configureStorageFrom a storageUniqueID handleVolume handleVolumeMount
    handlePVC handleStorageClass 0%nat filesystems ∅
    (storageClassMapOf storageClasses).

(** [a.randomPrefix()] *)
Definition callRandomPrefix : M string :=
  fun m =>
    (randomPrefix (prefixCalls m),
     {| cluster := cluster m; requests := requests m;
        prefixCalls := S (prefixCalls m); staged := staged m;
        podSpec := podSpec m; claimTemplates := claimTemplates m |}).

(** [getMeta] yields the annotations of the live workload object. *)
Definition getStorageUniqPrefix (getMeta : M (gmap string string))
    : M string :=
  let* r := attempt getMeta in
  match r with
  | Ok annots =>
      let uniqID :=
        default "" (annots !! AnnotationKeyApplicationUUID false) in
      if (0 <? String.length uniqID)%nat then ret uniqID
      else callRandomPrefix
  | Err err =>
      if negb (IsNotFound err) then fail (Trace err)
      else callRandomPrefix
  end.

End storage.

(** ** Ensure *)

Definition withVolumes (vols : list Volume) (spec : PodSpec) : PodSpec :=
  {| AutomountServiceAccountToken := AutomountServiceAccountToken spec;
     NodeSelector := NodeSelector spec;
     InitContainers := InitContainers spec;
     Containers := Containers spec;
     Volumes := vols |}.

Definition withContainers (cs : list Container) (spec : PodSpec) : PodSpec :=
  {| AutomountServiceAccountToken := AutomountServiceAccountToken spec;
     NodeSelector := NodeSelector spec;
     InitContainers := InitContainers spec;
     Containers := cs;
     Volumes := Volumes spec |}.

Definition appendMounts (ms : list VolumeMount) (c : Container) : Container :=
  {| cName := cName c; cImagePullPolicy := cImagePullPolicy c;
     cImage := cImage c; cWorkingDir := cWorkingDir c;
     cCommand := cCommand c; cArgs := cArgs c; cEnv := cEnv c;
     cEnvFromSecret := cEnvFromSecret c; cRunAs := cRunAs c;
     cLivenessProbe := cLivenessProbe c;
     cReadinessProbe := cReadinessProbe c;
     cStartupProbe := cStartupProbe c;
     cVolumeMounts := cVolumeMounts c ++ ms;
     cRequests := cRequests c |}.

Definition withMountPath (p : string) (m : VolumeMount) : VolumeMount :=
  {| vmName := vmName m; vmReadOnly := vmReadOnly m; vmMountPath := p;
     vmSubPath := vmSubPath m |}.

Section ensure.
Context `{!Collaborators}.

Definition applicationSecret (a : app) (config : ApplicationConfig)
    : Secret :=
  {| secretMeta :=
       {| Name := secretName a; Namespace := namespace a;
          Labels := labels a; Annotations := annotations a config;
          DeletionTimestamp := None |};
     Data :=
       <["JUJU_K8S_CONTROLLER_CA_CERT" := ControllerCertBundle config]>
       (<["JUJU_K8S_CONTROLLER_ADDRESSES" := ControllerAddresses config]>
       (<["JUJU_K8S_APPLICATION_PASSWORD" := IntroductionSecret config]>
       (<["JUJU_K8S_MODEL" := modelUUID a]>
       (<["JUJU_K8S_APPLICATION" := name a]> ∅)))) |}.

Definition handleVolume : handleVolumeFunc :=
  fun v mountPath readOnly =>
    let* spec := gets podSpec in
    let* vols := lift (PushUniqueVolume (Volumes spec) v false) in
    let* _ := modify (withPodSpec (withVolumes vols)) in
    ret (Some {| vmName := volName v; vmReadOnly := readOnly;
                 vmMountPath := mountPath; vmSubPath := "" |}).

(** What [handleVolumeMount] does to one container of the pod spec. *)
Definition mountOn (config : ApplicationConfig) (storageName : string)
    (m : VolumeMount) (c : Container) : Container :=
  if String.eqb (cName c) unitContainerName then appendMounts [m] c
  else
    let mounts :=
      default [] (ccMounts <$> ccContainers config !! cName c) in
    appendMounts
      (map (fun mount => withMountPath (mcPath mount) m)
           (filter (fun mount => mcStorageName mount = storageName)
                   mounts))
      c.

Definition handleVolumeMount (config : ApplicationConfig)
    : handleVolumeMountFunc :=
  fun storageName m =>
    modify (withPodSpec (fun spec =>
      withContainers (map (mountOn config storageName m)
                          (Containers spec)) spec)).

Definition handlePVCForStatelessResource (a : app) : handlePVCFunc :=
  fun pvc mountPath readOnly =>
    let r := NewPersistentVolumeClaim (pvcName pvc) (namespace a) pvc in
    let* _ := applierApply (RPersistentVolumeClaim r) in
    let vol :=
      {| volName := pvcName r;
         volSource := PersistentVolumeClaimSource (pvcName r) readOnly |} in
    handleVolume vol mountPath readOnly.

(** The claim handler of the stateful branch: the claim becomes a claim
    template of the stateful set under construction. *)
Definition handlePVCForStatefulSet : handlePVCFunc :=
  fun pvc mountPath readOnly =>
    let* templates := gets claimTemplates in
    let* templates' :=
      lift (PushUniqueVolumeClaimTemplate templates pvc) in
    let* _ := modify (withClaimTemplates (fun _ => templates')) in
    ret (Some {| vmName := pvcName pvc; vmReadOnly := readOnly;
                 vmMountPath := mountPath; vmSubPath := "" |}).

Definition handleStorageClass : handleStorageClassFunc :=
  fun sc => applierApply (RStorageClass sc).

Definition workloadMeta (a : app) (config : ApplicationConfig)
    (storageUniqueID : string) : ObjectMeta :=
  {| Name := name a; Namespace := namespace a; Labels := labels a;
     Annotations :=
       Add (AnnotationKeyApplicationUUID false) storageUniqueID
           (annotations a config);
     DeletionTimestamp := None |}.

Definition podTemplate (a : app) (config : ApplicationConfig)
    (spec : PodSpec) : PodTemplateSpec :=
  {| tplLabels := selectorLabels a;
     tplAnnotations := annotations a config;
     tplSpec := spec |}.

(** [exists] as the stateful and stateless branches compute it from the
    result of the get. *)
Definition foundOrFail {A} (r : result A) : M bool :=
  match r with
  | Err getErr =>
      if IsNotFound getErr then ret false else fail (Trace getErr)
  | Ok _ => ret true
  end.

Definition annotationsOf {A} (meta : A → ObjectMeta) (r : result A)
    : result (gmap string string) :=
  match r with
  | Ok o => Ok (Annotations (meta o))
  | Err e => Err e
  end.

Definition ensureStateful (a : app) (config : ApplicationConfig)
    (storageClasses : list StorageClass) : M unit :=
  let* _ :=
    annotated ("creating or updating headless service for "
               +:+ Quote (deploymentType a) +:+ " " +:+ Quote (name a))
      (configureHeadlessService a (name a) (annotations a config)) in
  let* got := attempt (getStatefulSetObject (name a)) in
  let* found := foundOrFail got in
  let* storageUniqueID :=
    getStorageUniqPrefix (lift (annotationsOf ssMeta got)) in
  let numPods := if negb found then int32Ptr 1 else None in
  (** [Spec: *podSpec] copies the struct into the stateful set here, before
      the storage is configured: the copy shares the array of containers
      with [podSpec], so mounts added later show in it, and keeps the
      volumes it was copied with, as [PushUniqueVolume] appends to
      [podSpec.Volumes] only. *)
  let* copied := gets podSpec in
  let* _ := modify (withClaimTemplates (fun _ => [])) in
  let* _ :=
    configureStorage a storageUniqueID (Filesystems config) storageClasses
      (Some handleVolume) (handleVolumeMount config)
      (Some handlePVCForStatefulSet) (Some handleStorageClass) in
  let* final := gets podSpec in
  let* templates := gets claimTemplates in
  applierApply (RStatefulSet
    {| ssMeta := workloadMeta a config storageUniqueID;
       ssReplicas := numPods;
       ssSelector := selectorLabels a;
       ssTemplate :=
         podTemplate a config (withContainers (Containers final) copied);
       ssPodManagementPolicy := "Parallel";
       ssVolumeClaimTemplates := templates |}).

Definition ensureStateless (a : app) (config : ApplicationConfig)
    (storageClasses : list StorageClass) : M unit :=
  let* got := attempt (getDeploymentObject (name a)) in
  let* found := foundOrFail got in
  let* storageUniqueID :=
    getStorageUniqPrefix (lift (annotationsOf dMeta got)) in
  let numPods := if negb found then int32Ptr 1 else None in
  let* _ :=
    configureStorage a storageUniqueID (Filesystems config) storageClasses
      (Some handleVolume) (handleVolumeMount config)
      (Some (handlePVCForStatelessResource a))
      (Some handleStorageClass) in
  let* final := gets podSpec in
  applierApply (RDeployment
    {| dMeta := workloadMeta a config storageUniqueID;
       dReplicas := numPods;
       dSelector := selectorLabels a;
       dTemplate := podTemplate a config final |}).

Definition ensureDaemon (a : app) (config : ApplicationConfig)
    (storageClasses : list StorageClass) : M unit :=
  let* storageUniqueID :=
    getStorageUniqPrefix
      (let* d := getDaemonSetObject (name a) in
       ret (Annotations (dsMeta d))) in
  let* _ :=
    configureStorage a storageUniqueID (Filesystems config) storageClasses
      (Some handleVolume) (handleVolumeMount config)
      (Some (handlePVCForStatelessResource a))
      (Some handleStorageClass) in
  let* final := gets podSpec in
  applierApply (RDaemonSet
    {| dsMeta := workloadMeta a config storageUniqueID;
       dsSelector := selectorLabels a;
       dsTemplate := podTemplate a config final;
       dsDesiredNumberScheduled := 0 |}).

Definition Ensure (a : app) (config : ApplicationConfig) : M unit :=
  let* _ := newApplier in
  let* _ := applierApply (RSecret (applicationSecret a config)) in
  let* _ :=
    annotated ("ensuring the default service " +:+ Quote (name a))
      (configureDefaultService a (annotations a config)) in
  let* spec :=
    annotated "generating application podspec"
      (lift (applicationPodSpec a config)) in
  let* _ := modify (withPodSpec (fun _ => spec)) in
  let* storageClasses := ListStorageClass in
  let* _ :=
    match switchDeploymentType (deploymentType a) with
    | Some Stateful => ensureStateful a config storageClasses
    | Some Stateless => ensureStateless a config storageClasses
    | Some Daemon => ensureDaemon a config storageClasses
    | None => fail (NotSupported "unknown deployment type")
    end in
  applierRun.

End ensure.

(** ** A concrete set of collaborators

    The behaviour of the neighbouring packages as the tests of the package
    see it, with the fixed prefix generator the tests inject. *)

#[global] Instance VolumeSource_eq_dec : EqDecision VolumeSource.
Proof. solve_decision. Defined.
#[global] Instance Volume_eq_dec : EqDecision Volume.
Proof. solve_decision. Defined.
#[global] Instance ObjectMeta_eq_dec : EqDecision ObjectMeta.
Proof. solve_decision. Defined.
#[global] Instance Quantity_eq_dec : EqDecision Quantity.
Proof. solve_decision. Defined.
#[global] Instance PersistentVolumeClaimSpec_eq_dec :
  EqDecision PersistentVolumeClaimSpec_.
Proof. solve_decision. Defined.
#[global] Instance PersistentVolumeClaim_eq_dec :
  EqDecision PersistentVolumeClaim.
Proof. solve_decision. Defined.

Module fixture.

Definition qualified (ns c : string) : string :=
  if String.eqb ns "" then c else ns +:+ "-" +:+ c.

Fixpoint pushVolume (vols : list Volume) (v : Volume)
    : result (list Volume) :=
  match vols with
  | [] => Ok [v]
  | w :: rest =>
      if String.eqb (volName w) (volName v)
      then if decide (w = v) then Ok vols
           else Err (NotValid ("duplicated volume " +:+ volName v))
      else match pushVolume rest v with
           | Ok rest' => Ok (w :: rest')
           | Err e => Err e
           end
  end.

Fixpoint pushClaim (cs : list PersistentVolumeClaim)
    (c : PersistentVolumeClaim) : result (list PersistentVolumeClaim) :=
  match cs with
  | [] => Ok [c]
  | w :: rest =>
      if String.eqb (pvcName w) (pvcName c)
      then if decide (w = c) then Ok cs
           else Err (NotValid ("duplicated PVC " +:+ pvcName c))
      else match pushClaim rest c with
           | Ok rest' => Ok (w :: rest')
           | Err e => Err e
           end
  end.

Definition volumeSource (fs : KubernetesFilesystemParams)
    : result (option VolumeSource) :=
  if String.eqb (Provider fs) "rootfs" then Ok (Some EmptyDirSource)
  else if String.eqb (Provider fs) "tmpfs"
  then Ok (Some (OtherSource "EmptyDir" {["medium" := "Memory"]}))
  else Ok None.

Definition volumeParams (n : string) (size : Quantity)
    (attrs : gmap string string) : result VolumeParams :=
  Ok {| vpName := n;
        vpStorageConfig :=
          {| cfgStorageClass := default "" (attrs !! "storage-class");
             cfgStorageProvisioner :=
               default "" (attrs !! "storage-provisioner");
             cfgParameters := ∅ |};
        vpSize := size |}.

Definition provisioner (ns model : string) (p : VolumeParams)
    : StorageProvisioner_ :=
  {| provName := cfgStorageClass (vpStorageConfig p);
     provNamespace := ns; provModel := model;
     provProvisioner := cfgStorageProvisioner (vpStorageConfig p);
     provParameters := cfgParameters (vpStorageConfig p) |}.

Definition classSpec (sp : StorageProvisioner_) (legacy : bool)
    : StorageClass :=
  {| scMeta :=
       {| Name := qualified (provNamespace sp) (provName sp);
          Namespace := ""; Labels := {["model.juju.is/name" := provModel sp]};
          Annotations := ∅; DeletionTimestamp := None |};
     scProvisioner := provProvisioner sp;
     scParameters := provParameters sp |}.

Definition claimSpec (p : VolumeParams) : PersistentVolumeClaimSpec_ :=
  {| pvcStorageClassName := cfgStorageClass (vpStorageConfig p);
     pvcRequest := vpSize p;
     pvcAccessModes := ["ReadWriteOnce"] |}.

Definition mountPath (index : nat) (appName : string)
    (fs : KubernetesFilesystemParams) : string :=
  match Attachment fs with
  | Some at_ =>
      if String.eqb (faPath at_) ""
      then "/var/lib/juju/storage/" +:+ StorageName fs +:+ "/"
           +:+ pretty index
      else faPath at_
  | None =>
      "/var/lib/juju/storage/" +:+ StorageName fs +:+ "/" +:+ pretty index
  end.

(** A string in double quotes: what %q prints for a string of printable
    characters without quotes and backslashes. *)
Definition quoted (s : string) : string :=
  String "034" (s +:+ String "034" "").

#[global] Instance collaborators : Collaborators := {|
  LabelsForApp n legacy :=
    if legacy then {["juju-app" := n]}
    else <["app.kubernetes.io/managed-by" := "juju"]>
           {["app.kubernetes.io/name" := n]};
  SelectorLabelsForApp n legacy :=
    if legacy then {["juju-app" := n]}
    else {["app.kubernetes.io/name" := n]};
  LabelsForStorage n legacy :=
    if legacy then {["juju-storage" := n]}
    else {["storage.juju.is/name" := n]};
  LabelsJuju := {["app.kubernetes.io/managed-by" := "juju"]};
  ResourceTagsToAnnotations tags legacy := tags;
  AnnotationsForVersion v legacy :=
    if legacy then {["juju-version" := v]}
    else {["juju.is/version" := v]};
  AnnotationsForStorage n legacy :=
    if legacy then {["juju-storage" := n]}
    else {["storage.juju.is/name" := n]};
  AnnotationKeyApplicationUUID legacy :=
    if legacy then "juju-app-uuid" else "app.juju.is/uuid";
  randomPrefix n := Ok "appuuid";
  QualifiedStorageClassName := qualified;
  EnvAgentHTTPProbePort := "HTTP_PROBE_PORT";
  AgentHTTPProbePort := "3856";
  AgentHTTPPathLiveness := "/liveness";
  AgentHTTPPathReadiness := "/readiness";
  AgentHTTPPathStartup := "/startup";
  VolumeSourceForFilesystem := volumeSource;
  ParseVolumeParams := volumeParams;
  StorageProvisioner := provisioner;
  StorageClassSpec := classSpec;
  PersistentVolumeClaimSpec := claimSpec;
  GetMountPathForFilesystem := mountPath;
  PushUniqueVolume vols v force := pushVolume vols v;
  PushUniqueVolumeClaimTemplate := pushClaim;
  ParseQuantity s := Ok (ParsedQuantity s);
  NormaliseArch s := s;
  DataDir := "/var/lib/juju";
  Quote := quoted;
|}.

Definition emptyCluster : Cluster :=
  {| secrets := ∅; services := ∅; statefulsets := ∅; deployments := ∅;
     daemonsets := ∅; storageclasses := ∅; claims := ∅;
     podPages := fun _ => Ok {| Items := []; Continue := "";
                                RemainingItemCount := None |};
     faults := fun _ _ _ => None |}.

Definition gitlab (t : DeploymentType) : app :=
  {| name := "gitlab"; namespace := "test"; modelUUID := "uuid";
     modelName := "test"; legacyLabels := false; deploymentType := t |}.

Definition database (n size : Z) (class : string)
    : KubernetesFilesystemParams :=
  {| StorageName := "database-" +:+ pretty n; Size := size;
     Provider := "kubernetes";
     Attributes := {["storage-class" := class]};
     fsResourceTags := ∅;
     Attachment := Some {| faReadOnly := false; faPath := "" |} |}.

Definition config (fss : list KubernetesFilesystemParams)
    : ApplicationConfig :=
  {| IntroductionSecret := "secret"; AgentVersion := "2.9.0";
     AgentImagePath := "operator/image-path";
     ControllerAddresses := "10.0.0.1:17070";
     ControllerCertBundle := "ca-cert";
     ResourceTags := {["juju-controller-uuid" := "ctrl"]};
     Constraints := {| CpuPower := None; Mem := None; Arch := None |};
     Filesystems := fss;
     ccContainers :=
       {["gitlab" := {| ccName := "gitlab"; ccImage := "gitlab:latest";
                        ccMounts := [ {| mcStorageName := "database-0";
                                         mcPath := "/data" |} ] |} ]};
     CharmBaseImage := "ubuntu:20.04";
     CharmModifiedVersion := 9001 |}.

End fixture.

(** ** Vocabulary of the statements *)

(** The machine after one more request went out. *)
Definition logged (v : Verb) (k : Kind) (n : string) (m : Machine)
    : Machine :=
  {| cluster := cluster m; requests := requests m ++ [(v, k, n)];
     prefixCalls := prefixCalls m; staged := staged m;
     podSpec := podSpec m; claimTemplates := claimTemplates m |}.

(** The kind of the primary workload resource of a topology, and the
    metadata, replica pointer and annotations of the live one. *)
Definition primaryKind (t : topology) : Kind :=
  match t with
  | Stateful => KStatefulSet
  | Stateless => KDeployment
  | Daemon => KDaemonSet
  end.

Definition primaryMeta (c : Cluster) (t : topology) (n : string)
    : option ObjectMeta :=
  match t with
  | Stateful => ssMeta <$> statefulsets c !! n
  | Stateless => dMeta <$> deployments c !! n
  | Daemon => dsMeta <$> daemonsets c !! n
  end.

(** The pod listing of the cluster, from [cursor] on, consists of the pages
    [pages]: every page is served without error and reports how many items
    the pages after it hold; the last one may leave the count out. *)
Fixpoint paged (c : Cluster) (cursor : string) (pages : list (list Pod))
    : Prop :=
  match pages with
  | [] => False
  | items :: rest =>
      faults c VList KPod cursor = None ∧
      ∃ pg, podPages c cursor = Ok pg ∧ Items pg = items ∧
        match rest with
        | [] => noneRemaining pg = true
        | _ => RemainingItemCount pg = Some (Z.of_nat (length (concat rest)))
               ∧ paged c (Continue pg) rest
        end
  end.

Definition podNames (pods : list Pod) : list string :=
  map (fun pod => Name (podMeta pod)) pods.

(** An invariant of the machine that a computation keeps, whether it fails
    or not. *)
Definition preserves {A} (I : Machine → Prop) (c : M A) : Prop :=
  ∀ m, I m → I (c m).2.

(** What a get of object [n] answers on cluster [c]. *)
Definition liveGet {A} (c : Cluster) (k : Kind)
    (store : Cluster → gmap string A) (n : string) : result A :=
  match faults c VGet k n with
  | Some msg => Err (Foreign msg)
  | None =>
      match store c !! n with
      | Some o => Ok o
      | None => Err (NotFound n)
      end
  end.

(** Two clusters that differ in their Services at most. *)
Definition sameButServices (c c' : Cluster) : Prop :=
  secrets c' = secrets c ∧ statefulsets c' = statefulsets c
  ∧ deployments c' = deployments c ∧ daemonsets c' = daemonsets c
  ∧ storageclasses c' = storageclasses c ∧ claims c' = claims c
  ∧ podPages c' = podPages c ∧ faults c' = faults c.

Definition opKind (op : Op) : Kind :=
  match op with
  | OpApply r => resourceKind r
  | OpDelete k _ => k
  end.

Definition opName (op : Op) : string :=
  match op with
  | OpApply r => resourceName r
  | OpDelete _ n => n
  end.

Definition isApply (op : Op) : bool :=
  match op with OpApply _ => true | OpDelete _ _ => false end.

(** The replica pointer of a staged stateful set or deployment. *)
Definition opReplicas (op : Op) : option (option Z) :=
  match op with
  | OpApply (RStatefulSet s) => Some (ssReplicas s)
  | OpApply (RDeployment d) => Some (dReplicas d)
  | _ => None
  end.

Definition opAnnotations (op : Op) : gmap string string :=
  match op with
  | OpApply r => Annotations (resourceMeta r)
  | OpDelete _ _ => ∅
  end.

(** The replica pointer of the live primary workload resource. *)
Definition primaryReplicas (c : Cluster) (t : topology) (n : string)
    : option (option Z) :=
  match t with
  | Stateful => ssReplicas <$> statefulsets c !! n
  | Stateless => dReplicas <$> deployments c !! n
  | Daemon => None
  end.

Definition isWorkloadKind (k : Kind) : bool :=
  match k with
  | KStatefulSet | KDeployment | KDaemonSet => true
  | _ => false
  end.

(** A workload object is among the staged ops of the machine: the call
    of [Ensure] that left it got through the storage of its filesystems. *)
Definition stagesWorkload (m : Machine) : bool :=
  existsb (fun op => isWorkloadKind (opKind op)) (staged m).

(** The kinds the storage handlers stage. *)
Definition isStorageKind (k : Kind) : bool :=
  match k with
  | KStorageClass | KPersistentVolumeClaim => true
  | _ => false
  end.


(** What a get of the primary workload resource answers, as metadata. *)
Definition primaryGet (c : Cluster) (t : topology) (n : string)
    : result ObjectMeta :=
  match faults c VGet (primaryKind t) n with
  | Some msg => Err (Foreign msg)
  | None =>
      match primaryMeta c t n with
      | Some o => Ok o
      | None => Err (NotFound n)
      end
  end.

(** The claim handler and the workload object of each branch of [Ensure],
    for statements that hold for every topology. *)
Definition claimHandler `{!Collaborators} (t : topology) (a : app)
    : handlePVCFunc :=
  match t with
  | Stateful => handlePVCForStatefulSet
  | _ => handlePVCForStatelessResource a
  end.

Definition workloadResource `{!Collaborators} (t : topology) (a : app)
    (config : ApplicationConfig) (storageUniqueID : string)
    (numPods : option Z) (copied final : PodSpec)
    (templates : list PersistentVolumeClaim) : Resource :=
  match t with
  | Stateful =>
      RStatefulSet
        {| ssMeta := workloadMeta a config storageUniqueID;
           ssReplicas := numPods;
           ssSelector := selectorLabels a;
           ssTemplate :=
             podTemplate a config
               (withContainers (Containers final) copied);
           ssPodManagementPolicy := "Parallel";
           ssVolumeClaimTemplates := templates |}
  | Stateless =>
      RDeployment
        {| dMeta := workloadMeta a config storageUniqueID;
           dReplicas := numPods;
           dSelector := selectorLabels a;
           dTemplate := podTemplate a config final |}
  | Daemon =>
      RDaemonSet
        {| dsMeta := workloadMeta a config storageUniqueID;
           dsSelector := selectorLabels a;
           dsTemplate := podTemplate a config final;
           dsDesiredNumberScheduled := 0 |}
  end.

(** The replica count a branch puts on the workload object, from the answer
    to its get. *)
Definition initialReplicas (t : topology) (got : result ObjectMeta)
    : option Z :=
  match t, got with
  | Daemon, _ => None
  | _, Ok _ => None
  | _, Err _ => int32Ptr 1
  end.

Definition ensureBranch `{!Collaborators} (t : topology)
    : app → ApplicationConfig → list StorageClass → M unit :=
  match t with
  | Stateful => ensureStateful
  | Stateless => ensureStateless
  | Daemon => ensureDaemon
  end.

(** The cluster after the ops of a batch, and the requests the batch sends. *)
Definition effect (op : Op) (c : Cluster) : Cluster :=
  match op with
  | OpApply r => store r c
  | OpDelete k n => remove k n c
  end.

Definition effects (ops : list Op) (c : Cluster) : Cluster :=
  foldl (fun c op => effect op c) c ops.

Definition opRequest (op : Op) : Verb * Kind * string :=
  match op with
  | OpApply r => (VApply, resourceKind r, resourceName r)
  | OpDelete k n => (VDelete, k, n)
  end.

Definition refused (c : Cluster) (op : Op) : option string :=
  let '(v, k, n) := opRequest op in faults c v k n.

(** [m'] is [m] after requests that wrote Services at most. *)
Definition onlyServices (m m' : Machine) : Prop :=
  staged m' = staged m ∧ prefixCalls m' = prefixCalls m
  ∧ podSpec m' = podSpec m ∧ claimTemplates m' = claimTemplates m
  ∧ sameButServices (cluster m) (cluster m').

Definition isStorageOp (op : Op) : bool :=
  isApply op && isStorageKind (opKind op).

(** [m'] is [m] after the storage handlers ran: more storage objects are
    staged, and no request went out. *)
Definition storageStaged (m m' : Machine) : Prop :=
  cluster m' = cluster m ∧ requests m' = requests m
  ∧ prefixCalls m' = prefixCalls m
  ∧ ∃ ops, staged m' = staged m ++ ops ∧ forallb isStorageOp ops = true.

(** The machine after the batch [ops] ran without a refusal. *)
Definition ran (ops : list Op) (m : Machine) : Machine :=
  {| cluster := effects ops (cluster m);
     requests := requests m ++ map opRequest ops;
     prefixCalls := prefixCalls m; staged := staged m;
     podSpec := podSpec m; claimTemplates := claimTemplates m |}.

(** [m2] is the machine a call of [Ensure] on [m] has reached once the
    Secret is staged, before it gets the workload object: Services may have
    been written, the generator has not run. *)
Definition entered `{!Collaborators} (a : app) (config : ApplicationConfig)
    (m m2 : Machine) : Prop :=
  staged m2 = [OpApply (RSecret (applicationSecret a config))]
  ∧ prefixCalls m2 = prefixCalls m
  ∧ sameButServices (cluster m) (cluster m2).

(** The storage prefix the live primary workload resource carries. *)
Definition livePrefix `{!Collaborators} (c : Cluster) (t : topology)
    (n : string) : option string :=
  match primaryMeta c t n with
  | Some o =>
      match Annotations o !! AnnotationKeyApplicationUUID false with
      | Some v => if (0 <? String.length v)%nat then Some v else None
      | None => None
      end
  | None => None
  end.

(** The machine after the generator ran once more. *)
Definition generated (m : Machine) : Machine :=
  {| cluster := cluster m; requests := requests m;
     prefixCalls := S (prefixCalls m); staged := staged m;
     podSpec := podSpec m; claimTemplates := claimTemplates m |}.

(** An invariant that requests and writes of Services keep. *)
Definition servicesOnly (I : Machine → Prop) : Prop :=
  (∀ v k n m, I m → I (logged v k n m))
  ∧ (∀ s m, I m → I (withCluster (store (RService s)) m)).

(** How a call of [Ensure] on [m] came by the storage prefix [uid] when it
    has reached [m3]: it read it off the live workload object, or the
    object carried none and the generator made it. *)
Definition prefixSettled `{!Collaborators} (a : app) (t : topology)
    (m : Machine) (uid : string) (m3 : Machine) : Prop :=
  (livePrefix (cluster m) t (name a) = Some uid
   ∧ prefixCalls m3 = prefixCalls m)
  ∨ (livePrefix (cluster m) t (name a) = None
     ∧ randomPrefix (prefixCalls m) = Ok uid
     ∧ prefixCalls m3 = S (prefixCalls m)).



(** The configuration with other filesystems. *)
Definition withFilesystems (fss : list KubernetesFilesystemParams)
    (config : ApplicationConfig) : ApplicationConfig :=
  {| IntroductionSecret := IntroductionSecret config;
     AgentVersion := AgentVersion config;
     AgentImagePath := AgentImagePath config;
     ControllerAddresses := ControllerAddresses config;
     ControllerCertBundle := ControllerCertBundle config;
     ResourceTags := ResourceTags config;
     Constraints := Constraints config;
     Filesystems := fss;
     ccContainers := ccContainers config;
     CharmBaseImage := CharmBaseImage config;
     CharmModifiedVersion := CharmModifiedVersion config |}.

(** The cluster once [Ensure] has seen to the Services: the default Service
    is written when there is none, the headless Service in every call for a
    stateful set. *)
Definition servicesEnsured `{!Collaborators} (a : app)
    (config : ApplicationConfig) (t : topology) (c : Cluster) : Cluster :=
  let c1 :=
    match services c !! name a with
    | Some _ => c
    | None => store (RService (defaultService a (annotations a config))) c
    end in
  match t with
  | Stateful =>
      store (RService (headlessService a (name a) (annotations a config))) c1
  | _ => c1
  end.

(** The requests [Ensure] sends before it settles the storage prefix. *)
Definition preludeRequests (a : app) (t : topology) (c : Cluster)
    : list (Verb * Kind * string) :=
  [(VGet, KService, name a)]
  ++ match services c !! name a with
     | Some _ => []
     | None => [(VApply, KService, name a)]
     end
  ++ [(VList, KStorageClass, "")]
  ++ match t with
     | Stateful => [(VApply, KService, headlessServiceName (name a))]
     | _ => []
     end
  ++ [(VGet, primaryKind t, name a)].

Definition served (c : Cluster) (q : Verb * Kind * string) : Prop :=
  faults c q.1.1 q.1.2 q.2 = None.

(** The machine of a call of [Ensure] when none of these requests was
    refused, step by step: the Secret staged, the default Service asked for
    and written when there is none, the pod spec built, the storage classes
    listed, the headless Service written for a stateful set, the workload
    object asked for. *)
Definition prepared `{!Collaborators} (a : app) (config : ApplicationConfig)
    (t : topology) (spec : PodSpec) (m : Machine) : Machine :=
  let m1 :=
    logged VGet KService (name a)
      (withStaged
         (fun _ => [OpApply (RSecret (applicationSecret a config))]) m) in
  let m1 :=
    match services (cluster m) !! name a with
    | Some _ => m1
    | None =>
        withCluster
          (store (RService (defaultService a (annotations a config))))
          (logged VApply KService (name a) m1)
    end in
  let m2 := logged VList KStorageClass "" (withPodSpec (fun _ => spec) m1) in
  let mh :=
    match t with
    | Stateful =>
        withCluster
          (store (RService
                    (headlessService a (name a) (annotations a config))))
          (logged VApply KService (headlessServiceName (name a)) m2)
    | _ => m2
    end in
  logged VGet (primaryKind t) (name a) mh.

(** What is left of a call of [Ensure] from there on. *)
Definition settled `{!Collaborators} (a : app) (config : ApplicationConfig)
    (t : topology) (spec : PodSpec) (m : Machine)
    (prefix : result string * Machine) : result unit * Machine :=
  match prefix with
  | (Err e, m3) => (Err e, m3)
  | (Ok storageUniqueID, m3) =>
      match
        configureStorage a storageUniqueID (Filesystems config)
          ((map_to_list (storageclasses (cluster m))).*2)
          (Some handleVolume) (handleVolumeMount config)
          (Some (claimHandler t a)) (Some handleStorageClass)
          match t with
          | Stateful => withClaimTemplates (fun _ => []) m3
          | _ => m3
          end
      with
      | (Err e, m4) => (Err e, m4)
      | (Ok _, m4) =>
          let w :=
            workloadResource t a config storageUniqueID
              (initialReplicas t (primaryGet (cluster m) t (name a)))
              spec (podSpec m4) (claimTemplates m4) in
          runOps (staged m4 ++ [OpApply w])
            (withStaged (fun ops => ops ++ [OpApply w]) m4)
      end
  end.

(** ** Vocabulary of the second call of [Ensure] *)

Definition isClassOp (op : Op) : bool :=
  match op with
  | OpApply (RStorageClass _) => true
  | _ => false
  end.

(** The ops without the storage classes among them. *)
Definition dropClasses (ops : list Op) : list Op :=
  List.filter (fun op => negb (isClassOp op)) ops.

(** The resource with a nil replica count, and the op that applies it. *)
Definition unsetReplicas (r : Resource) : Resource :=
  match r with
  | RStatefulSet s =>
      RStatefulSet
        {| ssMeta := ssMeta s; ssReplicas := None;
           ssSelector := ssSelector s; ssTemplate := ssTemplate s;
           ssPodManagementPolicy := ssPodManagementPolicy s;
           ssVolumeClaimTemplates := ssVolumeClaimTemplates s |}
  | RDeployment d =>
      RDeployment
        {| dMeta := dMeta d; dReplicas := None; dSelector := dSelector d;
           dTemplate := dTemplate d |}
  | _ => r
  end.

Definition withoutReplicas (op : Op) : Op :=
  match op with
  | OpApply r => OpApply (unsetReplicas r)
  | OpDelete _ _ => op
  end.

(** [m2] is in the storage loop of a second call where [m1] was in the
    first: the objects under construction are the same, and the same ops
    are staged but for the storage classes. *)
Definition again (m1 m2 : Machine) : Prop :=
  podSpec m2 = podSpec m1 ∧ claimTemplates m2 = claimTemplates m1
  ∧ staged m2 = dropClasses (staged m1).

(** A synthesized class has the namespace-qualified name of the configured
    class. *)
Definition classesNamedQualified `{!Collaborators} : Prop :=
  ∀ ns model params legacy,
    scName (StorageClassSpec (StorageProvisioner ns model params) legacy)
    = QualifiedStorageClassName ns (cfgStorageClass (vpStorageConfig params)).

(** The class names that the filesystems [fss] configure are among the
    classes [before] when they are among the classes [after]. *)
Definition noNewConfigured `{!Collaborators}
    (fss : list KubernetesFilesystemParams)
    (before after : gmap string StorageClass) : Prop :=
  ∀ fs n size params,
    fs ∈ fss →
    ParseVolumeParams n size (Attributes fs) = Ok params →
    hasKey after (cfgStorageClass (vpStorageConfig params)) = true →
    hasKey before (cfgStorageClass (vpStorageConfig params)) = true.

(** Every storage class of the cluster is stored under its name. *)
Definition classesKeyed (c : Cluster) : Prop :=
  map_Forall (fun k v => scName v = k) (storageclasses c).

(** ** Vocabulary of the cluster, object by object *)

Definition asSecret (r : Resource) : option Secret :=
  match r with RSecret s => Some s | _ => None end.
Definition asService (r : Resource) : option Service :=
  match r with RService s => Some s | _ => None end.
Definition asStatefulSet (r : Resource) : option StatefulSet :=
  match r with RStatefulSet s => Some s | _ => None end.
Definition asDeployment (r : Resource) : option Deployment :=
  match r with RDeployment d => Some d | _ => None end.
Definition asDaemonSet (r : Resource) : option DaemonSet :=
  match r with RDaemonSet d => Some d | _ => None end.
Definition asStorageClass (r : Resource) : option StorageClass :=
  match r with RStorageClass c => Some c | _ => None end.
Definition asClaim (r : Resource) : option PersistentVolumeClaim :=
  match r with RPersistentVolumeClaim c => Some c | _ => None end.

(** What the server stores when the resource [r] is applied over the
    object [live]. *)
Definition mergeResource (live : option Resource) (r : Resource) : Resource :=
  match r with
  | RSecret s => RSecret (mergeSecret (live ≫= asSecret) s)
  | RService s => RService (mergeService (live ≫= asService) s)
  | RStatefulSet s =>
      RStatefulSet (mergeStatefulSet (live ≫= asStatefulSet) s)
  | RDeployment d => RDeployment (mergeDeployment (live ≫= asDeployment) d)
  | RDaemonSet d => RDaemonSet (mergeDaemonSet (live ≫= asDaemonSet) d)
  | RStorageClass c =>
      RStorageClass (mergeStorageClass (live ≫= asStorageClass) c)
  | RPersistentVolumeClaim c =>
      RPersistentVolumeClaim (mergeClaim (live ≫= asClaim) c)
  end.

(** The objects of one kind, by name. *)
Definition objects (k : Kind) (c : Cluster) : gmap string Resource :=
  match k with
  | KSecret => RSecret <$> secrets c
  | KService => RService <$> services c
  | KStatefulSet => RStatefulSet <$> statefulsets c
  | KDeployment => RDeployment <$> deployments c
  | KDaemonSet => RDaemonSet <$> daemonsets c
  | KStorageClass => RStorageClass <$> storageclasses c
  | KPersistentVolumeClaim => RPersistentVolumeClaim <$> claims c
  | KPod => ∅
  end.

(** What an op makes of the object [n] of kind [k]. *)
Definition slotStep (k : Kind) (n : string) (v : option Resource) (op : Op)
    : option Resource :=
  match op with
  | OpApply r =>
      if decide (resourceKind r = k ∧ resourceName r = n)
      then Some (mergeResource v r) else v
  | OpDelete k' n' => if decide (k' = k ∧ n' = n) then None else v
  end.

(** The objects a second call of [Ensure] applies again: all but the
    storage classes and the default Service. *)
Definition kept (a : app) (op : Op) : bool :=
  negb (bool_decide (opKind op = KStorageClass))
  && negb (bool_decide (opKind op = KService ∧ opName op = name a)).

(** The Services [Ensure] writes on the cluster [c], as ops. *)
Definition serviceOps `{!Collaborators} (a : app) (config : ApplicationConfig)
    (t : topology) (c : Cluster) : list Op :=
  match services c !! name a with
  | Some _ => []
  | None => [OpApply (RService (defaultService a (annotations a config)))]
  end
  ++ match t with
     | Stateful =>
         [OpApply (RService
                     (headlessService a (name a) (annotations a config)))]
     | _ => []
     end.

(** ** Concrete clusters and calls, on the collaborators of [fixture] *)

Module scenario.
Import fixture.

(** The machine after a first call of [Ensure] on an empty cluster. *)
Definition deployed (t : DeploymentType)
    (fss : list KubernetesFilesystemParams) : Machine :=
  (Ensure (gitlab t) (config fss) (boot emptyCluster)).2.

(** One filesystem; two filesystems of one name; and two filesystems of
    which the first is configured with the name that the class
    synthesized for the second gets. *)
Definition oneDisk : list KubernetesFilesystemParams :=
  [database 0 100 "fast"].

Definition sameName : list KubernetesFilesystemParams :=
  [database 0 100 "fast"; database 0 200 "fast"].

Definition crossing : list KubernetesFilesystemParams :=
  [database 0 100 "test-fast"; database 1 100 "fast"].

(** A cluster with the Secret of the application and nothing else. *)
Definition secretOnly : Cluster :=
  store (RSecret (applicationSecret (gitlab DeploymentStateful) (config [])))
    emptyCluster.

Definition pod (n : string) : Pod :=
  {| podMeta :=
       {| Name := n; Namespace := "test"; Labels := ∅; Annotations := ∅;
          DeletionTimestamp := None |} |}.

(** A stateful set of three replicas, marked for deletion or not. *)
Definition gitlabSet (deleted : option Z) : StatefulSet :=
  {| ssMeta :=
       {| Name := "gitlab"; Namespace := "test"; Labels := ∅;
          Annotations := ∅; DeletionTimestamp := deleted |};
     ssReplicas := Some 3;
     ssSelector := ∅;
     ssTemplate :=
       {| tplLabels := ∅; tplAnnotations := ∅; tplSpec := emptyPodSpec |};
     ssPodManagementPolicy := "Parallel";
     ssVolumeClaimTemplates := [] |}.

(** The pods of the stateful set, listed in two pages. *)
Definition twoPages (cursor : string) : result PodList :=
  if String.eqb cursor ""
  then Ok {| Items := [pod "gitlab-1"; pod "gitlab-0"];
             Continue := "page-2"; RemainingItemCount := Some 1 |}
  else if String.eqb cursor "page-2"
  then Ok {| Items := [pod "gitlab-2"]; Continue := "";
             RemainingItemCount := None |}
  else Err (errors.Foreign "no such page").

Definition running (deleted : option Z) : Cluster :=
  {| secrets := ∅; services := ∅;
     statefulsets := {["gitlab" := gitlabSet deleted]};
     deployments := ∅; daemonsets := ∅; storageclasses := ∅; claims := ∅;
     podPages := twoPages;
     faults := fun _ _ _ => None |}.


End scenario.

(** ** Vocabulary of the further properties *)

(** The machine after the requests [log] went out and nothing else
    happened. *)
Definition asked (log : list (Verb * Kind * string)) (m : Machine)
    : Machine :=
  {| cluster := cluster m; requests := requests m ++ log;
     prefixCalls := prefixCalls m; staged := staged m;
     podSpec := podSpec m; claimTemplates := claimTemplates m |}.

(** The metadata of the objects [Exists] asks for, in the order it asks,
    of those that are there. *)
Definition lookedAt (a : app) (t : topology) (c : Cluster)
    : list ObjectMeta :=
  omap id [primaryMeta c t (name a);
           secretMeta <$> secrets c !! secretName a;
           svcMeta <$> services c !! name a].

(** The objects [Delete] deletes, in the order it stages them. *)
Definition deleted (a : app) (t : topology) : list (Kind * string) :=
  (primaryKind t, name a)
  :: match t with
     | Stateful => [(KService, headlessServiceName (name a))]
     | _ => []
     end
  ++ [(KService, name a); (KSecret, secretName a)].

(** The pod spec a workload resource carries. *)
Definition templateOf (r : Resource) : option PodSpec :=
  match r with
  | RStatefulSet s => Some (tplSpec (ssTemplate s))
  | RDeployment d => Some (tplSpec (dTemplate d))
  | RDaemonSet d => Some (tplSpec (dsTemplate d))
  | _ => None
  end.

(** The volume mounts of the first container of a pod spec, which is the
    charm container in the pod spec of an application. *)
Definition unitMounts (spec : PodSpec) : list VolumeMount :=
  match Containers spec with
  | c :: _ => cVolumeMounts c
  | [] => []
  end.

(** [readOnly] as the loop of [configureStorage] computes it. *)
Definition readOnlyOf (fs : KubernetesFilesystemParams) : bool :=
  match Attachment fs with
  | Some at_ => faReadOnly at_
  | None => false
  end.

(** An invariant of the machine that holds whatever is asked of the
    server, applied to the cluster, staged, or done to the variables of
    the call. *)
Definition appliesOnly (I : Machine → Prop) : Prop :=
  (∀ v k n m, I m → I (logged v k n m))
  ∧ (∀ r m, I m → I (withCluster (store r) m))
  ∧ (∀ f m, I m → I (withStaged f m))
  ∧ (∀ f m, I m → I (withPodSpec f m))
  ∧ (∀ f m, I m → I (withClaimTemplates f m))
  ∧ (∀ m, I m → I (generated m)).

(** ** More concrete clusters and calls *)

Module cases.
Import fixture.

(** The configuration of [config] with constraints on CPU power, memory
    and architecture. *)
Definition constrained : ApplicationConfig :=
  {| IntroductionSecret := "secret"; AgentVersion := "2.9.0";
     AgentImagePath := "operator/image-path";
     ControllerAddresses := "10.0.0.1:17070";
     ControllerCertBundle := "ca-cert";
     ResourceTags := {["juju-controller-uuid" := "ctrl"]};
     Constraints :=
       {| CpuPower := Some 500; Mem := Some 1024; Arch := Some "arm64" |};
     Filesystems := [];
     ccContainers := ccContainers (config []);
     CharmBaseImage := "ubuntu:20.04";
     CharmModifiedVersion := 9001 |}.

(** A cluster whose server refuses to apply the stateful set. *)
Definition refusing : Cluster :=
  {| secrets := ∅; services := ∅; statefulsets := ∅; deployments := ∅;
     daemonsets := ∅; storageclasses := ∅; claims := ∅;
     podPages := podPages emptyCluster;
     faults := fun v k n =>
       if bool_decide (v = VApply ∧ k = KStatefulSet ∧ n = "gitlab")
       then Some "quota exceeded" else None |}.

(** A filesystem in memory, mounted read-only at a path of its own, after
    one of the cluster's. *)
Definition scratch : list KubernetesFilesystemParams :=
  [database 0 100 "fast";
   {| StorageName := "cache"; Size := 64; Provider := "tmpfs";
      Attributes := ∅; fsResourceTags := ∅;
      Attachment := Some {| faReadOnly := true; faPath := "/cache" |} |}].

End cases.

(** ** Theorems *)

Section default_service.
Context `{!Collaborators}.

Lemma bind_run {A B} (c : M A) (k : A → M B) (m : Machine) :
  bind c k m = match c m with
               | (Ok x, m') => k x m'
               | (Err e, m') => (Err e, m')
               end.
Proof. reflexivity. Qed.

Lemma request_run v k n m :
  request v k n m =
    match faults (cluster m) v k n with
    | Some msg => (Err (Foreign msg), logged v k n m)
    | None => (Ok tt, logged v k n m)
    end.
Proof. unfold request, logged. by destruct (faults _ _ _ _). Qed.

Lemma getFrom_run {A} k (store : Cluster → gmap string A) n m :
  getFrom k store n m =
    match faults (cluster m) VGet k n with
    | Some msg => (Err (Foreign msg), logged VGet k n m)
    | None =>
        match store (cluster m) !! n with
        | Some o => (Ok o, logged VGet k n m)
        | None => (Err (NotFound n), logged VGet k n m)
        end
    end.
Proof.
  unfold getFrom. rewrite bind_run, request_run.
  destruct (faults _ _ _ _); [done|].
  cbn. by destruct (store _ !! n).
Qed.

Lemma applyResource_run r m :
  applyResource r m =
    match faults (cluster m) VApply (resourceKind r) (resourceName r) with
    | Some msg =>
        (Err (Foreign msg), logged VApply (resourceKind r) (resourceName r) m)
    | None =>
        (Ok tt, withCluster (store r)
                  (logged VApply (resourceKind r) (resourceName r) m))
    end.
Proof.
  unfold applyResource. rewrite bind_run, request_run.
  by destruct (faults _ _ _ _).
Qed.

Lemma configureDefaultService_run a annotation m :
  configureDefaultService a annotation m =
    let asked := logged VGet KService (name a) m in
    match faults (cluster m) VGet KService (name a) with
    | Some msg => (Err (Foreign msg), asked)
    | None =>
        match services (cluster m) !! name a with
        | Some _ => (Ok tt, asked)
        | None => applyResource (RService (defaultService a annotation))
                    asked
        end
    end.
Proof.
  unfold configureDefaultService, attempt, getServiceObject.
  rewrite bind_run, getFrom_run.
  destruct (faults (cluster m) VGet KService (name a)) as [msg|]; [done|].
  by destruct (services (cluster m) !! name a).
Qed.

(** C10.  [configureDefaultService] asks for the Service named after the
    application.  A refused get is the result, with nothing written; a
    Service that is there leaves the cluster alone and the result is nil;
    only when the get says not-found is the default Service applied, and
    that Service is of type ClusterIP, selects the pods of the
    application and has the one port "placeholder", 65535. *)
Theorem configureDefaultService_create_once a annotation m :
  let svc := defaultService a annotation in
  let asked := logged VGet KService (name a) m in
  (Name (svcMeta svc) = name a
   ∧ svcType svc = ServiceTypeClusterIP
   ∧ svcSelector svc = selectorLabels a
   ∧ svcPorts svc = [ {| spName := "placeholder"; spPort := 65535;
                         spTargetPort := 0; spProtocol := "" |} ])
  ∧ configureDefaultService a annotation m =
      match faults (cluster m) VGet KService (name a) with
      | Some msg => (Err (Foreign msg), asked)
      | None =>
          match services (cluster m) !! name a with
          | Some _ => (Ok tt, asked)
          | None =>
              match faults (cluster m) VApply KService (name a) with
              | Some msg =>
                  (Err (Foreign msg), logged VApply KService (name a) asked)
              | None =>
                  (Ok tt,
                   withCluster (store (RService svc))
                     (logged VApply KService (name a) asked))
              end
          end
      end.
Proof.
  intros svc asked. split; [done|].
  rewrite configureDefaultService_run. cbn zeta.
  destruct (faults (cluster m) VGet KService (name a)) as [msg|]; [done|].
  destruct (services (cluster m) !! name a); [done|].
  by rewrite applyResource_run.
Qed.

End default_service.

Section queries.
Context `{!Collaborators}.

Lemma annotated_run {A} ctx (c : M A) m :
  annotated ctx c m = match c m with
                      | (Err e, m') => (Err (Annotate ctx e), m')
                      | (Ok x, m') => (Ok x, m')
                      end.
Proof. unfold annotated. by destruct (c m) as [[?|?] ?]. Qed.

Lemma resourceExists_run {A} k (store : Cluster → gmap string A) meta n m :
  resourceExists (getFrom k store) meta n m =
    match faults (cluster m) VGet k n with
    | Some msg => (Err (Foreign msg), logged VGet k n m)
    | None =>
        match store (cluster m) !! n with
        | Some o => (Ok (true, isMarked (meta o)), logged VGet k n m)
        | None => (Ok (false, false), logged VGet k n m)
        end
    end.
Proof.
  unfold resourceExists, attempt. rewrite bind_run, getFrom_run.
  destruct (faults _ _ _ _); [done|]. by destruct (store _ !! n).
Qed.

(** The check of the primary workload resource of topology [t]. *)
Lemma primary_check_run a t m :
  match t return M (bool * bool) with
  | Stateful => statefulSetExists a
  | Stateless => deploymentExists a
  | Daemon => daemonSetExists a
  end m =
    match faults (cluster m) VGet (primaryKind t) (name a) with
    | Some msg =>
        (Err (Foreign msg), logged VGet (primaryKind t) (name a) m)
    | None =>
        match primaryMeta (cluster m) t (name a) with
        | Some o =>
            (Ok (true, isMarked o), logged VGet (primaryKind t) (name a) m)
        | None =>
            (Ok (false, false), logged VGet (primaryKind t) (name a) m)
        end
    end.
Proof.
  destruct t; cbn [primaryKind primaryMeta];
    unfold statefulSetExists, deploymentExists, daemonSetExists,
      getStatefulSetObject, getDeploymentObject, getDaemonSetObject;
    rewrite resourceExists_run;
    destruct (faults _ _ _ _); try done;
    by match goal with |- context [?s !! ?n] => destruct (s !! n) end.
Qed.

Lemma ExistsM_run a t m :
  switchDeploymentType (deploymentType a) = Some t →
  ExistsM a m =
    runChecks
      [ {| label := match t with
                    | Stateful => "statefulset"
                    | Stateless => "deployment"
                    | Daemon => "daemonset"
                    end;
           check := match t with
                    | Stateful => statefulSetExists a
                    | Stateless => deploymentExists a
                    | Daemon => daemonSetExists a
                    end;
           forceTerminating := false |};
        {| label := "secret"; check := secretExists a;
           forceTerminating := false |};
        {| label := "service"; check := serviceExists a;
           forceTerminating := false |} ]
      emptyDeploymentState m.
Proof. intros Ht. unfold ExistsM. rewrite Ht. by destruct t. Qed.

(** C5.  [Exists] checks the primary workload resource of the topology,
    then the Secret, then the default Service, and takes not-found for
    absent.  With only an unmarked Secret there it answers exists, not
    terminating, after the three gets.  With a primary workload resource
    that carries a deletion timestamp it answers exists, terminating,
    after the first get alone, whatever the Secret and the Service are. *)
Theorem Exists_aggregation a t m :
  switchDeploymentType (deploymentType a) = Some t →
  faults (cluster m) VGet (primaryKind t) (name a) = None →
  (∀ s,
     primaryMeta (cluster m) t (name a) = None →
     faults (cluster m) VGet KSecret (secretName a) = None →
     secrets (cluster m) !! secretName a = Some s →
     isMarked (secretMeta s) = false →
     faults (cluster m) VGet KService (name a) = None →
     services (cluster m) !! name a = None →
     Exists a m =
       (({| dsExists := true; dsTerminating := false |}, None),
        logged VGet KService (name a)
          (logged VGet KSecret (secretName a)
             (logged VGet (primaryKind t) (name a) m))))
  ∧ (∀ o,
       primaryMeta (cluster m) t (name a) = Some o →
       isMarked o = true →
       Exists a m =
         (({| dsExists := true; dsTerminating := true |}, None),
          logged VGet (primaryKind t) (name a) m)).
Proof.
  intros Ht Hf. split.
  - intros s Hp Hfs Hs Hmark Hfv Hv.
    unfold Exists. rewrite (ExistsM_run a t m Ht).
    cbn [runChecks label check forceTerminating].
    rewrite bind_run, annotated_run, primary_check_run, Hf, Hp.
    cbn [negb].
    rewrite bind_run, annotated_run.
    unfold secretExists, getSecretObject. rewrite resourceExists_run.
    cbn [cluster logged]. rewrite Hfs, Hs, Hmark.
    cbn [negb orb].
    rewrite bind_run, annotated_run.
    unfold serviceExists, getServiceObject. rewrite resourceExists_run.
    cbn [cluster logged]. rewrite Hfv, Hv. done.
  - intros o Hp Hmark.
    unfold Exists. rewrite (ExistsM_run a t m Ht).
    cbn [runChecks label check forceTerminating].
    rewrite bind_run, annotated_run, primary_check_run, Hf, Hp, Hmark.
    done.
Qed.

End queries.

Section state.
Context `{!Collaborators}.

Lemma desiredReplicas_run a t m :
  switchDeploymentType (deploymentType a) = Some t →
  desiredReplicas a m =
    match faults (cluster m) VGet (primaryKind t) (name a) with
    | Some msg =>
        (Err (Foreign msg), logged VGet (primaryKind t) (name a) m)
    | None =>
        (match t with
         | Stateful =>
             match statefulsets (cluster m) !! name a with
             | Some ss =>
                 match ssReplicas ss with
                 | Some n => Ok n
                 | None => Err (Errorf "missing replicas")
                 end
             | None => Err (NotFound (name a))
             end
         | Stateless =>
             match deployments (cluster m) !! name a with
             | Some d =>
                 match dReplicas d with
                 | Some n => Ok n
                 | None => Err (Errorf "missing replicas")
                 end
             | None => Err (NotFound (name a))
             end
         | Daemon =>
             match daemonsets (cluster m) !! name a with
             | Some d => Ok (dsDesiredNumberScheduled d)
             | None => Err (NotFound (name a))
             end
         end, logged VGet (primaryKind t) (name a) m)
    end.
Proof.
  intros Ht. unfold desiredReplicas. rewrite Ht.
  destruct t; cbn [primaryKind];
    unfold getStatefulSetObject, getDeploymentObject, getDaemonSetObject;
    rewrite bind_run, getFrom_run;
    destruct (faults _ _ _ _); try done;
    match goal with |- context [?s !! ?n] => destruct (s !! n) as [o|] end;
    try done.
  - by destruct (ssReplicas o).
  - by destruct (dReplicas o).
Qed.

Lemma State_run a fuel m :
  State a fuel m =
    match desiredReplicas a m with
    | (Err e, m1) => Some ((emptyApplicationState, Some e), m1)
    | (Ok desired, m1) =>
        match listReplicas fuel "" [] m1 with
        | (Err e, m') => Some ((emptyApplicationState, Some e), m')
        | (Ok None, _) => None
        | (Ok (Some names), m') =>
            Some (({| DesiredReplicas := desired;
                      Replicas := sortStrings names |}, None), m')
        end
    end.
Proof.
  unfold State, StateM. rewrite bind_run.
  destruct (desiredReplicas a m) as [[desired|e] m1]; [|done].
  rewrite bind_run.
  destruct (listReplicas fuel "" [] m1) as [[[names|]|e] m']; done.
Qed.

Lemma State_error_is_empty a fuel m s e m' :
  State a fuel m = Some ((s, Some e), m') → s = emptyApplicationState.
Proof.
  rewrite State_run.
  destruct (desiredReplicas a m) as [[desired|e1] m1];
    [|by intros [= <- _ _]].
  destruct (listReplicas fuel "" [] m1) as [[[names|]|e2] m2];
    try done; by intros [= <- _ _].
Qed.

(** C7.  For a stateful set and for a deployment [State] reads the replica
    pointer of the live object: a nil pointer is the error "missing
    replicas", with nothing put in its place, and a set pointer is the
    desired count.  For a daemon set the desired count is the
    desired-scheduled number of the live status.  Whenever [State]
    returns an error, the state it returns is empty. *)
Theorem State_desired_replicas a t fuel m :
  switchDeploymentType (deploymentType a) = Some t →
  faults (cluster m) VGet (primaryKind t) (name a) = None →
  let asked := logged VGet (primaryKind t) (name a) m in
  let answer desired :=
    ∀ names m',
      listReplicas fuel "" [] asked = (Ok (Some names), m') →
      State a fuel m =
        Some (({| DesiredReplicas := desired;
                  Replicas := sortStrings names |}, None), m') in
  let missing :=
    State a fuel m =
      Some ((emptyApplicationState, Some (Errorf "missing replicas")),
            asked) in
  (∀ ss, t = Stateful → statefulsets (cluster m) !! name a = Some ss →
     match ssReplicas ss with
     | None => missing
     | Some n => answer n
     end)
  ∧ (∀ d, t = Stateless → deployments (cluster m) !! name a = Some d →
       match dReplicas d with
       | None => missing
       | Some n => answer n
       end)
  ∧ (∀ d, t = Daemon → daemonsets (cluster m) !! name a = Some d →
       answer (dsDesiredNumberScheduled d))
  ∧ (∀ s e m', State a fuel m = Some ((s, Some e), m') →
       s = emptyApplicationState).
Proof.
  intros Ht Hf asked answer missing.
  pose proof (desiredReplicas_run a t m Ht) as Hd. rewrite Hf in Hd.
  repeat split.
  - intros ss -> Hss. rewrite Hss in Hd.
    destruct (ssReplicas ss) as [n|].
    + intros names m' Hl. rewrite State_run, Hd. fold asked. by rewrite Hl.
    + unfold missing. by rewrite State_run, Hd.
  - intros d -> Hdd. rewrite Hdd in Hd.
    destruct (dReplicas d) as [n|].
    + intros names m' Hl. rewrite State_run, Hd. fold asked. by rewrite Hl.
    + unfold missing. by rewrite State_run, Hd.
  - intros d -> Hdd. rewrite Hdd in Hd.
    intros names m' Hl. rewrite State_run, Hd. fold asked. by rewrite Hl.
  - apply State_error_is_empty.
Qed.

Lemma listPods_run next m :
  listPods next m =
    match faults (cluster m) VList KPod next with
    | Some msg => (Err (Foreign msg), logged VList KPod next m)
    | None => (podPages (cluster m) next, logged VList KPod next m)
    end.
Proof.
  unfold listPods. rewrite bind_run, request_run.
  by destruct (faults _ _ _ _).
Qed.

Lemma length_zero_nil {A} (l : list A) : Z.of_nat (length l) = 0 → l = [].
Proof. destruct l; [done|]. cbn [length]. lia. Qed.

(** The loop reads all the pages of a paged listing when it may send as
    many requests as there are pages. *)
Lemma listReplicas_paged pages :
  ∀ fuel cursor acc m,
    paged (cluster m) cursor pages →
    (length pages ≤ fuel)%nat →
    ∃ m', listReplicas fuel cursor acc m
          = (Ok (Some (acc ++ podNames (concat pages))), m').
Proof.
  induction pages as [|items rest IH]; intros fuel cursor acc m Hp Hfuel;
    [done|].
  destruct fuel as [|fuel]; [cbn in Hfuel; lia|].
  destruct Hp as (Hf & pg & Hpg & Hitems & Hrest).
  cbn [listReplicas]. rewrite bind_run, listPods_run, Hf, Hpg.
  destruct rest as [|next rest].
  - rewrite Hrest. eexists.
    by rewrite Hitems, concat_cons, concat_nil, app_nil_r.
  - destruct Hrest as [Hcount Hrest].
    destruct (noneRemaining pg) eqn:Hnone.
    + unfold noneRemaining in Hnone. rewrite Hcount in Hnone.
      apply Z.eqb_eq, length_zero_nil in Hnone.
      eexists. rewrite Hitems.
      by rewrite (concat_cons items), Hnone, app_nil_r.
    + destruct (IH fuel (Continue pg) (acc ++ podNames (Items pg))
                  (logged VList KPod cursor m)) as [m' Hm'].
      { exact Hrest. }
      { cbn [length] in Hfuel |- *. lia. }
      exists m'. fold (podNames (Items pg)). rewrite Hm', Hitems.
      rewrite (concat_cons items). unfold podNames.
      by rewrite map_app, app_assoc.
Qed.

Lemma desiredReplicas_cluster a m :
  cluster (desiredReplicas a m).2 = cluster m.
Proof.
  unfold desiredReplicas.
  destruct (switchDeploymentType (deploymentType a)) as [[]|]; [..|done];
    unfold getStatefulSetObject, getDeploymentObject, getDaemonSetObject;
    rewrite bind_run, getFrom_run;
    destruct (faults _ _ _ _); try done;
    match goal with |- context [?s !! ?n] => destruct (s !! n) as [o|] end;
    try done.
  - by destruct (ssReplicas o).
  - by destruct (dReplicas o).
Qed.

(** C8.  When the server splits the pod listing into pages, each with its
    cursor and the count of the items still to come, [State] ends after
    one request per page at most and returns the names of the pods of all
    pages: sorted, each as often as the pages hold it, so without
    duplicates when the pages have none. *)
Theorem State_pagination a fuel m pages desired m1 :
  desiredReplicas a m = (Ok desired, m1) →
  paged (cluster m) "" pages →
  (length pages ≤ fuel)%nat →
  let names := podNames (concat pages) in
  (∃ m', State a fuel m =
           Some (({| DesiredReplicas := desired;
                     Replicas := sortStrings names |}, None), m'))
  ∧ Sorted String.le (sortStrings names)
  ∧ sortStrings names ≡ₚ names
  ∧ (NoDup names → NoDup (sortStrings names)).
Proof.
  intros Hd Hp Hfuel names. repeat split.
  - pose proof (desiredReplicas_cluster a m) as Hc.
    rewrite Hd in Hc. cbn [snd] in Hc. rewrite <- Hc in Hp.
    destruct (listReplicas_paged pages fuel "" [] m1 Hp Hfuel) as [m' Hm'].
    exists m'. rewrite State_run, Hd, Hm'. done.
  - apply Sorted_merge_sort. apply _.
  - apply merge_sort_Permutation.
  - intros Hnd. unfold sortStrings. by rewrite merge_sort_Permutation.
Qed.

End state.

Section storage_class.
Context `{!Collaborators}.

Lemma hasKey_true {A} (m : gmap string A) k :
  hasKey m k = true ↔ is_Some (m !! k).
Proof.
  unfold hasKey. destruct (m !! k); split; try done.
Qed.

Lemma hasKey_false {A} (m : gmap string A) k :
  hasKey m k = false ↔ m !! k = None.
Proof. unfold hasKey. by destruct (m !! k). Qed.

(** C6.  For a filesystem that is no plain volume,
    [filesystemToVolumeInfo] returns a claim and no volume, and settles
    the storage class of the claim in this order: the class of the
    configured name when it is there, else the class of the
    namespace-qualified name when that one is there, the claim then
    naming the qualified class, else a class it synthesizes from the
    claim parameters, the claim naming the new class.  A class
    definition is returned in the third case and in no other. *)
Theorem filesystemToVolumeInfo_precedence
    a n fs (classes : gmap string StorageClass) getter fsSize params :
  ParseQuantity (pretty (Size fs) +:+ "Mi") = Ok fsSize →
  VolumeSourceForFilesystem fs = Ok None →
  ParseVolumeParams (getter n) fsSize (Attributes fs) = Ok params →
  let configured := cfgStorageClass (vpStorageConfig params) in
  let qualified := QualifiedStorageClassName (namespace a) configured in
  let synthesized :=
    StorageClassSpec
      (StorageProvisioner (namespace a) (modelName a) params)
      (legacyLabels a) in
  ∃ pvc sc,
    filesystemToVolumeInfo a n fs classes getter = Ok (None, Some pvc, sc)
    ∧ pvcName pvc = vpName params
    ∧ (is_Some (classes !! configured) →
         sc = None ∧ pvcSpec pvc = PersistentVolumeClaimSpec params)
    ∧ (classes !! configured = None → is_Some (classes !! qualified) →
         sc = None
         ∧ pvcSpec pvc
           = PersistentVolumeClaimSpec (withStorageClass qualified params))
    ∧ (classes !! configured = None → classes !! qualified = None →
         sc = Some synthesized
         ∧ pvcSpec pvc
           = PersistentVolumeClaimSpec
               (withStorageClass (scName synthesized) params))
    ∧ (is_Some sc ↔
         classes !! configured = None ∧ classes !! qualified = None).
Proof.
  intros Hq Hv Hp configured qualified synthesized.
  unfold filesystemToVolumeInfo. rewrite Hq, Hv, Hp.
  unfold resolveStorageClass.
  fold configured. fold qualified. fold synthesized.
  destruct (hasKey classes configured) eqn:H1.
  - apply hasKey_true in H1. destruct H1 as [c1 H1].
    eexists _, _. split; [done|]. split; [done|].
    rewrite H1. repeat split; try done; by intros [? ?].
  - apply hasKey_false in H1. rewrite H1.
    destruct (hasKey classes qualified) eqn:H2.
    + apply hasKey_true in H2. destruct H2 as [c2 H2].
      eexists _, _. split; [done|]. split; [done|].
      rewrite H2. repeat split; try done; by intros [? ?].
    + apply hasKey_false in H2. rewrite H2.
      eexists _, _. split; [done|]. split; [done|].
      repeat split; try done; by intros [? ?].
Qed.

End storage_class.

(** ** Invariants of the steps of [Ensure] *)

Section frames.
Context `{!Collaborators}.

Lemma preserves_run {A} I (c : M A) m r m' :
  preserves I c → c m = (r, m') → I m → I m'.
Proof. intros Hc E Hm. specialize (Hc m Hm). by rewrite E in Hc. Qed.

Lemma preserves_ret {A} I (x : A) : preserves I (ret x).
Proof. by intros m. Qed.

Lemma preserves_fail {A} I e : preserves I (@fail A e).
Proof. by intros m. Qed.

Lemma preserves_lift {A} I (r : result A) : preserves I (lift r).
Proof. by intros m. Qed.

Lemma preserves_gets {A} I (f : Machine → A) : preserves I (gets f).
Proof. by intros m. Qed.

Lemma preserves_modify I f :
  (∀ m, I m → I (f m)) → preserves I (modify f).
Proof. intros Hf m. apply Hf. Qed.

Lemma preserves_bind {A B} I (c : M A) (k : A → M B) :
  preserves I c → (∀ x, preserves I (k x)) → preserves I (bind c k).
Proof.
  intros Hc Hk m Hm. rewrite bind_run.
  specialize (Hc m Hm). destruct (c m) as [[x|e] m']; [|done].
  by apply Hk.
Qed.

Lemma preserves_bind_lift {A B} I (r : result A) (k : A → M B) :
  (∀ x, r = Ok x → preserves I (k x)) → preserves I (bind (lift r) k).
Proof.
  intros Hk m Hm. rewrite bind_run. unfold lift.
  destruct r as [x|e]; [|done]. by apply Hk.
Qed.

Lemma preserves_attempt {A} I (c : M A) :
  preserves I c → preserves I (attempt c).
Proof.
  intros Hc m Hm. unfold attempt. specialize (Hc m Hm).
  by destruct (c m).
Qed.

Lemma preserves_annotated {A} I ctx (c : M A) :
  preserves I c → preserves I (annotated ctx c).
Proof.
  intros Hc m Hm. rewrite annotated_run. specialize (Hc m Hm).
  by destruct (c m) as [[?|?] ?].
Qed.

Lemma preserves_request I v k n :
  (∀ m, I m → I (logged v k n m)) → preserves I (request v k n).
Proof.
  intros Hl m Hm. rewrite request_run.
  destruct (faults _ _ _ _); by apply Hl.
Qed.

Lemma preserves_getFrom {A} I k (store : Cluster → gmap string A) n :
  (∀ m, I m → I (logged VGet k n m)) → preserves I (getFrom k store n).
Proof.
  intros Hl m Hm. rewrite getFrom_run.
  destruct (faults _ _ _ _); [by apply Hl|].
  destruct (store _ !! n); by apply Hl.
Qed.

Lemma preserves_applyResource I r :
  (∀ v k n m, I m → I (logged v k n m)) →
  (∀ m, I m → I (withCluster (store r) m)) →
  preserves I (applyResource r).
Proof.
  intros Hl Hs m Hm. rewrite applyResource_run.
  destruct (faults _ _ _ _); [by apply Hl|]. by apply Hs, Hl.
Qed.

Lemma preserves_handleVolume I v mp ro :
  (∀ f m, I m → I (withPodSpec f m)) →
  preserves I (handleVolume v mp ro).
Proof.
  intros Hp. unfold handleVolume.
  apply preserves_bind; [apply preserves_gets|intros spec].
  apply preserves_bind; [apply preserves_lift|intros vols].
  apply preserves_bind; [apply preserves_modify, Hp|intros _].
  apply preserves_ret.
Qed.

Lemma preserves_handleVolumeMount I config sn vm :
  (∀ f m, I m → I (withPodSpec f m)) →
  preserves I (handleVolumeMount config sn vm).
Proof. intros Hp. apply preserves_modify, Hp. Qed.

Lemma preserves_handlePVCForStatefulSet I p mp ro :
  (∀ m ts, PushUniqueVolumeClaimTemplate (claimTemplates m) p = Ok ts →
           I m → I (withClaimTemplates (fun _ => ts) m)) →
  preserves I (handlePVCForStatefulSet p mp ro).
Proof.
  intros Hv m Hm. unfold handlePVCForStatefulSet.
  rewrite bind_run. cbn [gets]. rewrite bind_run. unfold lift at 1.
  destruct (PushUniqueVolumeClaimTemplate _ _) as [ts|e] eqn:Hpush;
    [|done].
  rewrite bind_run. cbn [modify ret snd]. by apply Hv.
Qed.

Lemma preserves_applierApply I r :
  (∀ m, I m → I (withStaged (fun ops => ops ++ [OpApply r]) m)) →
  preserves I (applierApply r).
Proof. intros Hs. apply preserves_modify, Hs. Qed.

Lemma preserves_handlePVCForStatelessResource I a p mp ro :
  (∀ f m, I m → I (withPodSpec f m)) →
  (∀ m, I m →
     I (withStaged
          (fun ops =>
             ops ++ [OpApply (RPersistentVolumeClaim
                       (NewPersistentVolumeClaim (pvcName p)
                          (namespace a) p))]) m)) →
  preserves I (handlePVCForStatelessResource a p mp ro).
Proof.
  intros Hl Hs. unfold handlePVCForStatelessResource.
  apply preserves_bind; [by apply preserves_applierApply|intros _].
  by apply preserves_handleVolume.
Qed.

(** The loop of [configureStorage] keeps an invariant that its handlers
    keep; the claim handler needs to keep it for the claims that
    [filesystemToVolumeInfo] makes of the filesystems only, and the class
    handler for the classes it makes. *)
Lemma preserves_configureStorageFrom I a id hV hVM hP hSC all :
  (∀ h v mp ro, hV = Some h → preserves I (h v mp ro)) →
  (∀ sn vm, preserves I (hVM sn vm)) →
  (∀ h fs classes v p sc mp ro,
     hP = Some h → fs ∈ all →
     filesystemToVolumeInfo a (volumeName a (StorageName fs)) fs classes
       (fun volName => volName +:+ "-" +:+ id) = Ok (v, Some p, sc) →
     preserves I (h p mp ro)) →
  (∀ h fs classes v p sc,
     hSC = Some h → fs ∈ all →
     filesystemToVolumeInfo a (volumeName a (StorageName fs)) fs classes
       (fun volName => volName +:+ "-" +:+ id) = Ok (v, p, Some sc) →
     preserves I (h sc)) →
  ∀ fss index names classes,
    fss ⊆ all →
    preserves I
      (configureStorageFrom a id hV hVM hP hSC index fss names classes).
Proof.
  intros HV HVM HP HSC fss.
  induction fss as [|fs rest IH]; intros index names classes Hsub;
    cbn [configureStorageFrom]; [apply preserves_ret|].
  assert (fs ∈ all) as Hfs by (apply Hsub, elem_of_cons; by left).
  assert (rest ⊆ all) as Hrest
    by (intros x Hx; apply Hsub, elem_of_cons; by right).
  destruct (decide (StorageName fs ∈ names)); [apply preserves_fail|].
  apply preserves_bind_lift. intros [[vol pvc] sc] Einfo.
  apply preserves_bind.
  { destruct vol as [v|], hV as [h|];
      try apply preserves_ret. by eapply HV. }
  intros vm1. apply preserves_bind.
  { destruct sc as [c|], hSC as [h|]; try apply preserves_ret.
    apply preserves_bind; [|intros; apply preserves_ret].
    by eapply HSC. }
  intros classes'. apply preserves_bind.
  { destruct pvc as [p|], hP as [h|]; try apply preserves_ret.
    by eapply HP. }
  intros vm2. apply preserves_bind.
  { destruct vm2; [apply HVM|apply preserves_ret]. }
  intros _. by apply IH.
Qed.

End frames.

(** ** The course of [Ensure] *)

Section course.
Context `{!Collaborators}.

Lemma getStorageUniqPrefix_run (r : result (gmap string string)) m :
  getStorageUniqPrefix (lift r) m =
    match r with
    | Ok annots =>
        let uniqID :=
          default "" (annots !! AnnotationKeyApplicationUUID false) in
        if (0 <? String.length uniqID)%nat then (Ok uniqID, m)
        else callRandomPrefix m
    | Err e => if IsNotFound e then callRandomPrefix m else (Err e, m)
    end.
Proof.
  unfold getStorageUniqPrefix, attempt, lift. rewrite bind_run.
  destruct r as [annots|e].
  - cbn zeta. by destruct (0 <? _)%nat.
  - by destruct (IsNotFound e).
Qed.

Lemma primaryGet_Stateful c n :
  annotationsOf ssMeta (liveGet c KStatefulSet statefulsets n)
  = annotationsOf id (primaryGet c Stateful n).
Proof.
  unfold liveGet, primaryGet. cbn [primaryKind primaryMeta].
  destruct (faults _ _ _ _); [done|]. by destruct (_ !! n).
Qed.

Lemma primaryGet_Stateless c n :
  annotationsOf dMeta (liveGet c KDeployment deployments n)
  = annotationsOf id (primaryGet c Stateless n).
Proof.
  unfold liveGet, primaryGet. cbn [primaryKind primaryMeta].
  destruct (faults _ _ _ _); [done|]. by destruct (_ !! n).
Qed.

Lemma getFrom_liveGet {A} k (store : Cluster → gmap string A) n m :
  getFrom k store n m = (liveGet (cluster m) k store n, logged VGet k n m).
Proof.
  rewrite getFrom_run. unfold liveGet.
  destruct (faults _ _ _ _); [done|]. by destruct (store _ !! n).
Qed.

(** Every branch of [Ensure] runs the same course: the headless Service
    for a stateful set, the get of the workload object, the storage
    prefix, the storage of the filesystems, and the staging of the
    workload object. *)
Lemma ensureBranch_run t a config scs m :
  ensureBranch t a config scs m =
    match
      match t return M unit with
      | Stateful =>
          annotated ("creating or updating headless service for "
                     +:+ Quote (deploymentType a) +:+ " "
                     +:+ Quote (name a))
            (configureHeadlessService a (name a) (annotations a config))
      | _ => ret tt
      end m
    with
    | (Err e, m1) => (Err e, m1)
    | (Ok _, m1) =>
        let got := primaryGet (cluster m1) t (name a) in
        match getStorageUniqPrefix (lift (annotationsOf id got))
                (logged VGet (primaryKind t) (name a) m1) with
        | (Err e, m3) => (Err e, m3)
        | (Ok storageUniqueID, m3) =>
            match
              configureStorage a storageUniqueID (Filesystems config) scs
                (Some handleVolume) (handleVolumeMount config)
                (Some (claimHandler t a)) (Some handleStorageClass)
                match t with
                | Stateful => withClaimTemplates (fun _ => []) m3
                | _ => m3
                end
            with
            | (Err e, m4) => (Err e, m4)
            | (Ok _, m4) =>
                (Ok tt,
                 withStaged
                   (fun ops =>
                      ops ++ [OpApply
                                (workloadResource t a config
                                   storageUniqueID
                                   (initialReplicas t got)
                                   (podSpec m3) (podSpec m4)
                                   (claimTemplates m4))]) m4)
            end
        end
    end.
Proof.
  assert (∀ m0, getStorageUniqPrefix
              (bind (getDaemonSetObject (name a))
                 (fun d => ret (Annotations (dsMeta d)))) m0
            = getStorageUniqPrefix
                (lift (annotationsOf id
                         (primaryGet (cluster m0) Daemon (name a))))
                (logged VGet KDaemonSet (name a) m0)) as Hdaemon.
  { intros m0.
    unfold getStorageUniqPrefix, attempt, getDaemonSetObject.
    rewrite !bind_run, getFrom_liveGet.
    unfold liveGet, primaryGet, lift. cbn [primaryKind primaryMeta].
    destruct (faults _ _ _ _); [done|].
    by destruct (daemonsets (cluster m0) !! name a). }
  destruct t; cbn [ensureBranch primaryKind claimHandler workloadResource];
    unfold ensureStateful, ensureStateless, ensureDaemon.
  - rewrite bind_run.
    destruct (annotated _ _ m) as [[[]|e] m1]; [|done].
    rewrite bind_run. unfold attempt, getStatefulSetObject.
    rewrite getFrom_liveGet, primaryGet_Stateful.
    unfold primaryGet, liveGet. cbn [primaryKind primaryMeta].
    destruct (faults (cluster m1) VGet KStatefulSet (name a)) as [msg|];
      [by rewrite getStorageUniqPrefix_run|].
    destruct (statefulsets (cluster m1) !! name a) as [ss|];
      unfold bind at 1; cbn [foundOrFail IsNotFound Cause ret];
      unfold bind at 1;
      cbn [fmap option_fmap option_map annotationsOf initialReplicas negb];
      (destruct (getStorageUniqPrefix _ _) as [[uid|e] m3]; [|done]);
      unfold bind at 1; cbn [gets]; unfold bind at 1; cbn [modify];
      unfold bind at 1;
      (destruct (configureStorage _ _ _ _ _ _ _ _ _) as [[[]|e] m4];
       [|done]);
      done.
  - cbn [ret]. rewrite bind_run. unfold attempt, getDeploymentObject.
    rewrite getFrom_liveGet, primaryGet_Stateless.
    unfold primaryGet, liveGet. cbn [primaryKind primaryMeta].
    destruct (faults (cluster m) VGet KDeployment (name a)) as [msg|];
      [by rewrite getStorageUniqPrefix_run|].
    destruct (deployments (cluster m) !! name a) as [d|];
      unfold bind at 1; cbn [foundOrFail IsNotFound Cause ret];
      unfold bind at 1;
      cbn [fmap option_fmap option_map annotationsOf initialReplicas negb];
      (destruct (getStorageUniqPrefix _ _) as [[uid|e] m3]; [|done]);
      unfold bind at 1;
      (destruct (configureStorage _ _ _ _ _ _ _ _ _) as [[[]|e] m4];
       [|done]);
      done.
  - cbn [ret]. rewrite bind_run, Hdaemon.
    destruct (getStorageUniqPrefix _ _) as [[uid|e] m3]; [|done].
    rewrite bind_run.
    destruct (configureStorage _ _ _ _ _ _ _ _ _) as [[[]|e] m4];
      [|done].
    done.
Qed.

End course.

Section batch.
Context `{!Collaborators}.

Lemma faults_store r c : faults (store r c) = faults c.
Proof. done. Qed.

Lemma faults_effect op c : faults (effect op c) = faults c.
Proof. by destruct op. Qed.

Lemma faults_effects ops c : faults (effects ops c) = faults c.
Proof.
  revert c. induction ops as [|op ops IH]; intros c; [done|].
  cbn [effects foldl]. fold (effects ops (effect op c)).
  by rewrite IH, faults_effect.
Qed.

Lemma process_run op m :
  process op m =
    match refused (cluster m) op with
    | Some msg =>
        (Err (Foreign msg),
         logged (opRequest op).1.1 (opRequest op).1.2 (opRequest op).2 m)
    | None => (Ok tt, ran [op] m)
    end.
Proof.
  destruct op as [r|k n]; unfold refused; cbn [process opRequest fst snd].
  - rewrite applyResource_run. by destruct (faults _ _ _ _).
  - unfold deleteResource. rewrite bind_run, request_run.
    by destruct (faults _ _ _ _).
Qed.

Lemma ran_app ops1 ops2 m : ran (ops1 ++ ops2) m = ran ops2 (ran ops1 m).
Proof.
  unfold ran, effects. cbn [cluster requests prefixCalls staged podSpec
                            claimTemplates].
  by rewrite foldl_app, map_app, app_assoc.
Qed.

Lemma ran_nil m : ran [] m = m.
Proof.
  unfold ran, effects. cbn [foldl map]. rewrite app_nil_r. by destruct m.
Qed.

(** A batch with no refused op runs to its end. *)
Lemma runOps_run ops m :
  Forall (fun op => refused (cluster m) op = None) ops →
  runOps ops m = (Ok tt, ran ops m).
Proof.
  revert m. induction ops as [|op ops IH]; intros m Hok.
  - cbn [runOps ret]. by rewrite ran_nil.
  - apply Forall_cons in Hok as [Hop Hok].
    cbn [runOps]. rewrite bind_run, process_run, Hop.
    change (op :: ops) with ([op] ++ ops). rewrite ran_app.
    apply IH. eapply Forall_impl; [exact Hok|].
    intros op' Hop'. unfold refused in *.
    destruct (opRequest op') as [[v k] n].
    unfold ran. cbn [cluster]. by rewrite faults_effects.
Qed.

(** A batch that ran to its end had no refused op. *)
Lemma runOps_ok ops m m' :
  runOps ops m = (Ok tt, m') →
  Forall (fun op => refused (cluster m) op = None) ops ∧ m' = ran ops m.
Proof.
  revert m. induction ops as [|op ops IH]; intros m Hrun.
  - cbn [runOps ret] in Hrun. injection Hrun as <-.
    split; [constructor|]. by rewrite ran_nil.
  - cbn [runOps] in Hrun. rewrite bind_run, process_run in Hrun.
    destruct (refused (cluster m) op) as [msg|] eqn:Hop; [done|].
    apply IH in Hrun as [Hok ->]. split.
    + constructor; [done|]. eapply Forall_impl; [exact Hok|].
      intros op' Hop'. unfold refused in *.
      destruct (opRequest op') as [[v k] n].
      unfold ran in Hop'. cbn [cluster] in Hop'.
      by rewrite faults_effects in Hop'.
    + change (op :: ops) with ([op] ++ ops). by rewrite ran_app.
Qed.

(** Whatever the batch does, it leaves the applier, the generator and the
    objects under construction alone, and writes what its ops say. *)
Lemma preserves_runOps I ops :
  (∀ v k n m, I m → I (logged v k n m)) →
  (∀ op m, op ∈ ops → I m → I (withCluster (effect op) m)) →
  preserves I (runOps ops).
Proof.
  intros Hl He. induction ops as [|op ops IH]; [apply preserves_ret|].
  cbn [runOps]. apply preserves_bind.
  - intros m Hm. rewrite process_run.
    destruct (refused _ _); [by apply Hl|].
    cbn [snd]. unfold ran, effects. cbn [foldl map].
    specialize (He op (logged (opRequest op).1.1 (opRequest op).1.2
                         (opRequest op).2 m)).
    unfold withCluster, logged in He.
    cbn [cluster requests prefixCalls staged podSpec claimTemplates] in He.
    destruct (opRequest op) as [[v k] n]. apply He.
    + apply elem_of_cons; by left.
    + by apply Hl.
  - intros _. apply IH. intros op' m Hin. apply He.
    apply elem_of_cons; by right.
Qed.

Lemma Ensure_run a config m :
  Ensure a config m =
    match configureDefaultService a (annotations a config)
            (withStaged
               (fun _ => [OpApply (RSecret (applicationSecret a config))])
               m) with
    | (Err e, m1) =>
        (Err (Annotate ("ensuring the default service " +:+ Quote (name a))
                e), m1)
    | (Ok _, m1) =>
        match applicationPodSpec a config with
        | Err e => (Err (Annotate "generating application podspec" e), m1)
        | Ok spec =>
            let m2 := logged VList KStorageClass ""
                        (withPodSpec (fun _ => spec) m1) in
            match faults (cluster m1) VList KStorageClass "" with
            | Some msg => (Err (Foreign msg), m2)
            | None =>
                match
                  match switchDeploymentType (deploymentType a)
                  return M unit with
                  | Some t =>
                      ensureBranch t a config
                        ((map_to_list (storageclasses (cluster m1))).*2)
                  | None => fail (NotSupported "unknown deployment type")
                  end m2
                with
                | (Err e, m4) => (Err e, m4)
                | (Ok _, m4) => runOps (staged m4) m4
                end
            end
        end
    end.
Proof.
  unfold Ensure. rewrite bind_run. cbn [newApplier modify].
  rewrite bind_run. cbn [applierApply modify].
  rewrite bind_run, annotated_run.
  change (withStaged _ (withStaged _ m))
    with (withStaged
            (fun _ => [OpApply (RSecret (applicationSecret a config))]) m).
  destruct (configureDefaultService _ _ _) as [[[]|e] m1]; [|done].
  rewrite bind_run, annotated_run. unfold lift at 1.
  destruct (applicationPodSpec a config) as [spec|e]; [|done].
  rewrite bind_run. cbn [modify]. rewrite bind_run.
  unfold ListStorageClass. rewrite bind_run, request_run.
  cbn [withPodSpec cluster].
  destruct (faults (cluster m1) VList KStorageClass "") as [msg|]; [done|].
  rewrite bind_run. cbn [gets ret logged cluster withPodSpec].
  rewrite bind_run.
  destruct (switchDeploymentType (deploymentType a)) as [t|].
  - destruct t; cbn [ensureBranch];
      match goal with
      | |- context [match ?c ?m0 with _ => _ end] =>
          destruct (c m0) as [[[]|e] m4]
      end; try done.
  - done.
Qed.

End batch.

Section phases.
Context `{!Collaborators}.

Lemma sameButServices_refl c : sameButServices c c.
Proof. by repeat split. Qed.

Lemma sameButServices_trans c1 c2 c3 :
  sameButServices c1 c2 → sameButServices c2 c3 → sameButServices c1 c3.
Proof.
  unfold sameButServices. intros H12 H23.
  destruct H12 as (?&?&?&?&?&?&?&?), H23 as (?&?&?&?&?&?&?&?).
  repeat split; congruence.
Qed.

Lemma sameButServices_store c s c' :
  sameButServices c c' → sameButServices c (store (RService s) c').
Proof. intros H1. by eapply sameButServices_trans. Qed.

Lemma primaryGet_sameButServices c c' t n :
  sameButServices c c' → primaryGet c' t n = primaryGet c t n.
Proof.
  intros (Hs & Hss & Hd & Hds & _ & _ & _ & Hf).
  unfold primaryGet, primaryMeta. rewrite Hf.
  destruct t; by rewrite ?Hss, ?Hd, ?Hds.
Qed.

Lemma preserves_configureDefaultService I a ann :
  servicesOnly I → preserves I (configureDefaultService a ann).
Proof.
  intros [Hl Hs] m Hm. rewrite configureDefaultService_run. cbn zeta.
  destruct (faults _ _ _ _); [by apply Hl|].
  destruct (services _ !! _); [by apply Hl|].
  apply preserves_applyResource; auto.
Qed.

Lemma preserves_configureHeadlessService I a n ann :
  servicesOnly I → preserves I (configureHeadlessService a n ann).
Proof. intros [Hl Hs]. apply preserves_applyResource; auto. Qed.

Lemma servicesOnly_entered a config m :
  servicesOnly (entered a config m).
Proof.
  split.
  - intros v k n m' (?&?&?). split; [done|]. by split.
  - intros s m' (?&?&Hs). split; [done|]. split; [done|].
    by apply sameButServices_store.
Qed.

Lemma callRandomPrefix_run m :
  callRandomPrefix m = (randomPrefix (prefixCalls m), generated m).
Proof. done. Qed.

(** The storage prefix is the one of the live object when it carries one,
    and comes from the generator otherwise, unless the get was refused. *)
Lemma prefix_step c t n m :
  getStorageUniqPrefix (lift (annotationsOf id (primaryGet c t n))) m =
    match faults c VGet (primaryKind t) n with
    | Some msg => (Err (Foreign msg), m)
    | None =>
        match livePrefix c t n with
        | Some v => (Ok v, m)
        | None => (randomPrefix (prefixCalls m), generated m)
        end
    end.
Proof.
  rewrite getStorageUniqPrefix_run. unfold primaryGet, livePrefix.
  destruct (faults _ _ _ _); [done|].
  destruct (primaryMeta c t n) as [o|]; [|reflexivity].
  cbn [annotationsOf id]. cbn zeta.
  destruct (Annotations o !! _) as [v|]; cbn [default from_option id];
    [|reflexivity].
  by destruct (0 <? String.length v)%nat.
Qed.

Lemma initialReplicas_found c t n :
  faults c VGet (primaryKind t) n = None →
  initialReplicas t (primaryGet c t n) =
    match t with
    | Daemon => None
    | _ => match primaryMeta c t n with
           | Some _ => None
           | None => int32Ptr 1
           end
    end.
Proof.
  intros Hf. unfold primaryGet. rewrite Hf.
  destruct t; cbn [initialReplicas]; [| |done];
    by match goal with |- context [primaryMeta c ?t n] =>
         destruct (primaryMeta c t n) end.
Qed.

(** The course of a call of [Ensure]: it fails before it gets the workload
    object, or it settles the storage prefix, configures the storage,
    stages the workload object and runs the batch. *)
Lemma Ensure_course a config m :
  (∃ e, (Ensure a config m).1 = Err e
        ∧ entered a config m (Ensure a config m).2
        ∧ (switchDeploymentType (deploymentType a) = None →
           ∀ spec,
             (configureDefaultService a (annotations a config)
                (withStaged
                   (fun _ =>
                      [OpApply (RSecret (applicationSecret a config))])
                   m)).1 = Ok tt →
             applicationPodSpec a config = Ok spec →
             faults (cluster m) VList KStorageClass "" = None →
             e = NotSupported "unknown deployment type"))
  ∨ ∃ t spec m2,
      switchDeploymentType (deploymentType a) = Some t
      ∧ applicationPodSpec a config = Ok spec
      ∧ entered a config m m2 ∧ podSpec m2 = spec
      ∧ Ensure a config m =
          match faults (cluster m) VGet (primaryKind t) (name a) with
          | Some msg => (Err (Foreign msg), m2)
          | None =>
              match
                match livePrefix (cluster m) t (name a) with
                | Some v => (Ok v, m2)
                | None => (randomPrefix (prefixCalls m2), generated m2)
                end
              with
              | (Err e, m3) => (Err e, m3)
              | (Ok storageUniqueID, m3) =>
                  match
                    configureStorage a storageUniqueID (Filesystems config)
                      ((map_to_list (storageclasses (cluster m))).*2)
                      (Some handleVolume) (handleVolumeMount config)
                      (Some (claimHandler t a)) (Some handleStorageClass)
                      match t with
                      | Stateful => withClaimTemplates (fun _ => []) m3
                      | _ => m3
                      end
                  with
                  | (Err e, m4) => (Err e, m4)
                  | (Ok _, m4) =>
                      let w :=
                        workloadResource t a config storageUniqueID
                          (initialReplicas t
                             (primaryGet (cluster m) t (name a)))
                          spec (podSpec m4) (claimTemplates m4) in
                      runOps (staged m4 ++ [OpApply w])
                        (withStaged (fun ops => ops ++ [OpApply w]) m4)
                  end
              end
          end.
Proof.
  rewrite Ensure_run.
  set (m0 := withStaged _ m).
  assert (entered a config m m0) as H0.
  { repeat split; try done. }
  pose proof (preserves_configureDefaultService _ a (annotations a config)
                (servicesOnly_entered a config m) m0 H0) as H1.
  destruct (configureDefaultService _ _ m0) as [[[]|e] m1]; cbn [snd] in H1.
  2:{ left.
      exists (Annotate ("ensuring the default service " +:+ Quote (name a))
                e).
      repeat split; try apply H1. intros _ spec Hok. done. }
  destruct (applicationPodSpec a config) as [spec|e] eqn:Hspec.
  2:{ left. eexists. repeat split; try apply H1. intros _ spec' _ Hs. done. }
  cbn zeta.
  set (m2 := logged VList KStorageClass "" (withPodSpec (fun _ => spec) m1)).
  assert (entered a config m m2) as H2.
  { destruct H1 as (?&?&?). split; [done|]. by split. }
  assert (faults (cluster m1) = faults (cluster m)) as Hfaults.
  { destruct H1 as (_&_&(?&?&?&?&?&?&?&?)). done. }
  assert (storageclasses (cluster m1) = storageclasses (cluster m)) as Hscs.
  { destruct H1 as (_&_&(?&?&?&?&?&?&?&?)). done. }
  rewrite Hfaults, Hscs.
  destruct (faults (cluster m) VList KStorageClass "") as [msg|] eqn:Hlist.
  { left. eexists. repeat split; try apply H2. intros _ ? _ _ ?. done. }
  destruct (switchDeploymentType (deploymentType a)) as [t|] eqn:Ht.
  2:{ left. exists (NotSupported "unknown deployment type").
      repeat split; try apply H2. }
  rewrite ensureBranch_run.
  set (headless := match t return M unit with
                   | Stateful => _
                   | _ => ret tt
                   end).
  assert (preserves (entered a config m) headless) as Hh.
  { subst headless. destruct t; try apply preserves_ret.
    apply preserves_annotated, preserves_configureHeadlessService,
      servicesOnly_entered. }
  specialize (Hh m2 H2).
  assert (podSpec (headless m2).2 = spec) as Hpod.
  { pose proof (preserves_configureHeadlessService
                  (fun m' => podSpec m' = spec) a (name a)
                  (annotations a config)) as Hp.
    subst headless. destruct t; try done.
    eapply (preserves_annotated _ _ _ (Hp _)). done.
    Unshelve. by split. }
  destruct (headless m2) as [[[]|e] mh]; cbn [snd] in Hh, Hpod.
  2:{ left. eexists. split; [done|]. split; [apply Hh|]. by intros [=]. }
  cbn zeta.
  right. exists t, spec, (logged VGet (primaryKind t) (name a) mh).
  assert (sameButServices (cluster m) (cluster mh)) as Hsame
    by apply Hh.
  split; [done|]. split; [done|].
  split; [destruct Hh as (?&?&?); split; [done|]; by split|].
  split; [done|].
  rewrite (primaryGet_sameButServices _ _ _ _ Hsame).
  rewrite prefix_step.
  destruct (faults (cluster m) VGet (primaryKind t) (name a)); [done|].
  destruct (livePrefix (cluster m) t (name a)) as [v|].
  - cbn [podSpec logged] in *. rewrite Hpod.
    destruct (configureStorage _ _ _ _ _ _ _ _ _) as [[[]|e] m4]; done.
  - cbn [prefixCalls logged].
    destruct (randomPrefix _) as [uid|e]; [|done].
    cbn [podSpec generated logged]. rewrite Hpod.
    destruct (configureStorage _ _ _ _ _ _ _ _ _) as [[[]|e] m4]; done.
Qed.

End phases.

Section outcome.
Context `{!Collaborators}.

Lemma storageStaged_refl m : storageStaged m m.
Proof.
  repeat split. exists []. by rewrite app_nil_r.
Qed.

Lemma storageStaged_local m f m' :
  storageStaged m m' → storageStaged m (withPodSpec f m').
Proof. by intros (?&?&?&?). Qed.

Lemma storageStaged_stage m r m' :
  isStorageKind (resourceKind r) = true →
  storageStaged m m' →
  storageStaged m (withStaged (fun ops => ops ++ [OpApply r]) m').
Proof.
  intros Hr (Hc & Hq & Hp & ops & Hs & Hops).
  split; [done|]. split; [done|]. split; [done|].
  exists (ops ++ [OpApply r]). cbn [staged withStaged].
  rewrite Hs, app_assoc. split; [done|].
  rewrite forallb_app, Hops. unfold isStorageOp. cbn. by rewrite Hr.
Qed.

(** The storage of the filesystems stages storage objects and sends no
    request. *)
Lemma configureStorageFrom_storageStaged a config t uid fss index names
    classes m :
  storageStaged m
    (configureStorageFrom a uid (Some handleVolume)
       (handleVolumeMount config) (Some (claimHandler t a))
       (Some handleStorageClass) index fss names classes m).2.
Proof.
  apply (preserves_configureStorageFrom (storageStaged m) a uid
           (Some handleVolume) (handleVolumeMount config)
           (Some (claimHandler t a)) (Some handleStorageClass) fss);
    try done.
  - intros h v mp ro [= <-].
    apply preserves_handleVolume, storageStaged_local.
  - intros sn vm.
    apply preserves_handleVolumeMount, storageStaged_local.
  - intros h fs cs v p sc mp ro [= <-] _ _.
    destruct t; cbn [claimHandler].
    + apply preserves_handlePVCForStatefulSet.
      by intros m' ts _ (?&?&?&?).
    + apply preserves_handlePVCForStatelessResource;
        [apply storageStaged_local|].
      intros m'. by apply storageStaged_stage.
    + apply preserves_handlePVCForStatelessResource;
        [apply storageStaged_local|].
      intros m'. by apply storageStaged_stage.
  - intros h fs cs v p sc [= <-] _ _.
    apply preserves_applierApply. intros m'. by apply storageStaged_stage.
  - apply storageStaged_refl.
Qed.

Lemma configureStorage_storageStaged a config t uid scs m :
  storageStaged m
    (configureStorage a uid (Filesystems config) scs (Some handleVolume)
       (handleVolumeMount config) (Some (claimHandler t a))
       (Some handleStorageClass) m).2.
Proof. apply configureStorageFrom_storageStaged. Qed.

(** A call of [Ensure] fails with the Secret staged and nothing else, or
    reaches the storage of the filesystems with the prefix settled. *)
Lemma Ensure_outcome a config m :
  (∃ e, (Ensure a config m).1 = Err e
        ∧ staged (Ensure a config m).2
          = [OpApply (RSecret (applicationSecret a config))]
        ∧ sameButServices (cluster m) (cluster (Ensure a config m).2)
        ∧ (prefixCalls (Ensure a config m).2 = prefixCalls m
           ∨ ∃ t, switchDeploymentType (deploymentType a) = Some t
                  ∧ faults (cluster m) VGet (primaryKind t) (name a) = None
                  ∧ livePrefix (cluster m) t (name a) = None
                  ∧ prefixCalls (Ensure a config m).2
                    = S (prefixCalls m)))
  ∨ ∃ t spec uid m3,
      switchDeploymentType (deploymentType a) = Some t
      ∧ applicationPodSpec a config = Ok spec
      ∧ faults (cluster m) VGet (primaryKind t) (name a) = None
      ∧ prefixSettled a t m uid m3
      ∧ staged m3 = [OpApply (RSecret (applicationSecret a config))]
      ∧ sameButServices (cluster m) (cluster m3)
      ∧ podSpec m3 = spec
      ∧ (t = Stateful → claimTemplates m3 = [])
      ∧ Ensure a config m =
          match
            configureStorage a uid (Filesystems config)
              ((map_to_list (storageclasses (cluster m))).*2)
              (Some handleVolume) (handleVolumeMount config)
              (Some (claimHandler t a)) (Some handleStorageClass) m3
          with
          | (Err e, m4) => (Err e, m4)
          | (Ok _, m4) =>
              let w :=
                workloadResource t a config uid
                  (initialReplicas t (primaryGet (cluster m) t (name a)))
                  spec (podSpec m4) (claimTemplates m4) in
              runOps (staged m4 ++ [OpApply w])
                (withStaged (fun ops => ops ++ [OpApply w]) m4)
          end.
Proof.
  destruct (Ensure_course a config m)
    as [(e & He & (Hs & Hp & Hc) & _)
       |(t & spec & m2 & Ht & Hspec & (Hs & Hp & Hc) & Hpod & Hrun)].
  { left. exists e. split; [done|]. split; [done|]. split; [done|].
    by left. }
  destruct (faults (cluster m) VGet (primaryKind t) (name a))
    as [msg|] eqn:Hf.
  { left. rewrite Hrun. eexists. split; [done|]. split; [done|].
    split; [done|]. by left. }
  destruct (livePrefix (cluster m) t (name a)) as [v|] eqn:Hlive.
  - right.
    exists t, spec, v,
      match t with
      | Stateful => withClaimTemplates (fun _ => []) m2
      | _ => m2
      end.
    split; [done|]. split; [done|]. split; [done|].
    split; [left; split; [done|]; by destruct t|].
    split; [by destruct t|]. split; [by destruct t|].
    split; [by destruct t|]. split; [by destruct t|]. done.
  - destruct (randomPrefix (prefixCalls m2)) as [uid|e] eqn:Hgen.
    + right.
      exists t, spec, uid,
        match t with
        | Stateful => withClaimTemplates (fun _ => []) (generated m2)
        | _ => generated m2
        end.
      split; [done|]. split; [done|]. split; [done|].
      split.
      { right. split; [done|]. rewrite <- Hp. split; [done|].
        by destruct t. }
      split; [by destruct t|]. split; [by destruct t|].
      split; [by destruct t|]. split; [by destruct t|]. done.
    + left. rewrite Hrun. exists e.
      split; [done|]. split; [done|]. split; [done|].
      right. exists t. cbn [snd generated prefixCalls].
      by rewrite Hp.
Qed.

End outcome.

Section replicas.
Context `{!Collaborators}.

Lemma runOps_staged ops m : staged (runOps ops m).2 = staged m.
Proof.
  apply (preserves_runOps (fun m' => staged m' = staged m)); done.
Qed.


Lemma effects_app ops1 ops2 c :
  effects (ops1 ++ ops2) c = effects ops2 (effects ops1 c).
Proof. unfold effects. by rewrite foldl_app. Qed.

Lemma isStorageOp_not_workload op :
  isStorageOp op = true → isWorkloadKind (opKind op) = false.
Proof.
  unfold isStorageOp. destruct op as [r|k n]; [|done].
  by destruct r.
Qed.

(** Ops that apply no workload object leave the workload objects alone. *)
Lemma effects_keep_workloads ops c :
  forallb (fun op => isApply op && negb (isWorkloadKind (opKind op))) ops
  = true →
  statefulsets (effects ops c) = statefulsets c
  ∧ deployments (effects ops c) = deployments c
  ∧ daemonsets (effects ops c) = daemonsets c.
Proof.
  revert c. induction ops as [|op ops IH]; intros c Hops; [done|].
  cbn [forallb] in Hops. apply andb_prop in Hops as [Hop Hops].
  cbn [effects foldl]. fold (effects ops (effect op c)).
  destruct (IH (effect op c) Hops) as (-> & -> & ->).
  destruct op as [r|k n]; [|done]. by destruct r.
Qed.

Lemma workloadResource_kind t a config uid n copied final ts :
  resourceKind (workloadResource t a config uid n copied final ts)
  = primaryKind t.
Proof. by destruct t. Qed.

Lemma workloadResource_name t a config uid n copied final ts :
  resourceName (workloadResource t a config uid n copied final ts)
  = name a.
Proof. by destruct t. Qed.

Lemma workloadResource_replicas t a config uid n copied final ts :
  t ≠ Daemon →
  opReplicas (OpApply (workloadResource t a config uid n copied final ts))
  = Some n.
Proof. by destruct t. Qed.

Lemma primaryReplicas_store t a config uid n copied final ts c :
  t ≠ Daemon →
  primaryReplicas
    (store (workloadResource t a config uid n copied final ts) c) t (name a)
  = Some (mergeReplicas (primaryReplicas c t (name a)) n).
Proof.
  intros Ht. destruct t; [| |done];
    cbn [primaryReplicas workloadResource store statefulsets deployments
         resourceName resourceMeta ssMeta dMeta workloadMeta Name];
    rewrite lookup_insert_eq; cbn [fmap option_fmap option_map];
    by match goal with |- context [?s !! ?k] => destruct (s !! k) end.
Qed.

Lemma storage_ops_apply_no_workload ops :
  forallb isStorageOp ops = true →
  forallb (fun op => isApply op && negb (isWorkloadKind (opKind op))) ops
  = true.
Proof.
  intros Hops. apply forallb_forall. intros op Hin.
  eapply forallb_forall in Hops; [|exact Hin].
  rewrite (isStorageOp_not_workload _ Hops).
  unfold isStorageOp in Hops. by apply andb_prop in Hops as [-> _].
Qed.

(** C9.  For a stateful set and a deployment, the workload object that
    [Ensure] stages carries a replica count of one when the get before
    said not-found, and a nil count when the object was there.  A call
    that succeeds has staged the workload object last, and leaves the
    live replica count of an object that was there as it was. *)
Theorem Ensure_initial_replicas a config m t :
  switchDeploymentType (deploymentType a) = Some t →
  t ≠ Daemon →
  let wanted :=
    match primaryMeta (cluster m) t (name a) with
    | Some _ => None
    | None => Some 1
    end in
  (∀ op, op ∈ staged (Ensure a config m).2 →
     opKind op = primaryKind t → opReplicas op = Some wanted)
  ∧ ((Ensure a config m).1 = Ok tt →
       ∃ w, last (staged (Ensure a config m).2) = Some (OpApply w)
            ∧ resourceKind w = primaryKind t
            ∧ resourceName w = name a)
  ∧ ((Ensure a config m).1 = Ok tt →
       primaryReplicas (cluster (Ensure a config m).2) t (name a)
       = Some match primaryReplicas (cluster m) t (name a) with
              | Some live => live
              | None => Some 1
              end).
Proof.
  intros Ht Hnd wanted.
  destruct (Ensure_outcome a config m)
    as [(e & He & Hs & _)
       |(t' & spec & uid & m3 & Ht' & Hspec & Hf & Hset & Hs3 & Hc3 & _ & _
        & Hrun)].
  { rewrite He, Hs. split; [|done].
    intros op ->%list_elem_of_singleton Hk. cbn in Hk. by destruct t. }
  assert (t' = t) as -> by congruence.
  pose proof (configureStorage_storageStaged a config t uid
                ((map_to_list (storageclasses (cluster m))).*2) m3)
    as (Hc4 & _ & _ & ops & Hs4 & Hops).
  rewrite Hrun.
  destruct (configureStorage _ _ _ _ _ _ _ _ m3) as [[[]|e] m4];
    cbn [snd] in Hc4, Hs4.
  2:{ cbn [fst snd]. split; [|done].
      intros op Hin. rewrite Hs4, Hs3 in Hin.
      apply elem_of_cons in Hin as [->|Hin];
        [intros Hk; cbn in Hk; by destruct t|].
      apply list_elem_of_In in Hin.
      eapply forallb_forall in Hops; [|exact Hin].
      apply isStorageOp_not_workload in Hops. intros Hk.
      rewrite Hk in Hops. by destruct t. }
  cbn zeta. set (w := workloadResource _ _ _ _ _ _ _ _).
  rewrite runOps_staged. cbn [staged withStaged].
  split; [|split].
  - intros op Hin. rewrite Hs4, Hs3 in Hin.
    apply elem_of_app in Hin as [Hin|Hin%list_elem_of_singleton].
    + apply elem_of_cons in Hin as [->|Hin];
        [intros Hk; cbn in Hk; by destruct t|].
      apply list_elem_of_In in Hin.
      eapply forallb_forall in Hops; [|exact Hin].
      apply isStorageOp_not_workload in Hops. intros Hk.
      rewrite Hk in Hops. by destruct t.
    + subst op. intros _. subst w.
      rewrite workloadResource_replicas by done.
      rewrite initialReplicas_found by done. subst wanted.
      destruct t; try done.
  - intros _. exists w. rewrite last_snoc. subst w.
    by rewrite workloadResource_kind, workloadResource_name.
  - intros Hok.
    destruct (runOps _ _) as [r m6] eqn:Hr. cbn [fst snd] in Hok |- *.
    subst r. apply runOps_ok in Hr as [_ ->].
    unfold ran. cbn [cluster withStaged].
    rewrite effects_app. cbn [effects foldl effect].
    subst w. rewrite primaryReplicas_store by done.
    rewrite initialReplicas_found by done.
    assert (primaryReplicas (effects (staged m4) (cluster m4)) t (name a)
            = primaryReplicas (cluster m) t (name a)) as ->.
    { destruct (effects_keep_workloads (staged m4) (cluster m4))
        as (Hss & Hd & Hds).
      { rewrite Hs4, Hs3. cbn [List.app forallb isApply opKind resourceKind
                                isWorkloadKind negb andb].
        by apply storage_ops_apply_no_workload. }
      destruct Hc3 as (_ & Hss3 & Hd3 & _).
      unfold primaryReplicas.
      destruct t; [| |done]; by rewrite ?Hss, ?Hd, Hc4, ?Hss3, ?Hd3. }
    unfold primaryReplicas, primaryMeta.
    destruct t; [| |done];
      by match goal with |- context [?s !! ?k] => destruct (s !! k) end.
Qed.

End replicas.

Section prefix.
Context `{!Collaborators}.


Lemma livePrefix_Some c t n o v :
  primaryMeta c t n = Some o →
  Annotations o !! AnnotationKeyApplicationUUID false = Some v →
  v ≠ "" →
  livePrefix c t n = Some v.
Proof.
  intros Ho Hv Hne. unfold livePrefix. rewrite Ho, Hv.
  by destruct v.
Qed.


Lemma workloadResource_annotation t a config uid n copied final ts :
  opAnnotations (OpApply (workloadResource t a config uid n copied final ts))
    !! AnnotationKeyApplicationUUID false = Some uid.
Proof.
  destruct t;
    cbn [opAnnotations workloadResource resourceMeta ssMeta dMeta dsMeta
         workloadMeta Annotations];
    unfold Add; apply lookup_insert_eq.
Qed.



End prefix.

Section topology.
Context `{!Collaborators}.



Lemma runChecks_cons c rest st m :
  runChecks (c :: rest) st m =
    match annotated (label c +:+ " resource check") (check c) m with
    | (Err e, m') => (Err e, m')
    | (Ok (found, terminating), m') =>
        if negb found then runChecks rest st m'
        else if terminating || forceTerminating c
             then (Ok {| dsExists := true; dsTerminating := true |}, m')
             else runChecks rest
                    {| dsExists := true;
                       dsTerminating := dsTerminating st |} m'
    end.
Proof.
  cbn [runChecks]. rewrite bind_run.
  destruct (annotated _ _ m) as [[[found terminating]|e] m']; [|done].
  destruct found; cbn [negb]; [|done].
  by destruct (terminating || forceTerminating c).
Qed.



Lemma Delete_run a :
  ∀ m, Delete a m =
    match switchDeploymentType (deploymentType a) with
    | Some t =>
        let ops :=
          OpDelete (primaryKind t) (name a)
          :: match t with
             | Stateful =>
                 [OpDelete KService (headlessServiceName (name a))]
             | _ => []
             end
          ++ [OpDelete KService (name a); OpDelete KSecret (secretName a)]
        in runOps ops (withStaged (fun _ => ops) m)
    | None =>
        (Err (NotSupported "unknown deployment type"),
         withStaged (fun _ => []) m)
    end.
Proof.
  intros m. unfold Delete. rewrite bind_run. cbn [newApplier modify].
  rewrite bind_run.
  destruct (switchDeploymentType (deploymentType a)) as [[]|]; [..|done];
    cbn zeta; cbn [primaryKind List.app]; unfold applierDelete;
    rewrite ?bind_run; cbn [modify]; rewrite ?bind_run; cbn [modify];
    rewrite ?bind_run; cbn [modify]; unfold applierRun;
    rewrite ?bind_run; cbn [gets]; done.
Qed.


End topology.

Section duplicates.
Context `{!Collaborators}.

Lemma bind_fails {A B} (c : M A) (k : A → M B) m :
  (∀ x m', ∃ e, (k x m').1 = Err e) → ∃ e, (bind c k m).1 = Err e.
Proof.
  intros Hk. rewrite bind_run. destruct (c m) as [[x|e] m'].
  - apply Hk.
  - by exists e.
Qed.

(** A list of filesystems with a repeated storage name makes the loop of
    [configureStorage] fail, whatever the handlers do. *)
Lemma configureStorageFrom_duplicate a uid hV hVM hP hSC fss :
  ∀ index names classes m j fs,
    fss !! j = Some fs →
    StorageName fs ∈ names
    ∨ StorageName fs ∈ (StorageName <$> take j fss) →
    ∃ e, (configureStorageFrom a uid hV hVM hP hSC index fss names
            classes m).1 = Err e.
Proof.
  induction fss as [|f0 rest IH]; intros index names classes m j fs Hj Hdup;
    [done|].
  cbn [configureStorageFrom].
  destruct (decide (StorageName f0 ∈ names)) as [Hin|Hnotin];
    [by eexists|].
  destruct j as [|j].
  { injection Hj as ->. cbn [take fmap list_fmap] in Hdup.
    destruct Hdup as [?|Hnil]; [done|]. by apply elem_of_nil in Hnil. }
  cbn [lookup list_lookup] in Hj.
  apply bind_fails. intros [[vol pvc] sc] m1.
  apply bind_fails. intros vm1 m2.
  apply bind_fails. intros classes' m3.
  apply bind_fails. intros vm2 m4.
  apply bind_fails. intros _ m5.
  apply (IH _ _ _ _ j fs Hj).
  change (take (S j) (f0 :: rest)) with (f0 :: take j rest) in Hdup.
  rewrite fmap_cons in Hdup.
  destruct Hdup as [Hdup|Hdup]; [left; set_solver|].
  apply elem_of_cons in Hdup as [->|Hdup]; [left; set_solver|by right].
Qed.

End duplicates.

Section smooth.
Context `{!Collaborators}.

Lemma primaryMeta_store_service c s t n :
  primaryMeta (store (RService s) c) t n = primaryMeta c t n.
Proof. by destruct t. Qed.

Lemma servicesEnsured_sameButServices a config t c :
  sameButServices c (servicesEnsured a config t c).
Proof.
  unfold servicesEnsured. cbn zeta.
  destruct t, (services c !! name a); by repeat split.
Qed.

Lemma prepared_cluster a config t spec m :
  cluster (prepared a config t spec m)
  = servicesEnsured a config t (cluster m).
Proof.
  unfold prepared, servicesEnsured. cbn zeta.
  by destruct t, (services (cluster m) !! name a).
Qed.

Lemma prepared_staged a config t spec m :
  staged (prepared a config t spec m)
  = [OpApply (RSecret (applicationSecret a config))].
Proof.
  unfold prepared. cbn zeta.
  by destruct t, (services (cluster m) !! name a).
Qed.

Lemma prepared_podSpec a config t spec m :
  podSpec (prepared a config t spec m) = spec.
Proof.
  unfold prepared. cbn zeta.
  by destruct t, (services (cluster m) !! name a).
Qed.

Lemma prepared_prefixCalls a config t spec m :
  prefixCalls (prepared a config t spec m) = prefixCalls m.
Proof.
  unfold prepared. cbn zeta.
  by destruct t, (services (cluster m) !! name a).
Qed.


Local Ltac finish :=
  cbn beta iota zeta;
  match goal with
  | |- context [configureStorage ?a ?u ?f ?c ?hv ?hm ?hp ?hs ?m0] =>
      destruct (configureStorage a u f c hv hm hp hs m0) as [[[]|?] ?]
  end; reflexivity.

(** A call of [Ensure] whose requests are served up to the get of the
    workload object goes on from the prepared machine. *)
Lemma Ensure_smooth a config m t spec :
  switchDeploymentType (deploymentType a) = Some t →
  applicationPodSpec a config = Ok spec →
  Forall (served (cluster m)) (preludeRequests a t (cluster m)) →
  Ensure a config m =
    settled a config t spec m
      match livePrefix (cluster m) t (name a) with
      | Some v => (Ok v, prepared a config t spec m)
      | None =>
          (randomPrefix (prefixCalls m),
           generated (prepared a config t spec m))
      end.
Proof.
  intros Ht Hspec Hserved.
  unfold preludeRequests in Hserved.
  apply Forall_app in Hserved as [Hget Hserved].
  apply Forall_app in Hserved as [Happly Hserved].
  apply Forall_app in Hserved as [Hlist Hserved].
  apply Forall_app in Hserved as [Hheadless Hprimary].
  rewrite Forall_singleton in Hget, Hlist, Hprimary.
  unfold served in Hget, Hlist, Hprimary. cbn [fst snd] in *.
  rewrite Ensure_run, configureDefaultService_run. cbn zeta.
  cbn [cluster withStaged]. rewrite Hget.
  unfold settled, prepared. cbn zeta.
  assert (∀ s c, primaryGet (store (RService s) c) t (name a)
                 = primaryGet c t (name a)) as Hpg.
  { intros s c. unfold primaryGet.
    by rewrite primaryMeta_store_service, faults_store. }
  assert (∀ s c, livePrefix (store (RService s) c) t (name a)
                 = livePrefix c t (name a)) as Hlp.
  { intros s c. unfold livePrefix.
    by rewrite primaryMeta_store_service. }
  destruct (services (cluster m) !! name a) as [svc|] eqn:Hsvc.
  - rewrite Hspec. cbn zeta. cbn [cluster logged withStaged].
    rewrite Hlist, Ht, ensureBranch_run.
    destruct t; cbn [primaryKind] in Hprimary.
    + rewrite Forall_singleton in Hheadless. unfold served in Hheadless.
      cbn [fst snd] in Hheadless.
      rewrite annotated_run. unfold configureHeadlessService.
      rewrite applyResource_run.
      cbn [cluster logged withPodSpec withStaged resourceKind resourceName
           resourceMeta headlessService NewService svcMeta named Name].
      rewrite Hheadless. cbn zeta.
      rewrite prefix_step. cbn [primaryKind].
      cbn [cluster withCluster logged withPodSpec withStaged].
      rewrite faults_store, Hprimary, Hlp, Hpg.
      cbn [storageclasses store].
      destruct (livePrefix (cluster m) Stateful (name a)) as [v|].
      * finish.
      * cbn [prefixCalls withCluster logged withPodSpec withStaged].
        destruct (randomPrefix (prefixCalls m)) as [uid|e];
          [finish|reflexivity].
    + cbn [ret]. cbn zeta. rewrite prefix_step. cbn [primaryKind].
      cbn [cluster withCluster logged withPodSpec withStaged].
      rewrite Hprimary.
      destruct (livePrefix (cluster m) Stateless (name a)) as [v|].
      * finish.
      * cbn [prefixCalls withCluster logged withPodSpec withStaged].
        destruct (randomPrefix (prefixCalls m)) as [uid|e];
          [finish|reflexivity].
    + cbn [ret]. cbn zeta. rewrite prefix_step. cbn [primaryKind].
      cbn [cluster withCluster logged withPodSpec withStaged].
      rewrite Hprimary.
      destruct (livePrefix (cluster m) Daemon (name a)) as [v|].
      * finish.
      * cbn [prefixCalls withCluster logged withPodSpec withStaged].
        destruct (randomPrefix (prefixCalls m)) as [uid|e];
          [finish|reflexivity].
  - rewrite Forall_singleton in Happly. unfold served in Happly.
    cbn [fst snd] in Happly.
    rewrite applyResource_run.
    cbn [cluster logged withStaged resourceKind resourceName resourceMeta
         defaultService NewService svcMeta named Name].
    rewrite Happly, Hspec. cbn zeta.
    cbn [cluster logged withStaged withCluster].
    rewrite faults_store, Hlist, Ht, ensureBranch_run.
    destruct t; cbn [primaryKind] in Hprimary.
    + rewrite Forall_singleton in Hheadless. unfold served in Hheadless.
      cbn [fst snd] in Hheadless.
      rewrite annotated_run. unfold configureHeadlessService.
      rewrite applyResource_run.
      cbn [cluster logged withPodSpec withStaged withCluster resourceKind
           resourceName resourceMeta headlessService NewService svcMeta
           named Name].
      rewrite faults_store, Hheadless. cbn zeta.
      rewrite prefix_step. cbn [primaryKind].
      cbn [cluster withCluster logged withPodSpec withStaged].
      rewrite !faults_store, Hprimary, !Hlp, !Hpg.
      cbn [storageclasses store].
      destruct (livePrefix (cluster m) Stateful (name a)) as [v|].
      * finish.
      * cbn [prefixCalls withCluster logged withPodSpec withStaged].
        destruct (randomPrefix (prefixCalls m)) as [uid|e];
          [finish|reflexivity].
    + cbn [ret]. cbn zeta. rewrite prefix_step. cbn [primaryKind].
      cbn [cluster withCluster logged withPodSpec withStaged].
      rewrite !faults_store, Hprimary, !Hlp, !Hpg.
      cbn [storageclasses store].
      destruct (livePrefix (cluster m) Stateless (name a)) as [v|].
      * finish.
      * cbn [prefixCalls withCluster logged withPodSpec withStaged].
        destruct (randomPrefix (prefixCalls m)) as [uid|e];
          [finish|reflexivity].
    + cbn [ret]. cbn zeta. rewrite prefix_step. cbn [primaryKind].
      cbn [cluster withCluster logged withPodSpec withStaged].
      rewrite !faults_store, Hprimary, !Hlp, !Hpg.
      cbn [storageclasses store].
      destruct (livePrefix (cluster m) Daemon (name a)) as [v|].
      * finish.
      * cbn [prefixCalls withCluster logged withPodSpec withStaged].
        destruct (randomPrefix (prefixCalls m)) as [uid|e];
          [finish|reflexivity].
Qed.

(** A call of [Ensure] that succeeds knew the topology, built the pod
    spec and had its requests served. *)
Lemma Ensure_ok_served a config m :
  (Ensure a config m).1 = Ok tt →
  ∃ t spec,
    switchDeploymentType (deploymentType a) = Some t
    ∧ applicationPodSpec a config = Ok spec
    ∧ Forall (served (cluster m)) (preludeRequests a t (cluster m)).
Proof.
  rewrite Ensure_run, configureDefaultService_run. cbn zeta.
  cbn [cluster withStaged].
  destruct (faults (cluster m) VGet KService (name a)) eqn:Hget; [done|].
  assert (∀ t spec m1,
            cluster m1 = cluster m
            ∨ (∃ s, cluster m1 = store (RService s) (cluster m)) →
            (services (cluster m) !! name a = None →
             faults (cluster m) VApply KService (name a) = None) →
            (let m2 := logged VList KStorageClass ""
                         (withPodSpec (fun _ => spec) m1) in
             match faults (cluster m1) VList KStorageClass "" with
             | Some msg => (Err (Foreign msg), m2)
             | None =>
                 match
                   ensureBranch t a config
                     ((map_to_list (storageclasses (cluster m1))).*2) m2
                 with
                 | (Err e, m4) => (Err e, m4)
                 | (Ok _, m4) => runOps (staged m4) m4
                 end
             end).1 = Ok tt →
            Forall (served (cluster m)) (preludeRequests a t (cluster m)))
    as Hrest.
  { intros t spec m1 Hc Happly. cbn zeta.
    assert (faults (cluster m1) = faults (cluster m)) as ->
      by (by destruct Hc as [->|[s ->]]).
    destruct (faults (cluster m) VList KStorageClass "") eqn:Hlist;
      [done|].
    rewrite ensureBranch_run.
    assert (faults (cluster m) VGet (primaryKind t) (name a) = None →
            (t = Stateful →
             faults (cluster m) VApply KService
               (headlessServiceName (name a)) = None) →
            Forall (served (cluster m)) (preludeRequests a t (cluster m)))
      as Hall.
    { intros Hprimary Hheadless. unfold preludeRequests.
      apply Forall_app; split; [by apply Forall_singleton|].
      apply Forall_app; split.
      { destruct (services (cluster m) !! name a); [constructor|].
        apply Forall_singleton. by apply Happly. }
      apply Forall_app; split; [by apply Forall_singleton|].
      apply Forall_app; split; [|by apply Forall_singleton].
      destruct t; try constructor; [|constructor]. by apply Hheadless. }
    destruct t.
    - rewrite annotated_run. unfold configureHeadlessService.
      rewrite applyResource_run.
      cbn [cluster logged withPodSpec resourceKind resourceName
           resourceMeta headlessService NewService svcMeta named Name].
      assert (faults (cluster m1) = faults (cluster m)) as ->
        by (by destruct Hc as [->|[s ->]]).
      destruct (faults (cluster m) VApply KService
                  (headlessServiceName (name a))) eqn:Hh; [done|].
      cbn zeta. rewrite prefix_step.
      cbn [cluster withCluster logged withPodSpec].
      rewrite faults_store.
      assert (faults (cluster m1) = faults (cluster m)) as ->
        by (by destruct Hc as [->|[s ->]]).
      destruct (faults (cluster m) VGet (primaryKind Stateful) (name a))
        eqn:Hp; [done|].
      intros _. by apply Hall.
    - cbn [ret]. cbn zeta. rewrite prefix_step.
      cbn [cluster withCluster logged withPodSpec].
      assert (faults (cluster m1) = faults (cluster m)) as ->
        by (by destruct Hc as [->|[s ->]]).
      destruct (faults (cluster m) VGet (primaryKind Stateless) (name a))
        eqn:Hp; [done|].
      intros _. by apply Hall.
    - cbn [ret]. cbn zeta. rewrite prefix_step.
      cbn [cluster withCluster logged withPodSpec].
      assert (faults (cluster m1) = faults (cluster m)) as ->
        by (by destruct Hc as [->|[s ->]]).
      destruct (faults (cluster m) VGet (primaryKind Daemon) (name a))
        eqn:Hp; [done|].
      intros _. by apply Hall. }
  destruct (services (cluster m) !! name a) as [svc|] eqn:Hsvc.
  - destruct (applicationPodSpec a config) as [spec|e]; [|done].
    destruct (switchDeploymentType (deploymentType a)) as [t|] eqn:Ht.
    2:{ cbn zeta. cbn [cluster logged withStaged withPodSpec withCluster].
        rewrite ?faults_store.
        by destruct (faults (cluster m) VList KStorageClass ""). }
    intros Hok. exists t, spec. split; [done|]. split; [done|].
    match type of Hok with
    | context [withPodSpec _ ?m1] =>
        apply (Hrest t spec m1); [by left|done|exact Hok]
    end.
  - rewrite applyResource_run.
    cbn [cluster logged withStaged resourceKind resourceName resourceMeta
         defaultService NewService svcMeta named Name].
    destruct (faults (cluster m) VApply KService (name a)) eqn:Happly;
      [done|].
    destruct (applicationPodSpec a config) as [spec|e]; [|done].
    destruct (switchDeploymentType (deploymentType a)) as [t|] eqn:Ht.
    2:{ cbn zeta. cbn [cluster logged withStaged withPodSpec withCluster].
        rewrite ?faults_store.
        by destruct (faults (cluster m) VList KStorageClass ""). }
    intros Hok. exists t, spec. split; [done|]. split; [done|].
    match type of Hok with
    | context [withPodSpec _ ?m1] =>
        apply (Hrest t spec m1); [right; by eexists|done|exact Hok]
    end.
Qed.

End smooth.

Section again.
Context `{!Collaborators}.

Lemma dropClasses_app ops1 ops2 :
  dropClasses (ops1 ++ ops2) = dropClasses ops1 ++ dropClasses ops2.
Proof. apply List.filter_app. Qed.

Lemma handleVolume_again v mp ro m1 m2 x m1' :
  again m1 m2 →
  handleVolume v mp ro m1 = (Ok x, m1') →
  ∃ m2', handleVolume v mp ro m2 = (Ok x, m2') ∧ again m1' m2'.
Proof.
  intros (Hp & Ht & Hs). unfold handleVolume.
  rewrite !bind_run. cbn [gets]. rewrite !bind_run. unfold lift.
  rewrite Hp.
  destruct (PushUniqueVolume _ _ _) as [vols|e]; [|done].
  rewrite !bind_run. cbn [modify ret]. intros [= <- <-].
  eexists. split; [done|]. split; [|done].
  cbn [podSpec withPodSpec]. by rewrite Hp.
Qed.

Lemma handleVolumeMount_again config sn vm m1 m2 x m1' :
  again m1 m2 →
  handleVolumeMount config sn vm m1 = (Ok x, m1') →
  ∃ m2', handleVolumeMount config sn vm m2 = (Ok x, m2') ∧ again m1' m2'.
Proof.
  intros (Hp & Ht & Hs). unfold handleVolumeMount. cbn [modify].
  intros [= <- <-]. eexists. split; [done|].
  split; [|done]. cbn [podSpec withPodSpec]. by rewrite Hp.
Qed.

Lemma claimHandler_again t a p mp ro m1 m2 x m1' :
  again m1 m2 →
  claimHandler t a p mp ro m1 = (Ok x, m1') →
  ∃ m2', claimHandler t a p mp ro m2 = (Ok x, m2') ∧ again m1' m2'.
Proof.
  intros Hagain.
  assert (∀ m1 m2 x m1',
            again m1 m2 →
            handlePVCForStatelessResource a p mp ro m1 = (Ok x, m1') →
            ∃ m2', handlePVCForStatelessResource a p mp ro m2 = (Ok x, m2')
                   ∧ again m1' m2') as Hstateless.
  { clear. intros m1 m2 x m1' (Hp & Ht & Hs).
    unfold handlePVCForStatelessResource.
    rewrite !bind_run. cbn [applierApply modify].
    apply handleVolume_again. split; [done|]. split; [done|].
    cbn [staged withStaged]. rewrite dropClasses_app, Hs. done. }
  destruct t; cbn [claimHandler]; [|by apply Hstateless..].
  destruct Hagain as (Hp & Ht & Hs). unfold handlePVCForStatefulSet.
  rewrite !bind_run. cbn [gets]. rewrite !bind_run. unfold lift.
  rewrite Ht.
  destruct (PushUniqueVolumeClaimTemplate _ _) as [ts|e]; [|done].
  rewrite !bind_run. cbn [modify ret]. intros [= <- <-].
  eexists. split; [done|]. done.
Qed.

(** With the classes [M'] of the second call, which hold what the first
    call had and synthesized, [filesystemToVolumeInfo] makes the claim it
    made in the first call and synthesizes no class. *)
Lemma filesystemToVolumeInfo_again a n fs (M M' : gmap string StorageClass)
    getter vol pvc sc :
  classesNamedQualified →
  filesystemToVolumeInfo a n fs M getter = Ok (vol, pvc, sc) →
  (∀ k, hasKey M k = true → hasKey M' k = true) →
  (∀ size params,
     ParseVolumeParams (getter n) size (Attributes fs) = Ok params →
     hasKey M' (cfgStorageClass (vpStorageConfig params)) = true →
     hasKey M (cfgStorageClass (vpStorageConfig params)) = true) →
  (∀ c, sc = Some c → hasKey M' (scName c) = true) →
  filesystemToVolumeInfo a n fs M' getter = Ok (vol, pvc, None).
Proof.
  intros Hnamed Hinfo Hsub Hnew Hsynth. revert Hinfo.
  unfold filesystemToVolumeInfo.
  destruct (ParseQuantity _) as [size|]; [|done].
  destruct (VolumeSourceForFilesystem fs) as [[vs|]|]; try done.
  { by intros [= <- <- <-]. }
  destruct (ParseVolumeParams _ _ _) as [params|] eqn:Hp; [|done].
  specialize (Hnew size params Hp).
  unfold resolveStorageClass.
  destruct (hasKey M _) eqn:H1.
  - rewrite (Hsub _ H1). by intros [= <- <- <-].
  - destruct (hasKey M' (cfgStorageClass _)) eqn:H1';
      [specialize (Hnew eq_refl); congruence|].
    destruct (hasKey M (QualifiedStorageClassName _ _)) eqn:H2.
    + rewrite (Hsub _ H2). by intros [= <- <- <-].
    + intros [= <- <- <-].
      specialize (Hsynth _ eq_refl). rewrite Hnamed in Hsynth.
      rewrite Hsynth. by rewrite Hnamed.
Qed.

(** The storage loop of the second call does what the loop of the first
    call did, but for the storage classes, which it finds. *)
Lemma configureStorageFrom_again a config t uid fss :
  classesNamedQualified →
  ∀ index names (M M' : gmap string StorageClass) m1 m1' m2,
    configureStorageFrom a uid (Some handleVolume)
      (handleVolumeMount config) (Some (claimHandler t a))
      (Some handleStorageClass) index fss names M m1 = (Ok tt, m1') →
    (∀ k, hasKey M k = true → hasKey M' k = true) →
    (∀ sc, OpApply (RStorageClass sc) ∈ staged m1' →
           hasKey M' (scName sc) = true) →
    noNewConfigured fss M M' →
    again m1 m2 →
    ∃ m2',
      configureStorageFrom a uid (Some handleVolume)
        (handleVolumeMount config) (Some (claimHandler t a))
        (Some handleStorageClass) index fss names M' m2 = (Ok tt, m2')
      ∧ again m1' m2'.
Proof.
  intros Hnamed.
  induction fss as [|fs rest IH];
    intros index names M M' m1 m1' m2 Hrun Hsub Hsynth Hnew Hagain.
  { cbn [configureStorageFrom ret] in Hrun |- *.
    injection Hrun as <-. by exists m2. }
  cbn [configureStorageFrom] in Hrun |- *.
  destruct (decide (StorageName fs ∈ names)); [done|].
  rewrite bind_run in Hrun. unfold lift at 1 in Hrun.
  destruct (filesystemToVolumeInfo a _ fs M _)
    as [[[vol pvc] sc]|e] eqn:Hinfo; [|done].
  (* the rest of the first run *)
  rewrite bind_run in Hrun.
  match type of Hrun with
  | context [match ?c m1 with _ => _ end] =>
      destruct (c m1) as [[vm1|e] m1a] eqn:E1; [|done]
  end.
  rewrite bind_run in Hrun.
  match type of Hrun with
  | context [match ?c m1a with _ => _ end] =>
      destruct (c m1a) as [[M1|e] m1b] eqn:E2; [|done]
  end.
  rewrite bind_run in Hrun.
  match type of Hrun with
  | context [match ?c m1b with _ => _ end] =>
      destruct (c m1b) as [[vm2|e] m1c] eqn:E3; [|done]
  end.
  rewrite bind_run in Hrun.
  match type of Hrun with
  | context [match ?c m1c with _ => _ end] =>
      destruct (c m1c) as [[[]|e] m1d] eqn:E4; [|done]
  end.
  (* the ops staged by now stay staged *)
  assert (∀ op, op ∈ staged m1b → op ∈ staged m1') as Hgrow.
  { intros op Hop.
    assert (∀ op, op ∈ staged m1c → op ∈ staged m1') as Hg1.
    { intros op' Hop'.
      assert (staged m1d = staged m1c) as Hd.
      { destruct vm2; [|by injection E4 as <-].
        unfold handleVolumeMount in E4. cbn [modify] in E4.
        by injection E4 as <-. }
      pose proof (configureStorageFrom_storageStaged a config t uid rest
                    (S index) (names ∪ {[StorageName fs]}) M1 m1d)
        as (_ & _ & _ & ops & Hs & _).
      rewrite Hrun in Hs. cbn [snd] in Hs. rewrite Hs, Hd.
      apply elem_of_app. by left. }
    apply Hg1.
    destruct pvc as [p|]; [|by injection E3 as _ <-].
    destruct t; cbn [claimHandler] in E3.
    - pose proof (preserves_handlePVCForStatefulSet
                    (fun m' => staged m' = staged m1b) p
                    (GetMountPathForFilesystem index (name a) fs)
                    match Attachment fs with
                    | Some at_ => faReadOnly at_
                    | None => false
                    end) as Hk.
      specialize (Hk (fun m' ts _ Hm' => Hm') m1b eq_refl).
      rewrite E3 in Hk. cbn [snd] in Hk. by rewrite Hk.
    - unfold handlePVCForStatelessResource in E3.
      rewrite bind_run in E3. cbn [applierApply modify] in E3.
      pose proof (preserves_handleVolume
                    (fun m' => ∃ ops, staged m' = staged m1b ++ ops)) as Hk.
      edestruct Hk as [ops Hops]; [done| |].
      2:{ rewrite E3 in Hops. cbn [snd] in Hops. rewrite Hops.
          apply elem_of_app. by left. }
      by eexists.
    - unfold handlePVCForStatelessResource in E3.
      rewrite bind_run in E3. cbn [applierApply modify] in E3.
      pose proof (preserves_handleVolume
                    (fun m' => ∃ ops, staged m' = staged m1b ++ ops)) as Hk.
      edestruct Hk as [ops Hops]; [done| |].
      2:{ rewrite E3 in Hops. cbn [snd] in Hops. rewrite Hops.
          apply elem_of_app. by left. }
      by eexists. }
  (* the second run *)
  assert (filesystemToVolumeInfo a (volumeName a (StorageName fs)) fs M'
            (fun volName => volName +:+ "-" +:+ uid)
          = Ok (vol, pvc, None)) as Hinfo'.
  { apply (filesystemToVolumeInfo_again a _ fs M M' _ vol pvc sc);
      try done.
    - intros size params Hp HM'.
      eapply (Hnew fs); [|exact Hp|exact HM'].
      apply elem_of_cons. by left.
    - intros c ->. apply Hsynth, Hgrow.
      cbn [handleStorageClass] in E2. rewrite bind_run in E2.
      unfold handleStorageClass, applierApply in E2. cbn [modify ret] in E2.
      injection E2 as _ <-. cbn [staged withStaged].
      apply elem_of_app. right. by apply list_elem_of_singleton. }
  rewrite bind_run. unfold lift at 1. rewrite Hinfo'.
  (* volume *)
  assert (∃ m2a, (match vol, Some handleVolume with
                  | Some v, Some h =>
                      h v (GetMountPathForFilesystem index (name a) fs)
                        match Attachment fs with
                        | Some at_ => faReadOnly at_
                        | None => false
                        end
                  | _, _ => ret None
                  end) m2 = (Ok vm1, m2a) ∧ again m1a m2a)
    as (m2a & E1' & Hagain1).
  { destruct vol as [v|].
    - by apply (handleVolume_again _ _ _ m1).
    - cbn [ret] in E1 |- *. injection E1 as <- <-. by exists m2. }
  rewrite bind_run, E1', bind_run. cbn [ret].
  (* storage class: the first call may have staged one, the second does not *)
  assert (again m1b m2a
          ∧ ∀ k, hasKey M1 k = true → hasKey M' k = true) as [Hagain2 Hsub1].
  { destruct sc as [c|].
    - rewrite bind_run in E2.
      unfold handleStorageClass, applierApply in E2. cbn [modify ret] in E2.
      injection E2 as <- <-. split.
      + destruct Hagain1 as (?&?&Hs). split; [done|]. split; [done|].
        cbn [staged withStaged]. rewrite dropClasses_app, Hs.
        cbn. by rewrite app_nil_r.
      + intros k. unfold hasKey.
        destruct (decide (scName c = k)) as [<-|Hne].
        * intros _. apply Hsynth, Hgrow. cbn [staged withStaged].
          apply elem_of_app. right. by apply list_elem_of_singleton.
        * rewrite lookup_insert_ne by done. apply Hsub.
    - cbn [ret] in E2. by injection E2 as <- <-. }
  (* claim *)
  assert (∃ m2c, (match pvc, Some (claimHandler t a) with
                  | Some p, Some h =>
                      h p (GetMountPathForFilesystem index (name a) fs)
                        match Attachment fs with
                        | Some at_ => faReadOnly at_
                        | None => false
                        end
                  | _, _ => ret vm1
                  end) m2a = (Ok vm2, m2c) ∧ again m1c m2c)
    as (m2c & E3' & Hagain3).
  { destruct pvc as [p|].
    - by apply (claimHandler_again _ _ _ _ _ m1b).
    - cbn [ret] in E3 |- *. injection E3 as <- <-. by exists m2a. }
  rewrite bind_run, E3'.
  (* mount *)
  assert (∃ m2d, (match vm2 with
                  | Some vm => handleVolumeMount config (StorageName fs) vm
                  | None => ret tt
                  end) m2c = (Ok tt, m2d) ∧ again m1d m2d)
    as (m2d & E4' & Hagain4).
  { destruct vm2 as [vm|].
    - by apply (handleVolumeMount_again _ _ _ m1c).
    - cbn [ret] in E4 |- *. injection E4 as <-. by exists m2c. }
  rewrite bind_run, E4'.
  apply (IH _ _ M1 M' m1d m1' m2d); try done.
  intros f n' size params Hf Hp HM'.
  assert (hasKey M (cfgStorageClass (vpStorageConfig params)) = true)
    as HM.
  { eapply (Hnew f); [|exact Hp|exact HM'].
    apply elem_of_cons. by right. }
  destruct sc as [c|].
  - rewrite bind_run in E2.
    unfold handleStorageClass, applierApply in E2. cbn [modify ret] in E2.
    injection E2 as <- _. unfold hasKey in HM |- *.
    destruct (decide (scName c = cfgStorageClass (vpStorageConfig params)))
      as [<-|Hne]; [by rewrite lookup_insert_eq|].
    by rewrite lookup_insert_ne.
  - cbn [ret] in E2. by injection E2 as <- _.
Qed.

End again.

(** ** The cluster, object by object *)

Section cluster.
Context `{!Collaborators}.

Lemma cluster_ext c c' :
  (∀ k, objects k c = objects k c') →
  podPages c = podPages c' → faults c = faults c' → c = c'.
Proof.
  intros Hobj Hpages Hfaults.
  assert (secrets c = secrets c') as H1.
  { apply (map_fmap_inj RSecret); [by intros ?? [=]|]. apply (Hobj KSecret). }
  assert (services c = services c') as H2.
  { apply (map_fmap_inj RService); [by intros ?? [=]|].
    apply (Hobj KService). }
  assert (statefulsets c = statefulsets c') as H3.
  { apply (map_fmap_inj RStatefulSet); [by intros ?? [=]|].
    apply (Hobj KStatefulSet). }
  assert (deployments c = deployments c') as H4.
  { apply (map_fmap_inj RDeployment); [by intros ?? [=]|].
    apply (Hobj KDeployment). }
  assert (daemonsets c = daemonsets c') as H5.
  { apply (map_fmap_inj RDaemonSet); [by intros ?? [=]|].
    apply (Hobj KDaemonSet). }
  assert (storageclasses c = storageclasses c') as H6.
  { apply (map_fmap_inj RStorageClass); [by intros ?? [=]|].
    apply (Hobj KStorageClass). }
  assert (claims c = claims c') as H7.
  { apply (map_fmap_inj RPersistentVolumeClaim); [by intros ?? [=]|].
    apply (Hobj KPersistentVolumeClaim). }
  destruct c, c'. cbn in *. congruence.
Qed.

Lemma objects_store k r c :
  objects k (store r c) =
    if decide (resourceKind r = k)
    then <[resourceName r :=
             mergeResource (objects k c !! resourceName r) r]> (objects k c)
    else objects k c.
Proof.
  destruct r, k;
    cbn [objects store resourceKind mergeResource secrets services
         statefulsets deployments daemonsets storageclasses claims];
    case_decide; try done;
    rewrite fmap_insert, lookup_fmap; by destruct (_ !! _).
Qed.

Lemma objects_remove k k' n c :
  objects k (remove k' n c) =
    if decide (k' = k) then delete n (objects k c) else objects k c.
Proof.
  destruct k, k';
    cbn [objects remove secrets services statefulsets deployments
         daemonsets storageclasses claims];
    repeat case_decide; try done; try by rewrite fmap_delete.
Qed.

Lemma objects_effect k n op c :
  objects k (effect op c) !! n = slotStep k n (objects k c !! n) op.
Proof.
  destruct op as [r|k' n']; cbn [effect slotStep].
  - rewrite objects_store. repeat case_decide; try done.
    + match goal with H : _ ∧ _ |- _ => destruct H as [_ <-] end.
      by rewrite lookup_insert_eq.
    + rewrite lookup_insert_ne; [done|]. tauto.
    + tauto.
  - rewrite objects_remove. repeat case_decide; try done.
    + match goal with H : _ ∧ _ |- _ => destruct H as [_ <-] end.
      by rewrite lookup_delete_eq.
    + rewrite lookup_delete_ne; [done|]. tauto.
    + tauto.
Qed.

Lemma objects_effects k n ops :
  ∀ c, objects k (effects ops c) !! n
       = foldl (slotStep k n) (objects k c !! n) ops.
Proof.
  unfold effects. induction ops as [|op ops IH]; intros c; [done|].
  cbn [foldl]. by rewrite IH, objects_effect.
Qed.

(** *** Applying again what was applied *)

Lemma unsetReplicas_kind r :
  resourceKind (unsetReplicas r) = resourceKind r.
Proof. by destruct r. Qed.

Lemma unsetReplicas_name r :
  resourceName (unsetReplicas r) = resourceName r.
Proof. by destruct r. Qed.

Lemma unsetReplicas_twice r :
  unsetReplicas (unsetReplicas r) = unsetReplicas r.
Proof. by destruct r. Qed.

(** Over an object that came of a resource with a nil replica count, the
    server stores what it would store over the object before it. *)
Lemma mergeResource_over live x y :
  resourceKind x = resourceKind y →
  mergeResource (Some (mergeResource live (unsetReplicas x))) y
  = mergeResource live y.
Proof.
  destruct x, y; try done; intros _;
    destruct live as [[]|]; cbn; try done.
  all: try by destruct (ssReplicas _).
  all: try by destruct (dReplicas _).
Qed.

(** Applied over what came of it, a resource changes nothing, also with
    its replica count left out. *)
Lemma mergeResource_again live x :
  mergeResource (Some (mergeResource live x)) (unsetReplicas x)
  = mergeResource live x.
Proof.
  destruct x; destruct live as [[]|]; cbn; try done.
Qed.

Lemma slotStep_other k n v op :
  ¬ (opKind op = k ∧ opName op = n) → slotStep k n v op = v.
Proof. destruct op; cbn; by case_decide. Qed.

Lemma slotStep_others k n ops :
  Forall (fun op => ¬ (opKind op = k ∧ opName op = n)) ops →
  ∀ v, foldl (slotStep k n) v ops = v.
Proof.
  induction 1 as [|op ops Hop _ IH]; intros v; [done|].
  cbn [foldl]. by rewrite slotStep_other, IH.
Qed.

Lemma withoutReplicas_kind op : opKind (withoutReplicas op) = opKind op.
Proof. destruct op; [apply unsetReplicas_kind|done]. Qed.

Lemma withoutReplicas_name op : opName (withoutReplicas op) = opName op.
Proof. destruct op; [apply unsetReplicas_name|done]. Qed.

(** After ops with nil replica counts, the server stores over the object
    what it would have stored before them. *)
Lemma mergeResource_after k n y ops :
  resourceKind y = k →
  Forall (fun op => isApply op = true) ops →
  ∀ v, mergeResource
         (foldl (slotStep k n) (Some v) (withoutReplicas <$> ops)) y
       = mergeResource (Some v) y
       ∧ is_Some (foldl (slotStep k n) (Some v) (withoutReplicas <$> ops)).
Proof.
  intros Hy. induction 1 as [|[r|] ops Hop _ IH]; intros v; [done| |done].
  cbn [fmap list_fmap foldl withoutReplicas slotStep].
  case_decide as Hm; [|apply IH].
  destruct (IH (mergeResource (Some v) (unsetReplicas r))) as [-> ?].
  split; [|done]. destruct Hm as [Hk _].
  rewrite unsetReplicas_kind in Hk.
  apply mergeResource_over. congruence.
Qed.

Lemma slot_present k n ops :
  Forall (fun op => isApply op = true) ops →
  ∀ v, is_Some v ∨ (∃ op, op ∈ ops ∧ opKind op = k ∧ opName op = n) →
       is_Some (foldl (slotStep k n) v ops).
Proof.
  induction 1 as [|[r|] ops Hop _ IH]; intros v Hv;
    [|clear Hop|discriminate Hop].
  { destruct Hv as [?|(op & Hin & _)]; [by cbn|].
    by apply elem_of_nil in Hin. }
  cbn [foldl]. apply IH. cbn [slotStep]. case_decide as Hm; [by left|].
  destruct Hv as [?|(op & Hin & Hk & Hn)]; [by left|].
  apply elem_of_cons in Hin as [->|Hin]; [by destruct Hm|].
  right. by exists op.
Qed.

(** The ops that a second call applies leave the cluster as the first
    call left it: the last thing applied to an object is applied to it
    again, or nothing is. *)
Lemma slot_again (keep : Op → bool) k n ops :
  Forall (fun op => isApply op = true) ops →
  (∀ op op', op ∈ ops → op' ∈ ops →
             opKind op = opKind op' → opName op = opName op' →
             keep op = keep op') →
  ∀ v, foldl (slotStep k n) (foldl (slotStep k n) v ops)
         (withoutReplicas <$> List.filter keep ops)
       = foldl (slotStep k n) v ops.
Proof.
  induction ops as [|op ops IH] using rev_ind; intros Happ Hkeep v; [done|].
  apply Forall_app in Happ as [Happ Hop].
  rewrite Forall_singleton in Hop.
  assert (∀ op1 op2, op1 ∈ ops → op2 ∈ ops →
                     opKind op1 = opKind op2 → opName op1 = opName op2 →
                     keep op1 = keep op2) as Hkeep'.
  { intros op1 op2 H1 H2. apply Hkeep; apply elem_of_app; by left. }
  specialize (IH Happ Hkeep' v).
  assert (Forall (fun op => isApply op = true) (List.filter keep ops))
    as Happ'.
  { apply Forall_forall. intros x Hx.
    apply list_elem_of_In, List.filter_In in Hx as [Hx _].
    apply list_elem_of_In in Hx.
    by apply (proj1 (Forall_forall _ _) Happ). }
  rewrite List.filter_app, fmap_app, !foldl_app.
  destruct op as [r|]; [|done].
  cbn [foldl List.filter]. set (u := foldl (slotStep k n) v ops) in *.
  destruct (decide (resourceKind r = k ∧ resourceName r = n)) as [Hm|Hm].
  - cbn [slotStep]. rewrite decide_True by done.
    destruct (keep (OpApply r)) eqn:Hk.
    + cbn [fmap list_fmap foldl withoutReplicas slotStep].
      rewrite decide_True
        by (by rewrite unsetReplicas_kind, unsetReplicas_name).
      f_equal.
      destruct (mergeResource_after k n (unsetReplicas r)
                  (List.filter keep ops)) with (v := mergeResource u r)
        as [-> _]; [|done|].
      { rewrite unsetReplicas_kind. apply Hm. }
      apply mergeResource_again.
    + cbn [fmap list_fmap foldl]. apply slotStep_others.
      apply Forall_forall. intros x Hx.
      apply list_elem_of_fmap in Hx as (op & -> & Hx).
      apply list_elem_of_In, List.filter_In in Hx as [Hx Hkx].
      apply list_elem_of_In in Hx.
      rewrite withoutReplicas_kind, withoutReplicas_name.
      intros [Hk1 Hk2].
      assert (keep op = keep (OpApply r)) as Heq; [|congruence].
      apply Hkeep.
      * apply elem_of_app. by left.
      * apply elem_of_app. right. by apply list_elem_of_singleton.
      * cbn [opKind]. by rewrite Hk1, (proj1 Hm).
      * cbn [opName]. by rewrite Hk2, (proj2 Hm).
  - rewrite (slotStep_other k n u (OpApply r)) by done.
    rewrite IH. apply slotStep_others.
    destruct (keep (OpApply r)); [|by apply Forall_nil].
    apply Forall_singleton.
    cbn [withoutReplicas opKind opName].
    by rewrite unsetReplicas_kind, unsetReplicas_name.
Qed.

Lemma podPages_effects ops : ∀ c, podPages (effects ops c) = podPages c.
Proof.
  unfold effects. induction ops as [|op ops IH]; intros c; [done|].
  cbn [foldl]. rewrite IH. by destruct op.
Qed.

Lemma effects_again (keep : Op → bool) ops c :
  Forall (fun op => isApply op = true) ops →
  (∀ op op', op ∈ ops → op' ∈ ops →
             opKind op = opKind op' → opName op = opName op' →
             keep op = keep op') →
  effects (withoutReplicas <$> List.filter keep ops) (effects ops c)
  = effects ops c.
Proof.
  intros Happ Hkeep. apply cluster_ext.
  - intros k. apply map_eq. intros n.
    rewrite !objects_effects. by apply slot_again.
  - by rewrite !podPages_effects.
  - by rewrite !faults_effects.
Qed.

(** *** What the ops of a batch leave in the cluster *)

Lemma effects_present r ops c :
  Forall (fun op => isApply op = true) ops →
  OpApply r ∈ ops →
  is_Some (objects (resourceKind r) (effects ops c) !! resourceName r).
Proof.
  intros Happ Hin. rewrite objects_effects.
  apply slot_present; [done|]. right. by exists (OpApply r).
Qed.

Lemma effects_grow k n ops c :
  Forall (fun op => isApply op = true) ops →
  is_Some (objects k c !! n) →
  is_Some (objects k (effects ops c) !! n).
Proof.
  intros Happ Hin. rewrite objects_effects.
  apply slot_present; [done|]. by left.
Qed.

Lemma effects_frame k ops c :
  Forall (fun op => opKind op ≠ k) ops →
  objects k (effects ops c) = objects k c.
Proof.
  intros Hk. apply map_eq. intros n. rewrite objects_effects.
  apply slotStep_others. eapply Forall_impl; [exact Hk|].
  intros op Hop [? _]. done.
Qed.

Lemma effects_last k n ops r c :
  resourceKind r = k → resourceName r = n →
  ∃ live, objects k (effects (ops ++ [OpApply r]) c) !! n
          = Some (mergeResource live r).
Proof.
  intros Hk Hn. rewrite objects_effects, foldl_app.
  cbn [foldl slotStep]. rewrite decide_True by done. by eexists.
Qed.

Lemma mergeResource_meta live r :
  Annotations (resourceMeta (mergeResource live r))
  = Annotations (resourceMeta r).
Proof. by destruct r. Qed.

Lemma primaryMeta_objects c t n :
  primaryMeta c t n = resourceMeta <$> objects (primaryKind t) c !! n.
Proof.
  destruct t; cbn [primaryMeta primaryKind objects];
    rewrite lookup_fmap; by destruct (_ !! _).
Qed.

Lemma services_objects c n :
  is_Some (services c !! n) ↔ is_Some (objects KService c !! n).
Proof. cbn [objects]. by rewrite lookup_fmap, fmap_is_Some. Qed.

Lemma storageclasses_objects c n :
  hasKey (storageclasses c) n = true
  ↔ is_Some (objects KStorageClass c !! n).
Proof.
  cbn [objects]. rewrite lookup_fmap, fmap_is_Some. unfold hasKey.
  destruct (_ !! _); [by split|]. split; [done|]. by intros [? ?].
Qed.

End cluster.

(** ** The storage classes a call lists *)

Section classes.
Context `{!Collaborators}.

Lemma hasKey_insert {A} (g : gmap string A) k k' v :
  hasKey (<[k' := v]> g) k = true ↔ k' = k ∨ hasKey g k = true.
Proof.
  unfold hasKey. destruct (decide (k' = k)) as [->|Hne].
  - rewrite lookup_insert_eq. split; [by left|done].
  - rewrite lookup_insert_ne by done. split; [by right|].
    by intros [?|?].
Qed.

Lemma hasKey_storageClassMapOf l k :
  hasKey (storageClassMapOf l) k = true ↔ ∃ v, v ∈ l ∧ scName v = k.
Proof.
  unfold storageClassMapOf.
  assert (∀ g : gmap string StorageClass,
            hasKey (foldl (fun m v => <[scName v := v]> m) g l) k = true
            ↔ hasKey g k = true ∨ ∃ v, v ∈ l ∧ scName v = k) as Hgen.
  { induction l as [|x l IH]; intros g; cbn [foldl].
    - split; [by left|]. intros [?|(v & Hv & _)]; [done|].
      by apply elem_of_nil in Hv.
    - rewrite IH, hasKey_insert. split.
      + intros [[?|?]|(v & Hv & ?)].
        * right. exists x. split; [by left|done].
        * by left.
        * right. exists v. split; [by right|done].
      + intros [?|(v & Hv & ?)]; [left; by right|].
        apply elem_of_cons in Hv as [->|Hv]; [left; by left|].
        right. by exists v. }
  rewrite Hgen. unfold hasKey at 1. rewrite lookup_empty.
  split; [by intros [?|?]|by right].
Qed.

(** In a cluster that keeps every class under its name, the listed
    classes go by the names the cluster has. *)
Lemma hasKey_listed c k :
  classesKeyed c →
  hasKey (storageClassMapOf ((map_to_list (storageclasses c)).*2)) k = true
  ↔ hasKey (storageclasses c) k = true.
Proof.
  intros Hkeyed. rewrite hasKey_storageClassMapOf. split.
  - intros (v & Hv & <-).
    apply list_elem_of_fmap in Hv as ([k' v'] & -> & Hv).
    apply elem_of_map_to_list in Hv. cbn [snd].
    pose proof (Hkeyed k' v' Hv) as Hn. cbn beta in Hn.
    rewrite Hn. unfold hasKey. by rewrite Hv.
  - unfold hasKey. destruct (storageclasses c !! k) as [v|] eqn:Hv; [|done].
    intros _. exists v. split; [|by apply (Hkeyed k v)].
    apply list_elem_of_fmap. exists (k, v). split; [done|].
    by apply elem_of_map_to_list.
Qed.

Lemma classesKeyed_effect op c :
  classesKeyed c → classesKeyed (effect op c).
Proof.
  unfold classesKeyed. intros Hkeyed.
  destruct op as [r|k n]; cbn [effect].
  - destruct r; cbn [store storageclasses]; try done.
    by apply map_Forall_insert_2.
  - cbn [remove storageclasses]. case_decide; [|done].
    by apply map_Forall_delete.
Qed.

Lemma classesKeyed_effects ops :
  ∀ c, classesKeyed c → classesKeyed (effects ops c).
Proof.
  unfold effects. induction ops as [|op ops IH]; intros c Hc; [done|].
  cbn [foldl]. by apply IH, classesKeyed_effect.
Qed.

Lemma servicesEnsured_effects a config t c :
  servicesEnsured a config t c = effects (serviceOps a config t c) c.
Proof.
  unfold servicesEnsured, serviceOps, effects.
  by destruct (services c !! name a), t.
Qed.

Lemma headlessServiceName_fresh n : headlessServiceName n ≠ n.
Proof.
  unfold headlessServiceName. intros Heq.
  apply (f_equal String.length) in Heq. revert Heq.
  induction n as [|c n IH]; [done|].
  cbn [String.append String.length]. intros [= Heq]. by apply IH.
Qed.

End classes.

(** ** A second call of [Ensure] *)

Section idempotence.
Context `{!Collaborators}.

(** The course of a call that succeeds. *)
Lemma Ensure_ok_shape a config m :
  (Ensure a config m).1 = Ok tt →
  ∃ t spec uid m3 m4,
    switchDeploymentType (deploymentType a) = Some t
    ∧ applicationPodSpec a config = Ok spec
    ∧ Forall (served (cluster m)) (preludeRequests a t (cluster m))
    ∧ match livePrefix (cluster m) t (name a) with
      | Some v => (Ok v, prepared a config t spec m)
      | None =>
          (randomPrefix (prefixCalls m),
           generated (prepared a config t spec m))
      end = (Ok uid, m3)
    ∧ configureStorage a uid (Filesystems config)
        ((map_to_list (storageclasses (cluster m))).*2)
        (Some handleVolume) (handleVolumeMount config)
        (Some (claimHandler t a)) (Some handleStorageClass)
        match t with
        | Stateful => withClaimTemplates (fun _ => []) m3
        | _ => m3
        end = (Ok tt, m4)
    ∧ let w :=
        workloadResource t a config uid
          (initialReplicas t (primaryGet (cluster m) t (name a)))
          spec (podSpec m4) (claimTemplates m4) in
      Forall (fun op => refused (cluster m4) op = None)
        (staged m4 ++ [OpApply w])
      ∧ Ensure a config m =
          (Ok tt,
           ran (staged m4 ++ [OpApply w])
             (withStaged (fun ops => ops ++ [OpApply w]) m4)).
Proof.
  intros Hok.
  destruct (Ensure_ok_served a config m Hok) as (t & spec & Ht & Hspec & Hs).
  exists t, spec. revert Hok.
  rewrite (Ensure_smooth a config m t spec Ht Hspec Hs). unfold settled.
  destruct (match livePrefix _ _ _ with Some _ => _ | None => _ end)
    as [[uid|e] m3]; [|done].
  destruct (configureStorage _ _ _ _ _ _ _ _ _) as [[[]|e] m4] eqn:Hcs;
    [|done].
  cbn zeta. intros Hok. exists uid, m3, m4.
  do 5 (split; [done|]).
  destruct (runOps _ _) as [r mF] eqn:Hrun. cbn [fst] in Hok. subst r.
  apply runOps_ok in Hrun as [Hserved ->]. by split.
Qed.

Lemma prepared_claimTemplates a config t spec m :
  claimTemplates (prepared a config t spec m) = claimTemplates m.
Proof.
  unfold prepared. by destruct (services (cluster m) !! name a), t.
Qed.

(** Only the stateful branch touches the claim templates. *)
Lemma configureStorage_claimTemplates a config t uid scs m :
  t ≠ Stateful →
  claimTemplates
    (configureStorage a uid (Filesystems config) scs (Some handleVolume)
       (handleVolumeMount config) (Some (claimHandler t a))
       (Some handleStorageClass) m).2
  = claimTemplates m.
Proof.
  intros Ht. unfold configureStorage.
  apply (preserves_configureStorageFrom
           (fun m' => claimTemplates m' = claimTemplates m) a uid
           (Some handleVolume) (handleVolumeMount config)
           (Some (claimHandler t a)) (Some handleStorageClass)
           (Filesystems config)); [| | | |done|done].
  - intros h v mp ro [= <-]. by apply preserves_handleVolume.
  - intros sn vm. by apply preserves_handleVolumeMount.
  - intros h fs classes v p sc mp ro [= <-] _ _.
    destruct t; [done| |];
      by apply preserves_handlePVCForStatelessResource.
  - intros h fs classes v p sc [= <-] _ _.
    by apply preserves_applierApply.
Qed.

Lemma withoutReplicas_others ops :
  Forall (fun op => isWorkloadKind (opKind op) = false) ops →
  withoutReplicas <$> ops = ops.
Proof.
  induction 1 as [|op ops Hop _ IH]; [done|].
  cbn [fmap list_fmap] in *. rewrite IH. f_equal.
  destruct op as [[]|]; done.
Qed.

Lemma unsetReplicas_workload t a config uid n copied final ts :
  unsetReplicas (workloadResource t a config uid n copied final ts)
  = workloadResource t a config uid None copied final ts.
Proof. by destruct t. Qed.

Lemma kept_classes a ops :
  Forall (fun op => isApply op = true ∧ opKind op ≠ KService) ops →
  List.filter (kept a) ops = dropClasses ops.
Proof.
  intros Hall. apply List.filter_ext_in. intros op Hin.
  apply list_elem_of_In in Hin.
  destruct (proj1 (Forall_forall _ _) Hall op Hin) as [Happ Hk].
  unfold kept. destruct op as [r|]; [|done].
  rewrite (bool_decide_eq_false_2 (_ ∧ _)) by (by intros [? _]).
  by destruct r.
Qed.

Lemma kept_services a config t c c' :
  is_Some (services c' !! name a) →
  withoutReplicas <$> List.filter (kept a) (serviceOps a config t c)
  = serviceOps a config t c'.
Proof.
  intros [svc Hsvc]. unfold serviceOps. rewrite Hsvc.
  rewrite List.filter_app, fmap_app.
  assert (kept a (OpApply (RService
                    (defaultService a (annotations a config)))) = false)
    as Hdefault.
  { unfold kept. rewrite (bool_decide_eq_true_2 (_ ∧ _)) by done.
    apply andb_false_r. }
  assert (kept a (OpApply (RService
                    (headlessService a (name a) (annotations a config))))
          = true) as Hheadless.
  { unfold kept.
    rewrite (bool_decide_eq_false_2 (_ ∧ _)).
    - done.
    - intros [_ Hn]. by apply headlessServiceName_fresh in Hn. }
  destruct (services c !! name a), t; cbn [List.filter List.app];
    rewrite ?Hdefault, ?Hheadless; done.
Qed.

Lemma kept_slots a (op op' : Op) :
  opKind op = opKind op' → opName op = opName op' →
  kept a op = kept a op'.
Proof. unfold kept. by intros -> ->. Qed.

Lemma serviceOps_apply a config t c :
  Forall (fun op => isApply op = true) (serviceOps a config t c).
Proof.
  unfold serviceOps.
  destruct (services c !! name a), t; repeat constructor.
Qed.

Lemma servicesEnsured_default a config t c :
  is_Some (services (servicesEnsured a config t c) !! name a).
Proof.
  apply services_objects. rewrite servicesEnsured_effects.
  destruct (services c !! name a) as [svc|] eqn:Hsvc.
  - apply effects_grow; [apply serviceOps_apply|].
    apply services_objects. by rewrite Hsvc.
  - apply (effects_present
             (RService (defaultService a (annotations a config))));
      [apply serviceOps_apply|].
    unfold serviceOps. rewrite Hsvc. apply elem_of_app. left.
    by apply list_elem_of_singleton.
Qed.

Lemma refused_withoutReplicas c op :
  refused c (withoutReplicas op) = refused c op.
Proof.
  destruct op as [r|]; [|done]. unfold refused.
  cbn [withoutReplicas opRequest].
  by rewrite unsetReplicas_kind, unsetReplicas_name.
Qed.

Lemma livePrefix_nonempty c t n v : livePrefix c t n = Some v → v ≠ "".
Proof.
  unfold livePrefix. destruct (primaryMeta c t n) as [o|]; [|done].
  destruct (Annotations o !! _) as [x|]; [|done].
  destruct (0 <? String.length x)%nat eqn:Hlen; [|done].
  intros [= ->] ->. done.
Qed.

(** C1 (amended). When a call of [Ensure] succeeds and no filesystem is
    configured with the name of a storage class that this call added to
    the cluster, a second call with the same configuration succeeds and
    leaves the cluster exactly as the first call left it, without running
    the prefix generator again.  It stages what the first call staged, but
    for the storage classes the first call synthesized, which it now finds
    in the cluster, and for the replica count of the workload object,
    which it leaves unset.  The prefix generator is taken to yield no
    empty prefix, a synthesized class to go by the qualified name of the
    configured class, and the cluster to keep each class under its
    name. *)
Theorem Ensure_twice a config m :
  (Ensure a config m).1 = Ok tt →
  (∀ s, randomPrefix (prefixCalls m) = Ok s → s ≠ "") →
  classesNamedQualified →
  classesKeyed (cluster m) →
  noNewConfigured (Filesystems config) (storageclasses (cluster m))
    (storageclasses (cluster (Ensure a config m).2)) →
  let first := (Ensure a config m).2 in
  let second := Ensure a config first in
  second.1 = Ok tt
  ∧ cluster second.2 = cluster first
  ∧ prefixCalls second.2 = prefixCalls first
  ∧ staged second.2 = withoutReplicas <$> dropClasses (staged first).
Proof.
  intros Hok Hgen Hnamed Hkeyed Hnew.
  destruct (Ensure_ok_shape a config m Hok)
    as (t & spec & uid & m3 & m4 & Ht & Hspec & Hserved & Hprefix & Hcs
        & Hrest).
  cbn zeta in Hrest.
  set (w := workloadResource t a config uid
              (initialReplicas t (primaryGet (cluster m) t (name a)))
              spec (podSpec m4) (claimTemplates m4)) in *.
  destruct Hrest as [Hrefused Hfirst].
  rewrite Hfirst in Hnew |- *. cbn [snd] in Hnew |- *.
  set (ops1 := staged m4 ++ [OpApply w]) in *.
  set (mF := ran ops1 (withStaged (fun ops => ops ++ [OpApply w]) m4)) in *.
  (* the first call, when the prefix is settled *)
  assert (cluster m3 = servicesEnsured a config t (cluster m)
          ∧ staged m3 = [OpApply (RSecret (applicationSecret a config))]
          ∧ podSpec m3 = spec
          ∧ claimTemplates m3 = claimTemplates m
          ∧ uid ≠ "") as (Hc3 & Hs3 & Hp3 & Ht3 & Huid).
  { destruct (livePrefix (cluster m) t (name a)) as [v|] eqn:Hlive;
      injection Hprefix as Hv <-.
    - subst v.
      rewrite prepared_cluster, prepared_staged, prepared_podSpec,
        prepared_claimTemplates.
      do 4 (split; [done|]). by apply livePrefix_nonempty in Hlive.
    - cbn [cluster generated staged podSpec claimTemplates].
      rewrite prepared_cluster, prepared_staged, prepared_podSpec,
        prepared_claimTemplates.
      do 4 (split; [done|]). by apply Hgen. }
  set (m3' := match t with
              | Stateful => withClaimTemplates (fun _ => []) m3
              | _ => m3
              end) in *.
  assert (cluster m3' = cluster m3 ∧ staged m3' = staged m3
          ∧ podSpec m3' = podSpec m3)
    as (Hc3' & Hs3' & Hp3') by (by destruct t).
  pose proof (configureStorage_storageStaged a config t uid
                ((map_to_list (storageclasses (cluster m))).*2) m3') as Hst.
  rewrite Hcs in Hst. cbn [snd] in Hst.
  destruct Hst as (Hc4 & _ & _ & sops & Hs4 & Hsops).
  assert (Forall (fun op => isApply op = true
                            ∧ isWorkloadKind (opKind op) = false
                            ∧ opKind op ≠ KService) (staged m4)) as Hstaged.
  { rewrite Hs4, Hs3', Hs3. apply Forall_app; split.
    - by apply Forall_singleton.
    - apply Forall_forall. intros op Hop. apply list_elem_of_In in Hop.
      eapply forallb_forall in Hsops; [|exact Hop].
      split; [by apply andb_prop in Hsops as [? _]|].
      split; [by apply isStorageOp_not_workload|].
      apply andb_prop in Hsops as [_ Hk]. intros Hsvc.
      by rewrite Hsvc in Hk. }
  assert (Forall (fun op => isApply op = true ∧ opKind op ≠ KService) ops1)
    as Hops1.
  { subst ops1. apply Forall_app; split.
    - eapply Forall_impl; [exact Hstaged|]. by intros op (? & _ & ?).
    - apply Forall_singleton. split; [done|]. cbn [opKind]. subst w.
      rewrite workloadResource_kind. by destruct t. }
  assert (Forall (fun op => isApply op = true)
            (serviceOps a config t (cluster m) ++ ops1)) as Happ.
  { apply Forall_app; split; [apply serviceOps_apply|].
    eapply Forall_impl; [exact Hops1|]. by intros op [? _]. }
  assert (cluster mF
          = effects (serviceOps a config t (cluster m) ++ ops1) (cluster m))
    as HcF.
  { subst mF. unfold ran. cbn [cluster withStaged].
    by rewrite effects_app, <- servicesEnsured_effects, Hc4, Hc3', Hc3. }
  assert (faults (cluster mF) = faults (cluster m)) as HfF.
  { rewrite HcF. apply faults_effects. }
  assert (classesKeyed (cluster mF)) as HkeyedF.
  { rewrite HcF. by apply classesKeyed_effects. }
  assert (is_Some (services (cluster mF) !! name a)) as HsvcF.
  { apply services_objects. subst mF. unfold ran.
    cbn [cluster withStaged]. rewrite effects_frame.
    - rewrite Hc4, Hc3', Hc3.
      apply services_objects, servicesEnsured_default.
    - eapply Forall_impl; [exact Hops1|]. by intros op [_ ?]. }
  (* the second call up to the storage prefix *)
  assert (faults (cluster m) VGet (primaryKind t) (name a) = None)
    as Hprimary.
  { unfold preludeRequests in Hserved.
    rewrite !Forall_app in Hserved.
    destruct Hserved as (_ & _ & _ & _ & Hlast).
    by rewrite Forall_singleton in Hlast. }
  assert (Forall (served (cluster mF)) (preludeRequests a t (cluster mF)))
    as Hserved2.
  { assert (∀ q, served (cluster m) q → served (cluster mF) q) as Hq.
    { intros q. unfold served. by rewrite HfF. }
    unfold preludeRequests in Hserved |- *.
    destruct HsvcF as [svc ->].
    rewrite !Forall_app in Hserved. rewrite !Forall_app.
    destruct Hserved as (H1 & _ & H3 & H4 & H5).
    split; [by eapply Forall_impl|].
    split; [by apply Forall_nil|].
    split; [by eapply Forall_impl|].
    split; by eapply Forall_impl. }
  assert (∃ live, objects (primaryKind t) (cluster mF) !! name a
                  = Some (mergeResource live w)) as [live Hw].
  { subst mF ops1. unfold ran. cbn [cluster withStaged].
    apply effects_last; subst w;
      [apply workloadResource_kind|apply workloadResource_name]. }
  assert (livePrefix (cluster mF) t (name a) = Some uid) as HliveF.
  { eapply livePrefix_Some; [|..|exact Huid].
    - by rewrite primaryMeta_objects, Hw.
    - rewrite mergeResource_meta. subst w.
      apply workloadResource_annotation. }
  pose proof (Ensure_smooth a config mF t spec Ht Hspec Hserved2)
    as Hsecond.
  rewrite HliveF in Hsecond. unfold settled in Hsecond.
  set (P := prepared a config t spec mF) in *.
  set (m3'' := match t with
               | Stateful => withClaimTemplates (fun _ => []) P
               | _ => P
               end) in *.
  assert (cluster m3'' = servicesEnsured a config t (cluster mF)
          ∧ staged m3''
            = [OpApply (RSecret (applicationSecret a config))]
          ∧ podSpec m3'' = spec
          ∧ prefixCalls m3'' = prefixCalls mF)
    as (Hc3'' & Hs3'' & Hp3'' & Hn3'').
  { subst m3'' P.
    destruct t; cbn [cluster staged podSpec prefixCalls withClaimTemplates];
      by rewrite prepared_cluster, prepared_staged, prepared_podSpec,
           prepared_prefixCalls. }
  (* the storage loop of the second call *)
  destruct (configureStorageFrom_again a config t uid (Filesystems config)
              Hnamed 0%nat ∅
              (storageClassMapOf
                 ((map_to_list (storageclasses (cluster m))).*2))
              (storageClassMapOf
                 ((map_to_list (storageclasses (cluster mF))).*2))
              m3' m4 m3'')
    as (m4'' & Hcs2 & Hp4 & Ht4 & Hs4'').
  { exact Hcs. }
  { intros k Hk. apply hasKey_listed; [done|].
    apply hasKey_listed in Hk; [|done].
    apply storageclasses_objects. rewrite HcF.
    apply effects_grow; [done|]. by apply storageclasses_objects. }
  { intros sc Hsc. apply hasKey_listed; [done|].
    apply storageclasses_objects. rewrite HcF.
    apply (effects_present (RStorageClass sc)); [done|].
    apply elem_of_app. right. subst ops1. apply elem_of_app. by left. }
  { intros fs n size params Hfs Hparams HM'.
    apply hasKey_listed; [done|].
    apply (Hnew fs n size params Hfs Hparams).
    by apply hasKey_listed in HM'. }
  { split; [by rewrite Hp3'', Hp3', Hp3|]. split.
    - subst m3'' m3'. destruct t; [done| |].
      + subst P. rewrite prepared_claimTemplates. subst mF.
        cbn [claimTemplates ran withStaged].
        pose proof (configureStorage_claimTemplates a config Stateless uid
                      ((map_to_list (storageclasses (cluster m))).*2) m3)
          as Hkeep.
        rewrite Hcs in Hkeep. by apply Hkeep.
      + subst P. rewrite prepared_claimTemplates. subst mF.
        cbn [claimTemplates ran withStaged].
        pose proof (configureStorage_claimTemplates a config Daemon uid
                      ((map_to_list (storageclasses (cluster m))).*2) m3)
          as Hkeep.
        rewrite Hcs in Hkeep. by apply Hkeep.
    - by rewrite Hs3'', Hs3', Hs3. }
  change (configureStorage a uid (Filesystems config)
            ((map_to_list (storageclasses (cluster mF))).*2)
            (Some handleVolume) (handleVolumeMount config)
            (Some (claimHandler t a)) (Some handleStorageClass) m3''
          = (Ok tt, m4'')) in Hcs2.
  rewrite Hcs2 in Hsecond. cbn zeta in Hsecond.
  pose proof (configureStorage_storageStaged a config t uid
                ((map_to_list (storageclasses (cluster mF))).*2) m3'')
    as Hst2.
  rewrite Hcs2 in Hst2. cbn [snd] in Hst2.
  destruct Hst2 as (Hc4'' & _ & Hn4'' & _).
  (* the workload object of the second call *)
  rewrite initialReplicas_found in Hsecond by (by rewrite HfF).
  rewrite primaryMeta_objects, Hw in Hsecond.
  assert (match t with
          | Daemon => None
          | _ => match resourceMeta <$> Some (mergeResource live w) with
                 | Some _ => None
                 | None => int32Ptr 1
                 end
          end = @None Z) as Hnone by (by destruct t).
  rewrite Hnone, Hp4, Ht4 in Hsecond. clear Hnone.
  rewrite <- (unsetReplicas_workload t a config uid
                (initialReplicas t (primaryGet (cluster m) t (name a))))
    in Hsecond.
  fold w in Hsecond.
  assert (staged m4'' ++ [OpApply (unsetReplicas w)]
          = withoutReplicas <$> dropClasses ops1) as Hops2.
  { subst ops1. rewrite dropClasses_app, fmap_app, Hs4''. f_equal.
    - symmetry. apply withoutReplicas_others.
      apply Forall_forall. intros op Hop.
      apply list_elem_of_In, List.filter_In in Hop as [Hop _].
      apply list_elem_of_In in Hop.
      by destruct (proj1 (Forall_forall _ _) Hstaged op Hop) as (_ & ? & _).
    - subst w. by destruct t. }
  rewrite Hops2 in Hsecond.
  rewrite runOps_run in Hsecond.
  2:{ apply Forall_fmap, Forall_forall. intros op Hop.
      apply list_elem_of_In, List.filter_In in Hop as [Hop _].
      apply list_elem_of_In in Hop. cbn [compose].
      rewrite refused_withoutReplicas.
      pose proof (proj1 (Forall_forall _ _) Hrefused op Hop) as Hr.
      revert Hr. unfold refused. cbn [cluster withStaged].
      rewrite Hc4'', Hc3'', Hc4, Hc3', Hc3.
      destruct (servicesEnsured_sameButServices a config t (cluster mF))
        as (_ & _ & _ & _ & _ & _ & _ & ->).
      destruct (servicesEnsured_sameButServices a config t (cluster m))
        as (_ & _ & _ & _ & _ & _ & _ & ->).
      by rewrite HfF. }
  rewrite Hsecond. cbn [fst snd]. split; [done|]. split; [|split].
  - unfold ran at 1. cbn [cluster withStaged].
    rewrite Hc4'', Hc3'', servicesEnsured_effects, <- effects_app.
    rewrite <- (kept_classes a ops1 Hops1).
    rewrite <- (kept_services a config t (cluster m) (cluster mF) HsvcF).
    rewrite <- fmap_app, <- List.filter_app, HcF.
    apply effects_again; [done|].
    intros op op' _ _. apply kept_slots.
  - cbn [prefixCalls ran withStaged]. by rewrite Hn4'', Hn3''.
  - cbn [staged ran withStaged]. by rewrite Hops2.
Qed.

End idempotence.

(** ** Two filesystems of one storage name *)

Section repeated.
Context `{!Collaborators}.

(** When the loop of [configureStorage] gets through the filesystems
    [pre], it fails on a filesystem after them whose storage name one of
    them has, where it stands by then. *)
Lemma configureStorageFrom_stops a uid hV hVM hP hSC pre :
  ∀ index names classes m m' fs post,
    configureStorageFrom a uid hV hVM hP hSC index pre names classes m
    = (Ok tt, m') →
    StorageName fs ∈ names ∨ StorageName fs ∈ (StorageName <$> pre) →
    configureStorageFrom a uid hV hVM hP hSC index (pre ++ fs :: post)
      names classes m
    = (Err (NotValid ("duplicated storage name "
                      +:+ Quote (StorageName fs)
                      +:+ " for " +:+ Quote (name a))), m').
Proof.
  induction pre as [|f0 pre IH];
    intros index names classes m m' fs post Hok Hdup.
  - cbn [List.app configureStorageFrom ret] in Hok |- *.
    injection Hok as <-.
    destruct Hdup as [Hin|Hnil]; [|by apply elem_of_nil in Hnil].
    by destruct (decide (StorageName fs ∈ names)).
  - cbn [List.app configureStorageFrom] in Hok |- *.
    destruct (decide (StorageName f0 ∈ names)) as [Hin|Hnotin]; [done|].
    rewrite bind_run in Hok. rewrite bind_run.
    match type of Hok with
    | context [match ?c m with _ => _ end] =>
        destruct (c m) as [[[[vol pvc] sc]|e] m1]; [|done]
    end.
    rewrite bind_run in Hok. rewrite bind_run.
    match type of Hok with
    | context [match ?c m1 with _ => _ end] =>
        destruct (c m1) as [[vm1|e] m2]; [|done]
    end.
    rewrite bind_run in Hok. rewrite bind_run.
    match type of Hok with
    | context [match ?c m2 with _ => _ end] =>
        destruct (c m2) as [[classes'|e] m3]; [|done]
    end.
    rewrite bind_run in Hok. rewrite bind_run.
    match type of Hok with
    | context [match ?c m3 with _ => _ end] =>
        destruct (c m3) as [[vm2|e] m4]; [|done]
    end.
    rewrite bind_run in Hok. rewrite bind_run.
    match type of Hok with
    | context [match ?c m4 with _ => _ end] =>
        destruct (c m4) as [[[]|e] m5]; [|done]
    end.
    apply (IH _ _ _ _ _ fs post Hok).
    rewrite fmap_cons in Hdup.
    destruct Hdup as [Hdup|Hdup];
      [left; apply elem_of_union; by left|].
    apply elem_of_cons in Hdup as [->|Hdup]; [|by right].
    left. apply elem_of_union. right. by apply elem_of_singleton.
Qed.

(** When the loop fails on the filesystems [pre], it fails the same way
    with more filesystems after them. *)
Lemma configureStorageFrom_fails a uid hV hVM hP hSC pre :
  ∀ index names classes m m' e rest,
    configureStorageFrom a uid hV hVM hP hSC index pre names classes m
    = (Err e, m') →
    configureStorageFrom a uid hV hVM hP hSC index (pre ++ rest)
      names classes m
    = (Err e, m').
Proof.
  induction pre as [|f0 pre IH];
    intros index names classes m m' e rest Herr; [done|].
  cbn [List.app configureStorageFrom] in Herr |- *.
  destruct (decide (StorageName f0 ∈ names)) as [Hin|Hnotin]; [done|].
  rewrite bind_run in Herr. rewrite bind_run.
  match type of Herr with
  | context [match ?c m with _ => _ end] =>
      destruct (c m) as [[[[vol pvc] sc]|e1] m1]; [|done]
  end.
  rewrite bind_run in Herr. rewrite bind_run.
  match type of Herr with
  | context [match ?c m1 with _ => _ end] =>
      destruct (c m1) as [[vm1|e1] m2]; [|done]
  end.
  rewrite bind_run in Herr. rewrite bind_run.
  match type of Herr with
  | context [match ?c m2 with _ => _ end] =>
      destruct (c m2) as [[classes'|e1] m3]; [|done]
  end.
  rewrite bind_run in Herr. rewrite bind_run.
  match type of Herr with
  | context [match ?c m3 with _ => _ end] =>
      destruct (c m3) as [[vm2|e1] m4]; [|done]
  end.
  rewrite bind_run in Herr. rewrite bind_run.
  match type of Herr with
  | context [match ?c m4 with _ => _ end] =>
      destruct (c m4) as [[[]|e1] m5]; [|done]
  end.
  by apply IH.
Qed.


Local Ltac stuck :=
  let H := fresh in
  intros H; exfalso; apply H; first [reflexivity|cbn; assumption].

(** A call of [Ensure] that has staged more than the Secret knew the
    topology, built the pod spec and had its requests served up to the
    get of the workload object. *)
Lemma Ensure_reached_served a config m :
  staged (Ensure a config m).2
  ≠ [OpApply (RSecret (applicationSecret a config))] →
  ∃ t spec,
    switchDeploymentType (deploymentType a) = Some t
    ∧ applicationPodSpec a config = Ok spec
    ∧ Forall (served (cluster m)) (preludeRequests a t (cluster m)).
Proof.
  rewrite Ensure_run, configureDefaultService_run. cbn zeta.
  cbn [cluster withStaged].
  destruct (faults (cluster m) VGet KService (name a)) eqn:Hget; [stuck|].
  assert (∀ t spec m1,
            staged m1 = [OpApply (RSecret (applicationSecret a config))] →
            cluster m1 = cluster m
            ∨ (∃ s, cluster m1 = store (RService s) (cluster m)) →
            (services (cluster m) !! name a = None →
             faults (cluster m) VApply KService (name a) = None) →
            staged
              (let m2 := logged VList KStorageClass ""
                           (withPodSpec (fun _ => spec) m1) in
               match faults (cluster m1) VList KStorageClass "" with
               | Some msg => (Err (Foreign msg), m2)
               | None =>
                   match
                     ensureBranch t a config
                       ((map_to_list (storageclasses (cluster m1))).*2) m2
                   with
                   | (Err e, m4) => (Err e, m4)
                   | (Ok _, m4) => runOps (staged m4) m4
                   end
               end).2
            ≠ [OpApply (RSecret (applicationSecret a config))] →
            Forall (served (cluster m)) (preludeRequests a t (cluster m)))
    as Hrest.
  { intros t spec m1 Hs1 Hc Happly. cbn zeta.
    assert (faults (cluster m1) = faults (cluster m)) as ->
      by (by destruct Hc as [->|[s ->]]).
    destruct (faults (cluster m) VList KStorageClass "") eqn:Hlist;
      [stuck|].
    rewrite ensureBranch_run.
    assert (faults (cluster m) VGet (primaryKind t) (name a) = None →
            (t = Stateful →
             faults (cluster m) VApply KService
               (headlessServiceName (name a)) = None) →
            Forall (served (cluster m)) (preludeRequests a t (cluster m)))
      as Hall.
    { intros Hprimary Hheadless. unfold preludeRequests.
      apply Forall_app; split; [by apply Forall_singleton|].
      apply Forall_app; split.
      { destruct (services (cluster m) !! name a); [constructor|].
        apply Forall_singleton. by apply Happly. }
      apply Forall_app; split; [by apply Forall_singleton|].
      apply Forall_app; split; [|by apply Forall_singleton].
      destruct t; try constructor; [|constructor]. by apply Hheadless. }
    destruct t.
    - rewrite annotated_run. unfold configureHeadlessService.
      rewrite applyResource_run.
      cbn [cluster logged withPodSpec resourceKind resourceName
           resourceMeta headlessService NewService svcMeta named Name].
      assert (faults (cluster m1) = faults (cluster m)) as ->
        by (by destruct Hc as [->|[s ->]]).
      destruct (faults (cluster m) VApply KService
                  (headlessServiceName (name a))) eqn:Hh; [stuck|].
      cbn zeta. rewrite prefix_step.
      cbn [cluster withCluster logged withPodSpec].
      rewrite faults_store.
      assert (faults (cluster m1) = faults (cluster m)) as ->
        by (by destruct Hc as [->|[s ->]]).
      destruct (faults (cluster m) VGet (primaryKind Stateful) (name a))
        eqn:Hp; [stuck|].
      intros _. by apply Hall.
    - cbn [ret]. cbn zeta. rewrite prefix_step.
      cbn [cluster withCluster logged withPodSpec].
      assert (faults (cluster m1) = faults (cluster m)) as ->
        by (by destruct Hc as [->|[s ->]]).
      destruct (faults (cluster m) VGet (primaryKind Stateless) (name a))
        eqn:Hp; [stuck|].
      intros _. by apply Hall.
    - cbn [ret]. cbn zeta. rewrite prefix_step.
      cbn [cluster withCluster logged withPodSpec].
      assert (faults (cluster m1) = faults (cluster m)) as ->
        by (by destruct Hc as [->|[s ->]]).
      destruct (faults (cluster m) VGet (primaryKind Daemon) (name a))
        eqn:Hp; [stuck|].
      intros _. by apply Hall. }
  destruct (services (cluster m) !! name a) as [svc|] eqn:Hsvc.
  - destruct (applicationPodSpec a config) as [spec|e]; [|stuck].
    destruct (switchDeploymentType (deploymentType a)) as [t|] eqn:Ht.
    2:{ cbn zeta. cbn [cluster logged withStaged withPodSpec withCluster].
        rewrite ?faults_store.
        destruct (faults (cluster m) VList KStorageClass ""); stuck. }
    intros Hne. exists t, spec. split; [done|]. split; [done|].
    match type of Hne with
    | context [withPodSpec _ ?m1] =>
        apply (Hrest t spec m1); [done|by left|done|exact Hne]
    end.
  - rewrite applyResource_run.
    cbn [cluster logged withStaged resourceKind resourceName resourceMeta
         defaultService NewService svcMeta named Name].
    destruct (faults (cluster m) VApply KService (name a)) eqn:Happly;
      [stuck|].
    destruct (applicationPodSpec a config) as [spec|e]; [|stuck].
    destruct (switchDeploymentType (deploymentType a)) as [t|] eqn:Ht.
    2:{ cbn zeta. cbn [cluster logged withStaged withPodSpec withCluster].
        rewrite ?faults_store.
        destruct (faults (cluster m) VList KStorageClass ""); stuck. }
    intros Hne. exists t, spec. split; [done|]. split; [done|].
    match type of Hne with
    | context [withPodSpec _ ?m1] =>
        apply (Hrest t spec m1); [done|right; by eexists|done|exact Hne]
    end.
Qed.

Lemma stagesWorkload_storage secret ops m :
  staged m = secret :: ops →
  isWorkloadKind (opKind secret) = false →
  forallb isStorageOp ops = true →
  stagesWorkload m = false.
Proof.
  intros Hs Hsecret Hops. unfold stagesWorkload. rewrite Hs.
  cbn [existsb]. rewrite Hsecret. cbn [orb].
  apply not_true_is_false. intros Hex.
  apply existsb_exists in Hex as (op & Hin & Hop).
  eapply forallb_forall in Hops; [|exact Hin].
  apply isStorageOp_not_workload in Hops. congruence.
Qed.

(** With more filesystems after the filesystems [pre], a call of [Ensure]
    goes as the call on [pre] alone, unless that call got through the
    storage of its filesystems. *)
Lemma Ensure_more_filesystems a config m pre rest :
  Ensure a (withFilesystems (pre ++ rest) config) m
  = Ensure a (withFilesystems pre config) m
  ∨ stagesWorkload (Ensure a (withFilesystems pre config) m).2 = true.
Proof.
  set (c1 := withFilesystems pre config).
  set (c2 := withFilesystems (pre ++ rest) config).
  rewrite (Ensure_run a c1), (Ensure_run a c2).
  change (annotations a c2) with (annotations a c1).
  change (applicationSecret a c2) with (applicationSecret a c1).
  change (applicationPodSpec a c2) with (applicationPodSpec a c1).
  destruct (configureDefaultService _ _ _) as [[[]|e1] m1]; [|by left].
  destruct (applicationPodSpec a c1) as [spec|e2]; [|by left].
  cbn zeta.
  destruct (faults (cluster m1) VList KStorageClass ""); [by left|].
  destruct (switchDeploymentType (deploymentType a)) as [t|]; [|by left].
  rewrite !ensureBranch_run.
  change (annotations a c2) with (annotations a c1).
  match goal with
  | |- context [match ?h ?m0 with _ => _ end] =>
      destruct (h m0) as [[[]|e3] mh]; [|by left]
  end.
  cbn zeta.
  destruct (getStorageUniqPrefix _ _) as [[uid|e4] m3]; [|by left].
  change (handleVolumeMount c2) with (handleVolumeMount c1).
  change (Filesystems c2) with (pre ++ rest).
  change (Filesystems c1) with pre.
  unfold configureStorage.
  destruct (configureStorageFrom a uid _ _ _ _ 0 pre _ _ _)
    as [[[]|e5] m4] eqn:Hpre.
  - right. unfold stagesWorkload. rewrite runOps_staged.
    cbn [staged withStaged]. rewrite existsb_app. cbn [existsb opKind].
    rewrite workloadResource_kind.
    destruct t; cbn [primaryKind isWorkloadKind orb];
      by rewrite orb_true_r.
  - left. by rewrite (configureStorageFrom_fails _ _ _ _ _ _ _ _ _ _ _ _ _
                        rest Hpre).
Qed.

(** When the call on the filesystems [pre] got through their storage, the
    call with a filesystem after them whose storage name one of them has
    stops at that filesystem. *)
Lemma Ensure_stops a config m pre fs post :
  StorageName fs ∈ (StorageName <$> pre) →
  stagesWorkload (Ensure a (withFilesystems pre config) m).2 = true →
  (Ensure a (withFilesystems (pre ++ fs :: post) config) m).1
  = Err (NotValid ("duplicated storage name " +:+ Quote (StorageName fs)
                   +:+ " for " +:+ Quote (name a)))
  ∧ (∃ w, staged (Ensure a (withFilesystems pre config) m).2
          = staged (Ensure a (withFilesystems (pre ++ fs :: post) config)
                      m).2
            ++ [OpApply w])
  ∧ ∃ t, switchDeploymentType (deploymentType a) = Some t
         ∧ cluster (Ensure a (withFilesystems (pre ++ fs :: post) config)
                      m).2
           = servicesEnsured a config t (cluster m).
Proof.
  set (c1 := withFilesystems pre config).
  set (c2 := withFilesystems (pre ++ fs :: post) config).
  intros Hdup Hreach.
  assert (staged (Ensure a c1 m).2
          ≠ [OpApply (RSecret (applicationSecret a c1))]) as Hne.
  { intros Hs. unfold stagesWorkload in Hreach. by rewrite Hs in Hreach. }
  destruct (Ensure_reached_served a c1 m Hne)
    as (t & spec & Ht & Hspec & Hserved).
  revert Hreach.
  rewrite (Ensure_smooth a c1 m t spec Ht Hspec Hserved),
    (Ensure_smooth a c2 m t spec Ht Hspec Hserved).
  unfold settled.
  change (prepared a c2 t spec m) with (prepared a c1 t spec m).
  change (handleVolumeMount c2) with (handleVolumeMount c1).
  change (Filesystems c2) with (pre ++ fs :: post).
  assert (∀ m3,
            m3 = prepared a c1 t spec m
            ∨ m3 = generated (prepared a c1 t spec m) →
            staged m3 = [OpApply (RSecret (applicationSecret a c1))]
            ∧ cluster m3 = servicesEnsured a config t (cluster m))
    as Hm3.
  { intros m3 [->| ->]; cbn [staged cluster generated];
      by rewrite prepared_staged, prepared_cluster. }
  destruct (match livePrefix _ _ _ with Some _ => _ | None => _ end)
    as [[uid|e] m3] eqn:Hprefix.
  2:{ intros Hreach. exfalso.
      assert (m3 = generated (prepared a c1 t spec m)) as ->
        by (destruct (livePrefix _ _ _); by injection Hprefix).
      destruct (Hm3 _ (or_intror eq_refl)) as [Hs _].
      unfold stagesWorkload in Hreach. cbn [snd] in Hreach.
      by rewrite Hs in Hreach. }
  assert (staged m3 = [OpApply (RSecret (applicationSecret a c1))]
          ∧ cluster m3 = servicesEnsured a config t (cluster m))
    as [Hs3 Hc3].
  { apply Hm3. destruct (livePrefix _ _ _); injection Hprefix as _ <-;
      [by left|by right]. }
  set (m3' := match t with
              | Stateful => withClaimTemplates (fun _ => []) m3
              | _ => m3
              end).
  assert (staged m3' = staged m3 ∧ cluster m3' = cluster m3) as [Hs3' Hc3']
    by (by destruct t).
  pose proof (configureStorage_storageStaged a c1 t uid
                ((map_to_list (storageclasses (cluster m))).*2) m3')
    as (Hc4 & _ & _ & ops & Hs4 & Hops).
  change (Filesystems c1) with pre in *.
  destruct (configureStorage a uid pre _ _ _ _ _ m3')
    as [[[]|e] m4] eqn:Hpre.
  2:{ intros Hreach. exfalso. cbn [snd] in Hreach, Hs4.
      rewrite (stagesWorkload_storage
                 (OpApply (RSecret (applicationSecret a c1))) ops m4)
        in Hreach; [done| |done|done].
      by rewrite Hs4, Hs3', Hs3. }
  intros _. cbn zeta. unfold configureStorage in Hpre |- *.
  rewrite (configureStorageFrom_stops _ _ _ _ _ _ _ _ _ _ _ _ fs post Hpre
             (or_intror Hdup)).
  cbn [fst snd] in *. split; [done|]. split.
  - eexists. rewrite runOps_staged. by cbn [staged withStaged].
  - exists t. split; [done|]. by rewrite Hc4, Hc3', Hc3.
Qed.

(** C3, as the code has it.  With two filesystems of one storage name
    [Ensure] fails in every case.  The Secret is staged first and only
    storage objects after it, no workload object is staged and the batch
    is never run: no object other than a Service is written.  The
    repeated name is found when the loop of [configureStorage] reaches
    the second of the two filesystems.  When the call on the filesystems
    before it gets as far as staging its workload object, as it does when
    it succeeds and also when only its batch is refused, the error is
    NotValid and names the storage and the application; by then the
    default Service and, for a stateful set, the headless Service are
    written, and what is staged is what that call stages before its
    workload object.  Otherwise the call fails as the call on the
    filesystems before it does, with the same error in the same state. *)
Theorem Ensure_duplicate_storage_name a config m j fs :
  Filesystems config !! j = Some fs →
  StorageName fs ∈ (StorageName <$> take j (Filesystems config)) →
  let before :=
    Ensure a (withFilesystems (take j (Filesystems config)) config) m in
  let after := Ensure a config m in
  (∃ e, after.1 = Err e)
  ∧ (∃ ops, staged after.2
            = OpApply (RSecret (applicationSecret a config)) :: ops
            ∧ forallb isStorageOp ops = true)
  ∧ (∀ op, op ∈ staged after.2 → isWorkloadKind (opKind op) = false)
  ∧ sameButServices (cluster m) (cluster after.2)
  ∧ (before.1 = Ok tt → stagesWorkload before.2 = true)
  ∧ (stagesWorkload before.2 = true →
     after.1
     = Err (NotValid ("duplicated storage name "
                      +:+ Quote (StorageName fs)
                      +:+ " for " +:+ Quote (name a)))
     ∧ (∃ w, staged before.2 = staged after.2 ++ [OpApply w])
     ∧ ∃ t, switchDeploymentType (deploymentType a) = Some t
            ∧ cluster after.2 = servicesEnsured a config t (cluster m))
  ∧ (stagesWorkload before.2 = false → after = before).
Proof.
  intros Hj Hdup before after.
  assert (∃ e ops,
            after.1 = Err e
            ∧ staged after.2
              = OpApply (RSecret (applicationSecret a config)) :: ops
            ∧ forallb isStorageOp ops = true
            ∧ sameButServices (cluster m) (cluster after.2))
    as (e & ops & Herr & Hstaged & Hops & Hsame).
  { subst after.
    destruct (Ensure_outcome a config m)
      as [(e & He & Hs & Hc & _)
         |(t & spec & uid & m3 & _ & _ & _ & _ & Hs3 & Hc3 & _ & _ & Hrun)].
    { exists e, []. by rewrite Hs. }
    rewrite Hrun.
    destruct (configureStorageFrom_duplicate a uid (Some handleVolume)
                (handleVolumeMount config) (Some (claimHandler t a))
                (Some handleStorageClass) (Filesystems config) 0%nat ∅
                (storageClassMapOf
                   ((map_to_list (storageclasses (cluster m))).*2))
                m3 j fs Hj (or_intror Hdup)) as [e He].
    fold (configureStorage a uid (Filesystems config)
            ((map_to_list (storageclasses (cluster m))).*2)
            (Some handleVolume) (handleVolumeMount config)
            (Some (claimHandler t a)) (Some handleStorageClass)) in He.
    pose proof (configureStorage_storageStaged a config t uid
                  ((map_to_list (storageclasses (cluster m))).*2) m3)
      as (Hc4 & _ & _ & ops & Hs4 & Hops).
    destruct (configureStorage _ _ _ _ _ _ _ _ m3) as [[[]|e'] m4];
      [done|].
    cbn [fst snd] in *. exists e', ops.
    split; [done|]. split; [by rewrite Hs4, Hs3|]. split; [done|].
    by rewrite Hc4. }
  assert (stagesWorkload after.2 = false) as Hnone
    by (by apply (stagesWorkload_storage
                    (OpApply (RSecret (applicationSecret a config))) ops)).
  assert (after
          = Ensure a
              (withFilesystems
                 (take j (Filesystems config)
                  ++ fs :: drop (S j) (Filesystems config)) config) m)
    as Hafter.
  { rewrite (take_drop_middle _ _ _ Hj). subst after. by destruct config. }
  split; [by exists e|]. split; [by exists ops|]. split.
  { intros op Hin. rewrite Hstaged in Hin.
    apply elem_of_cons in Hin as [->|Hin]; [done|].
    apply list_elem_of_In in Hin.
    eapply forallb_forall in Hops; [|exact Hin].
    by apply isStorageOp_not_workload. }
  split; [done|]. split.
  { intros Hok.
    destruct (Ensure_ok_shape a _ m Hok)
      as (t & spec & uid & m3 & m4 & _ & _ & _ & _ & _ & _ & Hrun).
    subst before. rewrite Hrun. unfold stagesWorkload.
    cbn [snd ran staged withStaged]. rewrite existsb_app.
    cbn [existsb opKind]. rewrite workloadResource_kind.
    destruct t; cbn [primaryKind isWorkloadKind orb];
      by rewrite orb_true_r. }
  split.
  - intros Hreach. rewrite Hafter.
    by apply Ensure_stops.
  - intros Hnot. rewrite Hafter.
    destruct (Ensure_more_filesystems a config m
                (take j (Filesystems config))
                (fs :: drop (S j) (Filesystems config))) as [Heq|Hreach];
      [done|].
    subst before. congruence.
Qed.

End repeated.

(** ** More on [Exists] *)

Section more_exists.
Context `{!Collaborators}.

Lemma asked_nil m : asked [] m = m.
Proof. destruct m. unfold asked. cbn. by rewrite app_nil_r. Qed.

Lemma asked_app l1 l2 m : asked (l1 ++ l2) m = asked l2 (asked l1 m).
Proof. unfold asked. cbn. by rewrite app_assoc. Qed.

(** Checks that send one get each make [runChecks] send one get per check
    at most, and nothing else. *)
Lemma runChecks_asks checks :
  Forall (fun c => ∀ m, ∃ k n, (check c m).2 = asked [(VGet, k, n)] m)
    checks →
  ∀ st m, ∃ log,
    (runChecks checks st m).2 = asked log m
    ∧ (length log ≤ length checks)%nat
    ∧ Forall (fun q => q.1.1 = VGet) log.
Proof.
  induction 1 as [|c checks Hc _ IH]; intros st m.
  { exists []. cbn. by rewrite asked_nil. }
  rewrite runChecks_cons, annotated_run.
  destruct (Hc m) as (k & n & Hm).
  destruct (check c m) as [[[found terminating]|e] m1]; cbn [snd] in Hm;
    subst m1.
  2:{ exists [(VGet, k, n)]. cbn. split; [done|]. split; [lia|].
      by apply Forall_singleton. }
  assert (∀ st', ∃ log,
            (runChecks checks st' (asked [(VGet, k, n)] m)).2 = asked log m
            ∧ (length log ≤ S (length checks))%nat
            ∧ Forall (fun q => q.1.1 = VGet) log) as Hrest.
  { intros st'. destruct (IH st' (asked [(VGet, k, n)] m))
      as (log & -> & Hlen & Hlog).
    exists ([(VGet, k, n)] ++ log). rewrite asked_app.
    split; [done|]. split; [cbn; lia|]. by constructor. }
  destruct (negb found); [apply Hrest|].
  destruct (terminating || forceTerminating c); [|apply Hrest].
  exists [(VGet, k, n)]. cbn. split; [done|]. split; [lia|].
  by apply Forall_singleton.
Qed.

Lemma resourceExists_asks {A} k (store : Cluster → gmap string A) meta n m :
  (resourceExists (getFrom k store) meta n m).2 = asked [(VGet, k, n)] m.
Proof.
  rewrite resourceExists_run. destruct (faults _ _ _ _); [done|].
  by destruct (store _ !! n).
Qed.

(** X1.  [Exists] only reads: whatever it answers, the cluster and the
    variables of the call are as before, and it has sent three requests at
    most, all of them gets.  An error comes with the empty state. *)
Theorem Exists_reads_only a m :
  (∃ log, (Exists a m).2 = asked log m
          ∧ (length log ≤ 3)%nat
          ∧ Forall (fun q => q.1.1 = VGet) log)
  ∧ (∀ e, (Exists a m).1.2 = Some e →
          (Exists a m).1.1 = emptyDeploymentState).
Proof.
  unfold Exists. split.
  - assert ((let '(r, m') := ExistsM a m in
             (orZero emptyDeploymentState r, m')).2 = (ExistsM a m).2) as ->
      by (by destruct (ExistsM a m)).
    destruct (switchDeploymentType (deploymentType a)) as [t|] eqn:Ht.
    + rewrite (ExistsM_run a t m Ht).
      apply runChecks_asks.
      constructor; [|constructor; [|constructor; [|constructor]]].
      * intros m0. exists (primaryKind t), (name a). cbn [check].
        rewrite primary_check_run. destruct (faults _ _ _ _); [done|].
        by destruct (primaryMeta _ _ _).
      * intros m0. eexists _, _. apply resourceExists_asks.
      * intros m0. eexists _, _. apply resourceExists_asks.
    + exists []. rewrite asked_nil. unfold ExistsM.
      rewrite Ht, bind_run. split; [done|]. split; [cbn; lia|done].
  - destruct (ExistsM a m) as [[st|e'] m']; cbn; [done|]. done.
Qed.

(** What [Exists] answers when its gets are served. *)
Lemma ExistsM_served a t m :
  switchDeploymentType (deploymentType a) = Some t →
  faults (cluster m) VGet (primaryKind t) (name a) = None →
  faults (cluster m) VGet KSecret (secretName a) = None →
  faults (cluster m) VGet KService (name a) = None →
  (ExistsM a m).1 =
    Ok {| dsExists := bool_decide (lookedAt a t (cluster m) ≠ []);
          dsTerminating := existsb isMarked (lookedAt a t (cluster m)) |}.
Proof.
  intros Ht Hf1 Hf2 Hf3. rewrite (ExistsM_run a t m Ht).
  assert (∀ st m0,
            cluster m0 = cluster m →
            (runChecks
               [ {| label := "service"; check := serviceExists a;
                    forceTerminating := false |} ] st m0).1
            = Ok match svcMeta <$> services (cluster m) !! name a with
                 | Some o => {| dsExists := true;
                                dsTerminating :=
                                  isMarked o || dsTerminating st |}
                 | None => st
                 end) as Hservice.
  { intros st m0 Hm0. rewrite runChecks_cons, annotated_run.
    cbn [check label forceTerminating runChecks].
    unfold serviceExists, getServiceObject. rewrite resourceExists_run.
    rewrite Hm0, Hf3.
    destruct (services (cluster m) !! name a) as [o|]; [|done].
    cbn [negb fmap option_fmap option_map].
    by destruct (isMarked (svcMeta o)). }
  assert (∀ st m0,
            cluster m0 = cluster m →
            (runChecks
               [ {| label := "secret"; check := secretExists a;
                    forceTerminating := false |};
                 {| label := "service"; check := serviceExists a;
                    forceTerminating := false |} ] st m0).1
            = Ok match secretMeta <$> secrets (cluster m) !! secretName a with
                 | Some o =>
                     if isMarked o
                     then {| dsExists := true; dsTerminating := true |}
                     else
                       match svcMeta <$> services (cluster m) !! name a with
                       | Some o' =>
                           {| dsExists := true;
                              dsTerminating :=
                                isMarked o' || dsTerminating st |}
                       | None => {| dsExists := true;
                                    dsTerminating := dsTerminating st |}
                       end
                 | None =>
                     match svcMeta <$> services (cluster m) !! name a with
                     | Some o' =>
                         {| dsExists := true;
                            dsTerminating :=
                              isMarked o' || dsTerminating st |}
                     | None => st
                     end
                 end) as Hsecret.
  { intros st m0 Hm0. rewrite runChecks_cons, annotated_run.
    cbn [check label forceTerminating].
    unfold secretExists, getSecretObject. rewrite resourceExists_run.
    rewrite Hm0, Hf2.
    destruct (secrets (cluster m) !! secretName a) as [o|];
      cbn [negb fmap option_fmap option_map].
    - destruct (isMarked (secretMeta o)); cbn [orb]; [done|].
      rewrite Hservice by done.
      by destruct (svcMeta <$> services (cluster m) !! name a).
    - by rewrite Hservice. }
  rewrite runChecks_cons, annotated_run. cbn [check label forceTerminating].
  rewrite primary_check_run, Hf1. unfold lookedAt.
  destruct (primaryMeta (cluster m) t (name a)) as [o1|]; cbn [negb].
  - destruct (isMarked o1) eqn:H1; cbn [orb].
    { cbn. by rewrite H1. }
    rewrite Hsecret by done. cbn. rewrite H1. cbn [orb].
    destruct (secrets (cluster m) !! secretName a) as [o2|]; cbn.
    + destruct (isMarked (secretMeta o2)); cbn; [done|].
      destruct (services (cluster m) !! name a) as [o3|]; cbn; [|done].
      by rewrite orb_false_r.
    + destruct (services (cluster m) !! name a) as [o3|]; cbn; [|done].
      by rewrite orb_false_r.
  - rewrite Hsecret by done. cbn.
    destruct (secrets (cluster m) !! secretName a) as [o2|]; cbn.
    + destruct (isMarked (secretMeta o2)); cbn; [done|].
      destruct (services (cluster m) !! name a) as [o3|]; cbn; [|done].
      by rewrite orb_false_r.
    + destruct (services (cluster m) !! name a) as [o3|]; cbn; [|done].
      by rewrite orb_false_r.
Qed.

(** X2.  When its three gets are served, [Exists] answers that the
    application exists if and only if one of the three objects is there,
    the primary workload resource, the Secret or the default Service, and
    that it is terminating if and only if one of those that are there
    carries a deletion timestamp. *)
Theorem Exists_report a t m :
  switchDeploymentType (deploymentType a) = Some t →
  faults (cluster m) VGet (primaryKind t) (name a) = None →
  faults (cluster m) VGet KSecret (secretName a) = None →
  faults (cluster m) VGet KService (name a) = None →
  ∃ state,
    (Exists a m).1 = (state, None)
    ∧ (dsExists state = true ↔ lookedAt a t (cluster m) ≠ [])
    ∧ (dsTerminating state = true
       ↔ ∃ o, o ∈ lookedAt a t (cluster m) ∧ isMarked o = true).
Proof.
  intros Ht Hf1 Hf2 Hf3.
  pose proof (ExistsM_served a t m Ht Hf1 Hf2 Hf3) as Hrun.
  unfold Exists. destruct (ExistsM a m) as [r m']. cbn [fst] in Hrun.
  subst r. eexists. split; [done|]. cbn [dsExists dsTerminating]. split.
  - apply bool_decide_eq_true.
  - rewrite existsb_exists. split.
    + intros (o & Hin & Ho). exists o. by rewrite list_elem_of_In.
    + intros (o & Hin & Ho). exists o. by rewrite <- list_elem_of_In.
Qed.

End more_exists.

(** ** More on [Delete] *)

Section more_delete.
Context `{!Collaborators}.

Lemma slot_deletes k n targets :
  ∀ v, foldl (slotStep k n) v
         ((fun kn : Kind * string => OpDelete kn.1 kn.2) <$> targets)
       = if bool_decide ((k, n) ∈ targets) then None else v.
Proof.
  induction targets as [|[k' n'] targets IH]; intros v.
  { cbn. rewrite bool_decide_eq_false_2; [done|]. apply not_elem_of_nil. }
  cbn [fmap list_fmap foldl slotStep fst snd]. rewrite IH.
  destruct (decide (k' = k ∧ n' = n)) as [[-> ->]|Hne].
  - rewrite (bool_decide_eq_true_2 ((k, n) ∈ (k, n) :: targets));
      [|by left]. by destruct (bool_decide _).
  - destruct (decide ((k, n) ∈ targets)) as [Hin|Hout].
    + rewrite !bool_decide_eq_true_2; [done|by right|done].
    + rewrite !bool_decide_eq_false_2; [done| |done].
      intros [[= -> ->]|?]%elem_of_cons; [by destruct Hne|done].
Qed.

Lemma deleted_kinds a t k n :
  (k, n) ∈ deleted a t →
  k ≠ KPersistentVolumeClaim ∧ k ≠ KStorageClass.
Proof.
  unfold deleted. intros Hin.
  destruct t; cbn [List.app] in Hin;
    repeat (apply elem_of_cons in Hin as [[= -> ->]|Hin]; [done|]);
    by apply elem_of_nil in Hin.
Qed.

Lemma deleted_secret a t : (KSecret, secretName a) ∈ deleted a t.
Proof.
  unfold deleted. apply list_elem_of_further, elem_of_app. right.
  apply list_elem_of_further, list_elem_of_here.
Qed.

Lemma deleted_service a t : (KService, name a) ∈ deleted a t.
Proof.
  unfold deleted. apply list_elem_of_further, elem_of_app. right.
  apply list_elem_of_here.
Qed.

(** [Delete] when none of its deletions is refused. *)
Lemma Delete_served a t m :
  switchDeploymentType (deploymentType a) = Some t →
  Forall (fun kn => faults (cluster m) VDelete kn.1 kn.2 = None)
    (deleted a t) →
  let ops := (fun kn : Kind * string => OpDelete kn.1 kn.2) <$> deleted a t in
  Delete a m = (Ok tt, ran ops (withStaged (fun _ => ops) m)).
Proof.
  intros Ht Hserved ops. rewrite Delete_run, Ht. cbn zeta.
  assert (OpDelete (primaryKind t) (name a)
          :: match t with
             | Stateful =>
                 [OpDelete KService (headlessServiceName (name a))]
             | _ => []
             end
          ++ [OpDelete KService (name a); OpDelete KSecret (secretName a)]
          = ops) as -> by (by destruct t).
  apply runOps_run. subst ops. apply Forall_fmap.
  eapply Forall_impl; [exact Hserved|]. by intros [k n].
Qed.

(** X3.  On a recognised topology, when none of its deletions is refused,
    [Delete] succeeds, whether the objects are there or not.  Afterwards
    the primary workload resource, the default Service, the Secret and,
    for a stateful set, the headless Service are gone, and every other
    object of the cluster is as it was: the claims and the storage classes
    that [Ensure] created stay. *)
Theorem Delete_removes a t m :
  switchDeploymentType (deploymentType a) = Some t →
  Forall (fun kn => faults (cluster m) VDelete kn.1 kn.2 = None)
    (deleted a t) →
  (Delete a m).1 = Ok tt
  ∧ (∀ k n, objects k (cluster (Delete a m).2) !! n
            = if bool_decide ((k, n) ∈ deleted a t) then None
              else objects k (cluster m) !! n)
  ∧ claims (cluster (Delete a m).2) = claims (cluster m)
  ∧ storageclasses (cluster (Delete a m).2) = storageclasses (cluster m).
Proof.
  intros Ht Hserved. rewrite (Delete_served a t m Ht Hserved).
  cbn [fst snd ran cluster withStaged]. split; [done|]. split; [|split].
  - intros k n. by rewrite objects_effects, slot_deletes.
  - apply (map_fmap_inj RPersistentVolumeClaim); [by intros ?? [=]|].
    apply (effects_frame KPersistentVolumeClaim).
    apply Forall_fmap, Forall_forall. intros [k n] Hin. cbn.
    by apply deleted_kinds in Hin as [? _].
  - apply (map_fmap_inj RStorageClass); [by intros ?? [=]|].
    apply (effects_frame KStorageClass).
    apply Forall_fmap, Forall_forall. intros [k n] Hin. cbn.
    by apply deleted_kinds in Hin as [_ ?].
Qed.

(** X4.  After a [Delete] that succeeded this way, [Exists] answers that
    the application does not exist, when its gets are served. *)
Theorem Delete_then_Exists a t m :
  switchDeploymentType (deploymentType a) = Some t →
  Forall (fun kn => faults (cluster m) VDelete kn.1 kn.2 = None)
    (deleted a t) →
  faults (cluster m) VGet (primaryKind t) (name a) = None →
  faults (cluster m) VGet KSecret (secretName a) = None →
  faults (cluster m) VGet KService (name a) = None →
  (Delete a m).1 = Ok tt
  ∧ (Exists a (Delete a m).2).1 = (emptyDeploymentState, None).
Proof.
  intros Ht Hserved Hf1 Hf2 Hf3.
  rewrite (Delete_served a t m Ht Hserved). cbn [fst snd]. split; [done|].
  set (ops := (fun kn : Kind * string => OpDelete kn.1 kn.2)
                <$> deleted a t).
  set (m' := ran ops (withStaged (fun _ => ops) m)).
  assert (faults (cluster m') = faults (cluster m)) as Hfaults
    by apply faults_effects.
  assert (∀ k n, (k, n) ∈ deleted a t →
                 objects k (cluster m') !! n = None) as Hgone.
  { intros k n Hin. subst m'. cbn [ran cluster withStaged].
    rewrite objects_effects. subst ops. rewrite slot_deletes.
    by rewrite bool_decide_eq_true_2. }
  assert (lookedAt a t (cluster m') = []) as Hnone.
  { unfold lookedAt.
    rewrite primaryMeta_objects, (Hgone (primaryKind t) (name a))
      by (by left).
    assert (secrets (cluster m') !! secretName a = None) as ->.
    { pose proof (Hgone KSecret (secretName a)) as Hs.
      cbn [objects] in Hs. rewrite lookup_fmap, fmap_None in Hs.
      apply Hs, deleted_secret. }
    assert (services (cluster m') !! name a = None) as ->.
    { pose proof (Hgone KService (name a)) as Hs.
      cbn [objects] in Hs. rewrite lookup_fmap, fmap_None in Hs.
      apply Hs, deleted_service. }
    done. }
  pose proof (ExistsM_served a t m' Ht) as Hrun.
  rewrite Hfaults, Hnone in Hrun. specialize (Hrun Hf1 Hf2 Hf3).
  unfold Exists. destruct (ExistsM a m') as [r m'']. cbn [fst] in Hrun.
  by subst r.
Qed.

End more_delete.

(** ** More on [State] *)

Section more_state.
Context `{!Collaborators}.

Lemma desiredReplicas_asks a m :
  ∃ log, (desiredReplicas a m).2 = asked log m
         ∧ (length log ≤ 1)%nat
         ∧ Forall (fun q => q.1.1 = VGet) log.
Proof.
  destruct (switchDeploymentType (deploymentType a)) as [t|] eqn:Ht.
  - exists [(VGet, primaryKind t, name a)].
    rewrite (desiredReplicas_run a t m Ht).
    split; [by destruct (faults _ _ _ _)|]. split; [done|].
    by apply Forall_singleton.
  - exists []. rewrite asked_nil. unfold desiredReplicas. rewrite Ht.
    split; [done|]. split; [cbn; lia|done].
Qed.

Lemma listReplicas_asks fuel :
  ∀ next acc m,
    ∃ log, (listReplicas fuel next acc m).2 = asked log m
           ∧ (length log ≤ fuel)%nat
           ∧ Forall (fun q => q.1 = (VList, KPod)) log.
Proof.
  induction fuel as [|fuel IH]; intros next acc m.
  { exists []. rewrite asked_nil. split; [done|]. split; [cbn; lia|done]. }
  cbn [listReplicas]. rewrite bind_run, listPods_run.
  assert (∃ log, logged VList KPod next m = asked log m
                 ∧ (length log ≤ S fuel)%nat
                 ∧ Forall (fun q => q.1 = (VList, KPod)) log) as Hone.
  { exists [(VList, KPod, next)]. split; [done|]. split; [cbn; lia|].
    by apply Forall_singleton. }
  destruct (faults (cluster m) VList KPod next); [done|].
  destruct (podPages (cluster m) next) as [pg|e]; [|done].
  destruct (noneRemaining pg); [done|].
  destruct (IH (Continue pg)
              (acc ++ map (fun pod => Name (podMeta pod)) (Items pg))
              (logged VList KPod next m)) as (log & -> & Hlen & Hlog).
  exists ([(VList, KPod, next)] ++ log). rewrite asked_app.
  split; [done|]. split; [cbn; lia|]. by constructor.
Qed.

(** X9.  [State] only reads: the cluster and the variables of the call
    are as before, and it has sent the get of the workload resource and
    then nothing but listings of pods. *)
Theorem State_reads_only a fuel m r m' :
  State a fuel m = Some (r, m') →
  ∃ gets lists,
    m' = asked (gets ++ lists) m
    ∧ (length gets ≤ 1)%nat ∧ Forall (fun q => q.1.1 = VGet) gets
    ∧ (length lists ≤ fuel)%nat
    ∧ Forall (fun q => q.1 = (VList, KPod)) lists.
Proof.
  rewrite State_run.
  destruct (desiredReplicas_asks a m) as (gets & Hm1 & Hlen1 & Hgets).
  destruct (desiredReplicas a m) as [[desired|e] m1]; cbn [snd] in Hm1.
  2:{ intros [= _ <-]. exists gets, []. rewrite app_nil_r.
      do 3 (split; [done|]). split; [cbn; lia|done]. }
  destruct (listReplicas_asks fuel "" [] m1) as (lists & Hm2 & Hlen2 & Hlists).
  destruct (listReplicas fuel "" [] m1) as [[[names|]|e] m2];
    cbn [snd] in Hm2; [| |]; try done.
  all: intros [= _ <-]; exists gets, lists.
  all: by rewrite asked_app, <- Hm1, <- Hm2.
Qed.

(** X10.  When the get of the workload resource fails, [State] returns
    its error with the empty state and lists no pods; the error is
    not-found when the server serves the get and the object is not
    there. *)
Theorem State_without_workload a t fuel m :
  switchDeploymentType (deploymentType a) = Some t →
  is_Some (faults (cluster m) VGet (primaryKind t) (name a))
  ∨ primaryMeta (cluster m) t (name a) = None →
  ∃ e,
    State a fuel m
    = Some ((emptyApplicationState, Some e),
            logged VGet (primaryKind t) (name a) m)
    ∧ (faults (cluster m) VGet (primaryKind t) (name a) = None →
       IsNotFound e = true).
Proof.
  intros Ht Hfail. rewrite State_run, (desiredReplicas_run a t m Ht).
  destruct (faults (cluster m) VGet (primaryKind t) (name a)) as [msg|].
  { eexists. split; [reflexivity|done]. }
  destruct Hfail as [[? [=]]|Hnone].
  exists (NotFound (name a)). split; [|done].
  destruct t; cbn [primaryMeta] in Hnone; apply fmap_None in Hnone;
    by rewrite Hnone.
Qed.

End more_state.

(** ** More on [applicationPodSpec] *)

Section more_podspec.
Context `{!Collaborators}.

Lemma applicationPodSpec_ok a config spec :
  applicationPodSpec a config = Ok spec →
  ∃ selector,
    nodeSelector (Constraints config) = Ok selector
    ∧ spec =
        let containerNames :=
          sortStrings (ccName <$> (map_to_list (ccContainers config)).*2) in
        {| AutomountServiceAccountToken := Some false;
           NodeSelector := selector;
           InitContainers := [initContainer a config containerNames];
           Containers :=
             unitContainer config containerNames
               :: map workloadContainer (sortedContainers config);
           Volumes := [ {| volName := charmVolumeName;
                           volSource := EmptyDirSource |} ] |}.
Proof.
  unfold applicationPodSpec.
  destruct (nodeSelector (Constraints config)) as [selector|e]; [|done].
  intros [= <-]. by exists selector.
Qed.

(** The workload containers come in the order of the sorted names. *)
Lemma sortedContainers_names config :
  ccName <$> sortedContainers config
  = sortStrings (ccName <$> (map_to_list (ccContainers config)).*2).
Proof.
  unfold sortedContainers, sortStrings.
  set (configured := (map_to_list (ccContainers config)).*2).
  set (R := fun x y : ContainerConfig => String.le (ccName x) (ccName y)).
  assert (Total R) as Htotal.
  { intros x y. apply (total String.le). }
  apply (Sorted_unique String.le).
  - apply (Sorted_fmap _ R String.le); [done|].
    by apply Sorted_merge_sort.
  - by apply Sorted_merge_sort, _.
  - rewrite !merge_sort_Permutation. done.
Qed.

(** X5.  The pod spec of an application has one init container,
    charm-init, which takes its environment from the Secret of the
    application, and the charm container followed by one container per
    configured container, in the ascending order of their names.  The
    charm-init and the charm container are told these names in that order,
    joined by commas, and each workload container its own name. *)
Theorem applicationPodSpec_containers a config spec :
  applicationPodSpec a config = Ok spec →
  let configured := ccName <$> (map_to_list (ccContainers config)).*2 in
  ∃ unit workloads init,
    Containers spec = unit :: workloads
    ∧ InitContainers spec = [init]
    ∧ cName unit = unitContainerName
    ∧ cName init = "charm-init"
    ∧ cEnvFromSecret init = [secretName a]
    ∧ Sorted String.le (cName <$> workloads)
    ∧ cName <$> workloads ≡ₚ configured
    ∧ cEnv unit !! 0%nat
      = Some ("JUJU_CONTAINER_NAMES",
              EnvLiteral (Join (cName <$> workloads) ","))
    ∧ cEnv init !! 0%nat
      = Some ("JUJU_CONTAINER_NAMES",
              EnvLiteral (Join (cName <$> workloads) ","))
    ∧ Forall (fun c => cEnv c !! 0%nat
                       = Some ("JUJU_CONTAINER_NAME", EnvLiteral (cName c)))
        workloads.
Proof.
  intros Hspec configured.
  apply applicationPodSpec_ok in Hspec as (selector & _ & ->). cbn zeta.
  eexists _, _, _. do 5 (split; [reflexivity|]).
  assert (cName <$> map workloadContainer (sortedContainers config)
          = sortStrings configured) as Hnames.
  { unfold configured. rewrite <- sortedContainers_names.
    change (map workloadContainer (sortedContainers config))
      with (workloadContainer <$> sortedContainers config).
    rewrite <- list_fmap_compose. done. }
  cbn [Containers InitContainers]. rewrite Hnames.
  split; [apply Sorted_merge_sort, _|].
  split; [apply merge_sort_Permutation|].
  split; [done|]. split; [done|].
  apply Forall_forall. intros c Hc.
  apply list_elem_of_In, in_map_iff in Hc as (v & <- & _). done.
Qed.

(** X6.  The pod spec of an application has the one volume charm-data, an
    empty directory, and every volume mount of its containers, the init
    container among them, is a mount of that volume; the service account
    token is not mounted. *)
Theorem applicationPodSpec_mounts a config spec :
  applicationPodSpec a config = Ok spec →
  Volumes spec = [ {| volName := charmVolumeName;
                      volSource := EmptyDirSource |} ]
  ∧ AutomountServiceAccountToken spec = Some false
  ∧ ∀ c vm, c ∈ InitContainers spec ++ Containers spec →
            vm ∈ cVolumeMounts c →
            vmName vm = charmVolumeName
            ∧ ∃ v, v ∈ Volumes spec ∧ volName v = vmName vm.
Proof.
  intros Hspec.
  apply applicationPodSpec_ok in Hspec as (selector & _ & ->). cbn zeta.
  split; [done|]. split; [done|].
  intros c vm Hc Hvm.
  assert (vmName vm = charmVolumeName) as Hname.
  { cbn [InitContainers Containers List.app] in Hc.
    apply elem_of_cons in Hc as [->|Hc].
    { cbn [initContainer cVolumeMounts] in Hvm.
      repeat (apply elem_of_cons in Hvm as [->|Hvm]; [done|]).
      by apply elem_of_nil in Hvm. }
    apply elem_of_cons in Hc as [->|Hc].
    { cbn [unitContainer cVolumeMounts] in Hvm.
      repeat (apply elem_of_cons in Hvm as [->|Hvm]; [done|]).
      by apply elem_of_nil in Hvm. }
    apply list_elem_of_In, in_map_iff in Hc as (v & <- & _).
    cbn [workloadContainer cVolumeMounts] in Hvm.
    repeat (apply elem_of_cons in Hvm as [->|Hvm]; [done|]).
    by apply elem_of_nil in Hvm. }
  split; [done|]. eexists. split; [by left|by rewrite Hname].
Qed.

(** X7.  [applicationPodSpec] fails on one input only: an architecture
    constraint that does not normalise to amd64, arm64, ppc64el or s390x,
    with a not-supported error that names the normalised architecture as
    the verb %q prints it.
    With a supported one, the pods are bound to nodes of that
    architecture by its Go name (ppc64le for ppc64el); without an
    architecture constraint there is no node selector. *)
Theorem applicationPodSpec_arch a config :
  let wanted := NormaliseArch (default "" (Arch (Constraints config))) in
  match applicationPodSpec a config with
  | Ok spec =>
      if HasArch (Constraints config)
      then wanted ∈ ["amd64"; "arm64"; "ppc64el"; "s390x"]
           ∧ NodeSelector spec
             = {["kubernetes.io/arch" :=
                   (if String.eqb wanted "ppc64el" then "ppc64le"
                    else wanted)]}
      else NodeSelector spec = ∅
  | Err e =>
      HasArch (Constraints config) = true
      ∧ (wanted ∉ ["amd64"; "arm64"; "ppc64el"; "s390x"])
      ∧ e = NotSupported ("architecture " +:+ Quote wanted)
  end.
Proof.
  intros wanted. unfold applicationPodSpec, nodeSelector. fold wanted.
  destruct (HasArch (Constraints config)); [|done].
  unfold goArch.
  destruct (String.eqb wanted "amd64") eqn:H1.
  { apply String.eqb_eq in H1. rewrite H1. cbn. split; [by left|done]. }
  destruct (String.eqb wanted "arm64") eqn:H2.
  { apply String.eqb_eq in H2. rewrite H2. cbn.
    split; [right; by left|done]. }
  destruct (String.eqb wanted "ppc64el") eqn:H3.
  { apply String.eqb_eq in H3. rewrite H3. cbn.
    split; [do 2 right; by left|done]. }
  destruct (String.eqb wanted "s390x") eqn:H4.
  { apply String.eqb_eq in H4. rewrite H4. cbn.
    split; [do 3 right; by left|done]. }
  split; [done|]. split; [|done].
  apply String.eqb_neq in H1, H2, H3, H4.
  intros Hin.
  repeat (apply elem_of_cons in Hin as [?|Hin]; [done|]).
  by apply elem_of_nil in Hin.
Qed.

(** X8.  Resource requests go on the charm container alone.  A CPU power
    constraint below 2^63 is requested as so many millicores and a memory
    constraint below 2^43 megabytes as so many bytes; a constraint that
    is absent or zero requests nothing. *)
Theorem applicationPodSpec_requests a config spec :
  applicationPodSpec a config = Ok spec →
  ∃ unit workloads,
    Containers spec = unit :: workloads
    ∧ Forall (fun c => cRequests c = ∅) (InitContainers spec ++ workloads)
    ∧ (∀ p, CpuPower (Constraints config) = Some p → 0 < p < 2 ^ 63 →
            cRequests unit !! "cpu" = Some (MilliQuantity p))
    ∧ (∀ q, Mem (Constraints config) = Some q → 0 < q < 2 ^ 43 →
            cRequests unit !! "memory"
            = Some (BinaryQuantity (q * 1048576)))
    ∧ (HasCpuPower (Constraints config) = false →
       cRequests unit !! "cpu" = None)
    ∧ (HasMem (Constraints config) = false →
       cRequests unit !! "memory" = None).
Proof.
  intros Hspec.
  apply applicationPodSpec_ok in Hspec as (selector & _ & ->). cbn zeta.
  eexists _, _. split; [reflexivity|].
  cbn [InitContainers Containers unitContainer cRequests List.app].
  split.
  { constructor; [done|]. apply Forall_forall. intros c Hc.
    apply list_elem_of_In, in_map_iff in Hc as (v & <- & _). done. }
  unfold resourceRequests, HasCpuPower, HasMem.
  split; [|split; [|split]].
  - intros p -> Hp. cbn [default from_option id].
    assert ((0 <? p) = true) as -> by (apply Z.ltb_lt; lia).
    assert (int64 (int64 p) = p) as ->.
    { unfold int64. rewrite (Z.mod_small p) by lia.
      assert ((p <? 2 ^ 63) = true) as -> by (apply Z.ltb_lt; lia).
      rewrite (Z.mod_small p) by lia.
      by assert ((p <? 2 ^ 63) = true) as -> by (apply Z.ltb_lt; lia). }
    destruct (match Mem (Constraints config) with
              | Some q => 0 <? q
              | None => false
              end).
    + rewrite lookup_insert_ne by done. by rewrite lookup_insert_eq.
    + by rewrite lookup_insert_eq.
  - intros q -> Hq. cbn [default from_option id].
    assert ((0 <? q) = true) as -> by (apply Z.ltb_lt; lia).
    rewrite lookup_insert_eq. do 2 f_equal.
    unfold int64, uint64.
    rewrite (Z.mod_small (q * 1024 * 1024)) by lia.
    rewrite (Z.mod_small (q * 1024 * 1024)) by lia.
    assert ((q * 1024 * 1024 <? 2 ^ 63) = true) as ->
      by (apply Z.ltb_lt; lia).
    lia.
  - intros ->.
    destruct (match Mem (Constraints config) with
              | Some q => 0 <? q
              | None => false
              end); [by rewrite lookup_insert_ne|done].
  - intros ->.
    by destruct (match CpuPower (Constraints config) with
                 | Some q => 0 <? q
                 | None => false
                 end); [rewrite lookup_insert_ne by done|];
       rewrite ?lookup_empty.
Qed.

End more_podspec.

(** ** What [Ensure] does not do *)

Section ensure_frame.
Context `{!Collaborators}.

(** An invariant that nothing but a deletion could break holds along a
    call of [Ensure], and the call stages applies only. *)
Lemma Ensure_keeps I a config :
  appliesOnly I →
  ∀ m, I m →
       I (Ensure a config m).2
       ∧ Forall (fun op => isApply op = true) (staged (Ensure a config m).2).
Proof.
  intros (Hlog & Hstore & Hstaged & Hpod & Htpl & Hgen) m Hm.
  set (K := fun m' : Machine =>
              I m' ∧ Forall (fun op => isApply op = true) (staged m')).
  change (K (Ensure a config m).2).
  assert (∀ v k n m', K m' → K (logged v k n m')) as Klog.
  { intros v k n m' [? ?]. split; [by apply Hlog|done]. }
  assert (∀ r m', K m' → K (withCluster (store r) m')) as Kstore.
  { intros r m' [? ?]. split; [by apply Hstore|done]. }
  assert (∀ f m', K m' → K (withPodSpec f m')) as Kpod.
  { intros f m' [? ?]. split; [by apply Hpod|done]. }
  assert (∀ f m', K m' → K (withClaimTemplates f m')) as Ktpl.
  { intros f m' [? ?]. split; [by apply Htpl|done]. }
  assert (∀ r m', K m' →
                  K (withStaged (fun ops => ops ++ [OpApply r]) m'))
    as Kstage.
  { intros r m' [? ?]. split; [by apply Hstaged|].
    cbn [staged withStaged]. apply Forall_app; split; [done|].
    by apply Forall_singleton. }
  assert (servicesOnly K) as Ksvc.
  { split; [done|]. intros s m'. apply Kstore. }
  rewrite Ensure_run.
  set (m0 := withStaged
               (fun _ => [OpApply (RSecret (applicationSecret a config))])
               m).
  assert (K m0) as H0.
  { split; [by apply Hstaged|]. by apply Forall_singleton. }
  pose proof (preserves_configureDefaultService K a (annotations a config)
                Ksvc m0 H0) as H1.
  destruct (configureDefaultService _ _ m0) as [[[]|e] m1]; cbn [snd] in H1;
    [|done].
  destruct (applicationPodSpec a config) as [spec|e]; [|done].
  cbn zeta.
  assert (K (logged VList KStorageClass ""
               (withPodSpec (fun _ => spec) m1))) as H2
    by (by apply Klog, Kpod).
  destruct (faults (cluster m1) VList KStorageClass ""); [done|].
  destruct (switchDeploymentType (deploymentType a)) as [t|]; [|done].
  set (m2 := logged VList KStorageClass ""
               (withPodSpec (fun _ => spec) m1)) in *.
  (* the branch of the topology *)
  assert (K (ensureBranch t a config
               ((map_to_list (storageclasses (cluster m1))).*2) m2).2)
    as H4.
  { rewrite ensureBranch_run.
    set (headless := match t return M unit with
                     | Stateful => _
                     | _ => ret tt
                     end).
    assert (preserves K headless) as Hh.
    { subst headless. destruct t; try apply preserves_ret.
      by apply preserves_annotated, preserves_configureHeadlessService. }
    specialize (Hh m2 H2).
    destruct (headless m2) as [[[]|e] mh]; cbn [snd] in Hh; [|done].
    cbn zeta. rewrite getStorageUniqPrefix_run.
    set (mg := logged VGet (primaryKind t) (name a) mh).
    assert (K mg) as Hg by (by apply Klog).
    assert (K (callRandomPrefix mg).2) as Hrandom.
    { rewrite callRandomPrefix_run. cbn [snd]. destruct Hg as [? ?].
      split; [by apply Hgen|done]. }
    assert (∀ uid m3, K m3 →
              K (match
                   configureStorage a uid (Filesystems config)
                     ((map_to_list (storageclasses (cluster m1))).*2)
                     (Some handleVolume) (handleVolumeMount config)
                     (Some (claimHandler t a)) (Some handleStorageClass)
                     match t with
                     | Stateful => withClaimTemplates (fun _ => []) m3
                     | _ => m3
                     end
                 with
                 | (Err e, m4) => (@Err unit e, m4)
                 | (Ok _, m4) =>
                     (Ok tt,
                      withStaged
                        (fun ops =>
                           ops ++ [OpApply
                                     (workloadResource t a config uid
                                        (initialReplicas t
                                           (primaryGet (cluster mh) t
                                              (name a)))
                                        (podSpec m3) (podSpec m4)
                                        (claimTemplates m4))]) m4)
                 end).2) as Hstorage.
    { intros uid m3 H3.
      set (m3' := match t with
                  | Stateful => withClaimTemplates (fun _ => []) m3
                  | _ => m3
                  end).
      assert (K m3') as H3' by (subst m3'; destruct t; [by apply Ktpl|done..]).
      pose proof (preserves_configureStorageFrom K a uid
                    (Some handleVolume) (handleVolumeMount config)
                    (Some (claimHandler t a)) (Some handleStorageClass)
                    (Filesystems config)) as Hcs.
      unfold configureStorage.
      specialize (Hcs
        ltac:(intros h v mp ro [= <-]; by apply preserves_handleVolume)
        ltac:(intros sn vm; by apply preserves_handleVolumeMount)).
      assert (preserves K
                (configureStorageFrom a uid (Some handleVolume)
                   (handleVolumeMount config) (Some (claimHandler t a))
                   (Some handleStorageClass) 0 (Filesystems config) ∅
                   (storageClassMapOf
                      ((map_to_list (storageclasses (cluster m1))).*2))))
        as Hloop.
      { apply Hcs; [| |done].
        - intros h fs classes v p sc mp ro [= <-] _ _.
          destruct t; cbn [claimHandler].
          + apply preserves_handlePVCForStatefulSet.
            intros m' ts _. apply Ktpl.
          + apply preserves_handlePVCForStatelessResource; [done|].
            intros m'. apply Kstage.
          + apply preserves_handlePVCForStatelessResource; [done|].
            intros m'. apply Kstage.
        - intros h fs classes v p sc [= <-] _ _.
          apply preserves_applierApply. intros m'. apply Kstage. }
      specialize (Hloop m3' H3').
      destruct (configureStorageFrom _ _ _ _ _ _ _ _ _ _ m3')
        as [[[]|e] m4]; cbn [snd] in Hloop |- *; [|done].
      by apply Kstage. }
    destruct (annotationsOf id (primaryGet (cluster mh) t (name a)))
      as [annots|e].
    - cbn zeta.
      match goal with
      | |- context [(0 <? ?n)%nat] => destruct (0 <? n)%nat
      end.
      + by apply Hstorage.
      + destruct (callRandomPrefix mg) as [[uid|e] m3]; [|done].
        by apply Hstorage.
    - destruct (IsNotFound e); [|done].
      destruct (callRandomPrefix mg) as [[uid|e'] m3]; [|done].
      by apply Hstorage. }
  destruct (ensureBranch t a config _ m2) as [[[]|e] m4]; cbn [snd] in H4;
    [|done].
  apply (preserves_runOps K (staged m4)); [done| |done].
  intros op m' Hop Hm'. destruct H4 as [_ Happ].
  pose proof (proj1 (Forall_forall _ _) Happ op Hop) as Happly.
  destruct op as [r|]; [|done]. by apply Kstore.
Qed.

(** X11.  [Ensure] never deletes: whether it succeeds or fails, every op
    it has staged is an apply, and every object that was in the cluster,
    of whatever kind and name, is still there. *)
Theorem Ensure_never_deletes a config m :
  Forall (fun op => isApply op = true) (staged (Ensure a config m).2)
  ∧ ∀ k n, is_Some (objects k (cluster m) !! n) →
           is_Some (objects k (cluster (Ensure a config m).2) !! n).
Proof.
  set (I := fun m' : Machine =>
              ∀ k n, is_Some (objects k (cluster m) !! n) →
                     is_Some (objects k (cluster m') !! n)).
  assert (appliesOnly I) as Hstable.
  { repeat split; try done.
    intros r m' Hm' k n Hin. cbn [cluster withCluster].
    rewrite objects_store. case_decide; [|by apply Hm'].
    destruct (decide (resourceName r = n)) as [->|Hne].
    - by rewrite lookup_insert_eq.
    - rewrite lookup_insert_ne by done. by apply Hm'. }
  destruct (Ensure_keeps I a config Hstable m) as [Hobjects Hstaged];
    [by intros k n Hin|].
  split; [exact Hstaged|exact Hobjects].
Qed.

End ensure_frame.

(** ** The batch of [Ensure] *)

Section ensure_batch.
Context `{!Collaborators}.

Lemma runOps_locals ops m :
  podSpec (runOps ops m).2 = podSpec m
  ∧ claimTemplates (runOps ops m).2 = claimTemplates m.
Proof.
  by apply (preserves_runOps
              (fun m' => podSpec m' = podSpec m
                         ∧ claimTemplates m' = claimTemplates m)).
Qed.

(** A batch fails on an op that the server refuses, with the server's
    error. *)
Lemma runOps_refused ops :
  ∀ m e m', runOps ops m = (Err e, m') →
            ∃ op msg, op ∈ ops ∧ refused (cluster m) op = Some msg
                      ∧ e = Foreign msg.
Proof.
  induction ops as [|op ops IH]; intros m e m'; [done|].
  cbn [runOps]. rewrite bind_run, process_run.
  destruct (refused (cluster m) op) as [msg|] eqn:Hop.
  { intros [= <- _]. exists op, msg. split; [by left|done]. }
  intros Hrest. apply IH in Hrest as (op' & msg & Hin & Hr & ->).
  exists op', msg. split; [by right|]. split; [|done].
  revert Hr. unfold refused, ran. cbn [cluster].
  by rewrite faults_effects.
Qed.

(** What is staged when a call of [Ensure] returns: the Secret, storage
    objects, and the workload object last if the call came that far. *)
Lemma Ensure_staged a config m :
  (staged (Ensure a config m).2
   = [OpApply (RSecret (applicationSecret a config))]
   ∨ ∃ sops, staged (Ensure a config m).2
             = [OpApply (RSecret (applicationSecret a config))] ++ sops
             ∧ forallb isStorageOp sops = true
             ∧ ∃ e, (Ensure a config m).1 = Err e)
  ∨ ∃ t spec uid replicas sops,
      switchDeploymentType (deploymentType a) = Some t
      ∧ applicationPodSpec a config = Ok spec
      ∧ forallb isStorageOp sops = true
      ∧ staged (Ensure a config m).2
        = [OpApply (RSecret (applicationSecret a config))] ++ sops
          ++ [OpApply (workloadResource t a config uid replicas spec
                         (podSpec (Ensure a config m).2)
                         (claimTemplates (Ensure a config m).2))].
Proof.
  destruct (Ensure_outcome a config m)
    as [(e & He & Hs & _)
       |(t & spec & uid & m3 & Ht & Hspec & Hf & Hset & Hs3 & Hc3 & Hp3 & _
         & Hrun)].
  { left. by left. }
  pose proof (configureStorage_storageStaged a config t uid
                ((map_to_list (storageclasses (cluster m))).*2) m3)
    as (_ & _ & _ & sops & Hs4 & Hsops).
  rewrite Hrun.
  destruct (configureStorage _ _ _ _ _ _ _ _ m3) as [[[]|e] m4];
    cbn [snd] in Hs4.
  2:{ left. right. exists sops. cbn [fst snd]. rewrite Hs4, Hs3.
      split; [done|]. split; [done|]. by exists e. }
  cbn zeta. right.
  eexists t, spec, uid, _, sops. split; [done|]. split; [done|].
  split; [done|].
  rewrite runOps_staged. cbn [staged withStaged].
  destruct (runOps_locals
              (staged m4
               ++ [OpApply
                     (workloadResource t a config uid
                        (initialReplicas t
                           (primaryGet (cluster m) t (name a)))
                        spec (podSpec m4) (claimTemplates m4))])
              (withStaged
                 (fun ops =>
                    ops ++ [OpApply
                              (workloadResource t a config uid
                                 (initialReplicas t
                                    (primaryGet (cluster m) t (name a)))
                                 spec (podSpec m4) (claimTemplates m4))])
                 m4)) as [-> ->].
  cbn [podSpec claimTemplates withStaged]. by rewrite Hs4, Hs3, <- app_assoc.
Qed.

(** X12.  When [Ensure] fails, either the server refused to apply an
    object of the batch, and the error is the server's, or the batch was
    not run and the cluster is as it was but for Services. *)
Theorem Ensure_failure a config m e :
  (Ensure a config m).1 = Err e →
  sameButServices (cluster m) (cluster (Ensure a config m).2)
  ∨ ∃ op msg, op ∈ staged (Ensure a config m).2
              ∧ isApply op = true
              ∧ faults (cluster m) VApply (opKind op) (opName op) = Some msg
              ∧ e = Foreign msg.
Proof.
  destruct (Ensure_outcome a config m)
    as [(e' & He & Hs & Hsame & _)
       |(t & spec & uid & m3 & Ht & Hspec & Hf & Hset & Hs3 & Hc3 & Hp3 & _
         & Hrun)].
  { intros _. by left. }
  pose proof (configureStorage_storageStaged a config t uid
                ((map_to_list (storageclasses (cluster m))).*2) m3)
    as (Hc4 & _ & _ & sops & Hs4 & Hsops).
  rewrite Hrun.
  destruct (configureStorage _ _ _ _ _ _ _ _ m3) as [[[]|e1] m4];
    cbn [snd] in Hc4, Hs4.
  2:{ intros _. left. cbn [snd]. by rewrite Hc4. }
  cbn zeta. set (w := workloadResource _ _ _ _ _ _ _ _).
  rewrite runOps_staged. cbn [staged withStaged].
  destruct (runOps _ _) as [[[]|e2] m5] eqn:Hbatch; [done|].
  intros [= ->]. right.
  apply runOps_refused in Hbatch as (op & msg & Hin & Hr & ->).
  exists op, msg. split; [done|].
  assert (isApply op = true) as Happly.
  { rewrite Hs4, Hs3 in Hin.
    apply elem_of_app in Hin as [Hin|Hin%list_elem_of_singleton];
      [|by subst op].
    apply elem_of_cons in Hin as [->|Hin]; [done|].
    apply list_elem_of_In in Hin.
    eapply forallb_forall in Hsops; [|exact Hin].
    by apply andb_prop in Hsops as [? _]. }
  split; [done|]. split; [|done].
  revert Hr. unfold refused. cbn [cluster withStaged]. rewrite Hc4.
  destruct Hc3 as (_ & _ & _ & _ & _ & _ & _ & ->).
  by destruct op.
Qed.

(** X13.  The pod template of the workload object that [Ensure] stages.
    For a deployment and a daemon set it is the pod spec as the storage
    handlers left it.  For a stateful set it has the containers of that
    pod spec, with the mounts the handlers added, but the volumes of the
    pod spec as [applicationPodSpec] made it, which is the volume
    charm-data alone: a volume that a handler pushed for a filesystem is
    not in it.  The claim templates of the stateful set are those the
    claim handler collected. *)
Theorem Ensure_template a config m spec r :
  applicationPodSpec a config = Ok spec →
  OpApply r ∈ staged (Ensure a config m).2 →
  let final := podSpec (Ensure a config m).2 in
  match r with
  | RStatefulSet s =>
      Containers (tplSpec (ssTemplate s)) = Containers final
      ∧ Volumes (tplSpec (ssTemplate s))
        = [ {| volName := charmVolumeName; volSource := EmptyDirSource |} ]
      ∧ ssVolumeClaimTemplates s = claimTemplates (Ensure a config m).2
  | RDeployment d => tplSpec (dTemplate d) = final
  | RDaemonSet d => tplSpec (dsTemplate d) = final
  | _ => True
  end.
Proof.
  intros Hspec Hin final.
  assert (∀ sops, forallb isStorageOp sops = true →
                  OpApply r ∈ sops →
                  isWorkloadKind (resourceKind r) = false) as Hstorage.
  { intros sops Hsops Hr. apply list_elem_of_In in Hr.
    eapply forallb_forall in Hsops; [|exact Hr].
    by apply isStorageOp_not_workload in Hsops. }
  destruct (Ensure_staged a config m)
    as [[Hs|(sops & Hs & Hsops & _)]
       |(t & spec' & uid & replicas & sops & Ht & Hspec' & Hsops & Hs)];
    rewrite Hs in Hin.
  - apply list_elem_of_singleton in Hin as [= ->]. done.
  - apply elem_of_app in Hin as [[= ->]%list_elem_of_singleton|Hin];
      [done|].
    apply (Hstorage sops Hsops) in Hin. by destruct r.
  - assert (spec' = spec) as -> by congruence.
    apply elem_of_app in Hin as [[= ->]%list_elem_of_singleton|Hin];
      [done|].
    apply elem_of_app in Hin as [Hin|[= ->]%list_elem_of_singleton].
    { apply (Hstorage sops Hsops) in Hin. by destruct r. }
    destruct t; cbn [workloadResource]; [|done..].
    cbn [ssTemplate podTemplate tplSpec withContainers Containers Volumes
         ssVolumeClaimTemplates].
    split; [done|]. split; [|done].
    by apply applicationPodSpec_ok in Hspec as (selector & _ & ->).
Qed.

(** X14.  For a stateful set [Ensure] stages no persistent volume claim:
    the claims of its filesystems are the claim templates of the stateful
    set. *)
Theorem Ensure_stateful_claims a config m op :
  switchDeploymentType (deploymentType a) = Some Stateful →
  op ∈ staged (Ensure a config m).2 →
  opKind op ≠ KPersistentVolumeClaim.
Proof.
  intros Ht Hin.
  destruct (Ensure_outcome a config m)
    as [(e & He & Hs & _)
       |(t & spec & uid & m3 & Ht' & Hspec & Hf & Hset & Hs3 & Hc3 & Hp3 & _
         & Hrun)].
  { rewrite Hs in Hin. by apply list_elem_of_singleton in Hin as ->. }
  assert (t = Stateful) as -> by congruence.
  set (I := fun m' : Machine =>
              Forall (fun op => opKind op ≠ KPersistentVolumeClaim)
                (staged m')).
  assert (I (configureStorage a uid (Filesystems config)
               ((map_to_list (storageclasses (cluster m))).*2)
               (Some handleVolume) (handleVolumeMount config)
               (Some (claimHandler Stateful a)) (Some handleStorageClass)
               m3).2) as H4.
  { unfold configureStorage.
    apply (preserves_configureStorageFrom I a uid (Some handleVolume)
             (handleVolumeMount config) (Some (claimHandler Stateful a))
             (Some handleStorageClass) (Filesystems config));
      [| | | |done|].
    - intros h v mp ro [= <-]. by apply preserves_handleVolume.
    - intros sn vm. by apply preserves_handleVolumeMount.
    - intros h fs classes v p sc mp ro [= <-] _ _.
      by apply preserves_handlePVCForStatefulSet.
    - intros h fs classes v p sc [= <-] _ _.
      apply preserves_applierApply. intros m' Hm'. unfold I.
      cbn [staged withStaged]. apply Forall_app; split; [done|].
      by apply Forall_singleton.
    - unfold I. rewrite Hs3. by apply Forall_singleton. }
  rewrite Hrun in Hin.
  destruct (configureStorage _ _ _ _ _ _ _ _ m3) as [[[]|e] m4];
    cbn [snd] in H4, Hin.
  2:{ by apply (proj1 (Forall_forall _ _) H4). }
  cbn zeta in Hin. rewrite runOps_staged in Hin.
  cbn [staged withStaged] in Hin.
  apply elem_of_app in Hin as [Hin|Hop%list_elem_of_singleton];
    [|by subst op].
  by apply (proj1 (Forall_forall _ _) H4).
Qed.

End ensure_batch.

(** ** The cluster after a call of [Ensure] that succeeds *)

Section ensure_after.
Context `{!Collaborators}.

(** The cluster after the call: the Services seen to, then the batch run,
    which is the Secret, storage objects and the workload object. *)
Lemma Ensure_ok_cluster a config m :
  (Ensure a config m).1 = Ok tt →
  ∃ t sops w,
    switchDeploymentType (deploymentType a) = Some t
    ∧ Forall (served (cluster m)) (preludeRequests a t (cluster m))
    ∧ forallb isStorageOp sops = true
    ∧ resourceKind w = primaryKind t ∧ resourceName w = name a
    ∧ cluster (Ensure a config m).2
      = effects (serviceOps a config t (cluster m)
                 ++ [OpApply (RSecret (applicationSecret a config))]
                 ++ sops ++ [OpApply w]) (cluster m).
Proof.
  intros Hok.
  destruct (Ensure_ok_shape a config m Hok)
    as (t & spec & uid & m3 & m4 & Ht & Hspec & Hserved & Hprefix & Hcs
        & Hrest).
  cbn zeta in Hrest. destruct Hrest as [_ Hfirst]. rewrite Hfirst.
  cbn [snd ran cluster withStaged].
  assert (cluster m3 = servicesEnsured a config t (cluster m)
          ∧ staged m3 = [OpApply (RSecret (applicationSecret a config))])
    as [Hc3 Hs3].
  { destruct (livePrefix (cluster m) t (name a));
      injection Hprefix as _ <-;
      cbn [cluster generated staged];
      by rewrite prepared_cluster, prepared_staged. }
  set (m3' := match t with
              | Stateful => withClaimTemplates (fun _ => []) m3
              | _ => m3
              end) in *.
  assert (cluster m3' = cluster m3 ∧ staged m3' = staged m3)
    as [Hc3' Hs3'] by (by destruct t).
  pose proof (configureStorage_storageStaged a config t uid
                ((map_to_list (storageclasses (cluster m))).*2) m3') as Hst.
  rewrite Hcs in Hst. cbn [snd] in Hst.
  destruct Hst as (Hc4 & _ & _ & sops & Hs4 & Hsops).
  eexists t, sops, _. split; [done|]. split; [done|]. split; [done|].
  split; [apply workloadResource_kind|].
  split; [apply workloadResource_name|].
  rewrite (effects_app (serviceOps a config t (cluster m))),
    <- servicesEnsured_effects.
  by rewrite Hc4, Hc3', Hc3, Hs4, Hs3', Hs3, <- app_assoc.
Qed.

Lemma storage_ops_kinds sops :
  forallb isStorageOp sops = true →
  Forall (fun op => opKind op = KStorageClass
                    ∨ opKind op = KPersistentVolumeClaim) sops.
Proof.
  intros Hsops. apply Forall_forall. intros op Hop.
  apply list_elem_of_In in Hop.
  eapply forallb_forall in Hsops; [|exact Hop].
  apply andb_prop in Hsops as [_ Hk].
  destruct (opKind op); try done; [by left|by right].
Qed.

Lemma services_store_service s c :
  services (store (RService s) c)
  = <[Name (svcMeta s) := mergeService (services c !! Name (svcMeta s)) s]>
      (services c).
Proof. done. Qed.

(** X15.  The Services after a call of [Ensure] that succeeds.  The
    default Service is the one that was there, or the new one if there
    was none; for a stateful set the headless Service is the one of this
    call, applied over what was there; every other Service is as it
    was. *)
Theorem Ensure_services a config m :
  (Ensure a config m).1 = Ok tt →
  let before := services (cluster m) in
  let after := services (cluster (Ensure a config m).2) in
  ∃ t,
    switchDeploymentType (deploymentType a) = Some t
    ∧ after !! name a
      = Some (default
                (mergeService None (defaultService a (annotations a config)))
                (before !! name a))
    ∧ (t = Stateful →
       after !! headlessServiceName (name a)
       = Some (mergeService (before !! headlessServiceName (name a))
                 (headlessService a (name a) (annotations a config))))
    ∧ (∀ n, n ≠ name a →
            (t = Stateful → n ≠ headlessServiceName (name a)) →
            after !! n = before !! n).
Proof.
  intros Hok before after.
  destruct (Ensure_ok_cluster a config m Hok)
    as (t & sops & w & Ht & _ & Hsops & Hwk & _ & Hcluster).
  exists t. split; [done|].
  assert (after = services (servicesEnsured a config t (cluster m)))
    as ->.
  { subst after.
    rewrite Hcluster, (effects_app (serviceOps a config t (cluster m))),
      <- servicesEnsured_effects.
    apply (map_fmap_inj RService); [by intros ?? [=]|].
    apply (effects_frame KService).
    constructor; [done|]. apply Forall_app; split.
    - eapply Forall_impl; [by apply storage_ops_kinds|].
      intros op [Hk|Hk]; by rewrite Hk.
    - apply Forall_singleton. cbn [opKind]. rewrite Hwk. by destruct t. }
  pose proof (headlessServiceName_fresh (name a)) as Hfresh.
  assert (Name (svcMeta (defaultService a (annotations a config)))
          = name a) as Hdn by done.
  assert (Name (svcMeta (headlessService a (name a) (annotations a config)))
          = headlessServiceName (name a)) as Hhn by done.
  unfold servicesEnsured. fold before.
  destruct (before !! name a) as [svc|] eqn:Hsvc; cbn [default from_option id].
  - destruct t; rewrite ?services_store_service, ?Hhn; fold before.
    + split; [by rewrite lookup_insert_ne|].
      split; [intros _; by rewrite lookup_insert_eq|].
      intros n Hn Hh. rewrite lookup_insert_ne; [done|].
      intros <-. by apply Hh.
    + split; [done|]. split; [done|]. done.
    + split; [done|]. split; [done|]. done.
  - destruct t; rewrite ?services_store_service, ?Hhn, ?Hdn;
      rewrite ?services_store_service, ?Hdn; fold before.
    + split; [rewrite lookup_insert_ne by done;
              by rewrite lookup_insert_eq, Hsvc|].
      split; [intros _; rewrite lookup_insert_eq;
              by rewrite lookup_insert_ne by done|].
      intros n Hn Hh. rewrite !lookup_insert_ne; [done|done|].
      intros <-. by apply Hh.
    + split; [by rewrite lookup_insert_eq, Hsvc|]. split; [done|].
      intros n Hn _. by rewrite lookup_insert_ne.
    + split; [by rewrite lookup_insert_eq, Hsvc|]. split; [done|].
      intros n Hn _. by rewrite lookup_insert_ne.
Qed.

Lemma objects_kind k c n r :
  objects k c !! n = Some r → resourceKind r = k.
Proof.
  destruct k; cbn [objects]; rewrite ?lookup_fmap, ?lookup_empty;
    try done; intros (x & _ & ->)%fmap_Some; done.
Qed.

(** An apply keeps the deletion mark of the object it is applied over,
    and a new object has none. *)
Lemma mergeResource_marked k c n r :
  resourceKind r = k →
  isMarked (resourceMeta (mergeResource (objects k c !! n) r))
  = from_option (isMarked ∘ resourceMeta) false (objects k c !! n).
Proof.
  intros Hk. destruct (objects k c !! n) as [l|] eqn:Hl.
  - apply objects_kind in Hl. rewrite <- Hk in Hl.
    destruct r, l; try done.
  - by destruct r.
Qed.

(** The one op of a batch that touches an object decides what becomes of
    it. *)
Lemma slot_once k n pre r post v :
  Forall (fun op => ¬ (opKind op = k ∧ opName op = n)) pre →
  Forall (fun op => ¬ (opKind op = k ∧ opName op = n)) post →
  resourceKind r = k → resourceName r = n →
  foldl (slotStep k n) v (pre ++ [OpApply r] ++ post)
  = Some (mergeResource v r).
Proof.
  intros Hpre Hpost Hk Hn. rewrite !foldl_app.
  rewrite (slotStep_others k n pre Hpre). cbn [foldl slotStep].
  rewrite decide_True by done. by apply slotStep_others.
Qed.

Lemma lookedAt_objects a t c :
  lookedAt a t c
  = omap id [resourceMeta <$> objects (primaryKind t) c !! name a;
             resourceMeta <$> objects KSecret c !! secretName a;
             resourceMeta <$> objects KService c !! name a].
Proof.
  unfold lookedAt. rewrite primaryMeta_objects. cbn [objects].
  rewrite !lookup_fmap.
  by destruct (secrets c !! secretName a), (services c !! name a).
Qed.

Lemma existsb_present (p1 p2 p3 : option ObjectMeta) :
  existsb isMarked (omap id [p1; p2; p3])
  = from_option isMarked false p1
    || (from_option isMarked false p2 || from_option isMarked false p3).
Proof. destruct p1, p2, p3; cbn; by rewrite ?orb_false_r. Qed.

(** X16.  After a call of [Ensure] that succeeded, [Exists] answers that
    the application exists.  It answers that it is terminating exactly
    when the workload resource, the Secret or the default Service was
    marked for deletion before the call: applying an object does not
    take the mark off. *)
Theorem Ensure_then_Exists a config m :
  (Ensure a config m).1 = Ok tt →
  faults (cluster m) VGet KSecret (secretName a) = None →
  ∃ t state,
    switchDeploymentType (deploymentType a) = Some t
    ∧ (Exists a (Ensure a config m).2).1 = (state, None)
    ∧ dsExists state = true
    ∧ (dsTerminating state = true
       ↔ ∃ o, o ∈ lookedAt a t (cluster m) ∧ isMarked o = true).
Proof.
  intros Hok Hsecret.
  destruct (Ensure_ok_cluster a config m Hok)
    as (t & sops & w & Ht & Hserved & Hsops & Hwk & Hwn & Hcluster).
  set (after := (Ensure a config m).2) in *.
  set (sec := RSecret (applicationSecret a config)) in *.
  assert (faults (cluster after) = faults (cluster m)) as Hfaults.
  { rewrite Hcluster. apply faults_effects. }
  unfold preludeRequests in Hserved. rewrite !Forall_app in Hserved.
  destruct Hserved as (Hget & _ & _ & _ & Hprimary).
  rewrite Forall_singleton in Hget, Hprimary.
  pose proof (storage_ops_kinds sops Hsops) as Hkinds.
  pose proof (headlessServiceName_fresh (name a)) as Hfresh.
  (* the three objects after the call *)
  assert (objects (primaryKind t) (cluster after) !! name a
          = Some (mergeResource
                    (objects (primaryKind t) (cluster m) !! name a) w))
    as Hw.
  { rewrite Hcluster, objects_effects.
    rewrite (app_assoc (serviceOps a config t (cluster m))).
    rewrite (app_assoc (serviceOps a config t (cluster m) ++ [OpApply sec])).
    rewrite <- (app_nil_r [OpApply w]) at 1.
    apply (slot_once _ _ _ w []); [|done|done|done].
    apply Forall_app; split; [apply Forall_app; split|].
    - unfold serviceOps.
      destruct (services (cluster m) !! name a), t;
        repeat constructor; by intros [? _].
    - apply Forall_singleton. intros [Hk _]. by destruct t.
    - eapply Forall_impl; [exact Hkinds|].
      intros op [Hk|Hk] [Hk' _]; rewrite Hk in Hk'; by destruct t. }
  assert (objects KSecret (cluster after) !! secretName a
          = Some (mergeResource
                    (objects KSecret (cluster m) !! secretName a) sec))
    as Hs.
  { rewrite Hcluster, objects_effects.
    apply (slot_once _ _ _ sec); [| |done|done].
    - unfold serviceOps.
      destruct (services (cluster m) !! name a), t;
        repeat constructor; by intros [? _].
    - apply Forall_app; split.
      + eapply Forall_impl; [exact Hkinds|].
        intros op [Hk|Hk] [Hk' _]; by rewrite Hk in Hk'.
      + apply Forall_singleton. cbn [opKind]. rewrite Hwk.
        intros [Hk _]. by destruct t. }
  assert (Forall (fun op => ¬ (opKind op = KService ∧ opName op = name a))
            ([OpApply sec] ++ sops ++ [OpApply w])) as Hbatch.
  { constructor; [by intros [? _]|]. apply Forall_app; split.
    - eapply Forall_impl; [exact Hkinds|].
      intros op [Hk|Hk] [Hk' _]; by rewrite Hk in Hk'.
    - apply Forall_singleton. cbn [opKind]. rewrite Hwk.
      intros [Hk _]. by destruct t. }
  assert (∃ svc, objects KService (cluster after) !! name a = Some svc
                 ∧ isMarked (resourceMeta svc)
                   = from_option (isMarked ∘ resourceMeta) false
                       (objects KService (cluster m) !! name a))
    as (svc & Hv & Hvmark).
  { rewrite Hcluster, objects_effects. unfold serviceOps.
    cbn [objects]. rewrite lookup_fmap.
    destruct (services (cluster m) !! name a) as [live|] eqn:Hlive.
    - exists (RService live). split; [|done].
      apply slotStep_others. apply Forall_app; split; [|done].
      destruct t; repeat constructor. intros [_ Hn]. by apply Hfresh.
    - eexists. split.
      + rewrite <- (app_assoc [_]).
        apply (slot_once KService (name a) []); [done| |done|done].
        apply Forall_app; split; [|done].
        destruct t; repeat constructor. intros [_ Hn]. by apply Hfresh.
      + done. }
  (* what Exists makes of them *)
  pose proof (ExistsM_served a t after Ht) as Hrun.
  rewrite Hfaults in Hrun. specialize (Hrun Hprimary Hsecret Hget).
  rewrite lookedAt_objects, Hw, Hs, Hv in Hrun.
  cbn [fmap option_fmap option_map omap list_omap id existsb] in Hrun.
  rewrite (mergeResource_marked _ _ _ _ Hwk) in Hrun.
  rewrite (mergeResource_marked KSecret _ _ sec eq_refl) in Hrun.
  rewrite Hvmark in Hrun.
  exists t. unfold Exists. destruct (ExistsM a after) as [r m'].
  cbn [fst] in Hrun. subst r. eexists. split; [done|]. split; [done|].
  cbn [dsExists dsTerminating]. split; [done|].
  assert (∀ b, b = existsb isMarked (lookedAt a t (cluster m)) →
               (b = true
                ↔ ∃ o, o ∈ lookedAt a t (cluster m) ∧ isMarked o = true))
    as Hiff.
  { intros b ->. rewrite existsb_exists. split.
    - intros (o & Hin & Ho). exists o. by rewrite list_elem_of_In.
    - intros (o & Hin & Ho). exists o. by rewrite <- list_elem_of_In. }
  apply Hiff. rewrite lookedAt_objects, existsb_present.
  rewrite orb_false_r.
  by destruct (objects (primaryKind t) (cluster m) !! name a),
    (objects KSecret (cluster m) !! secretName a),
    (objects KService (cluster m) !! name a).
Qed.

End ensure_after.

(** ** The mounts of the charm container *)

Section mounts.
Context `{!Collaborators}.

(** A filesystem is a volume or a claim. *)
Lemma filesystemToVolumeInfo_shape a n fs classes getter vol pvc sc :
  filesystemToVolumeInfo a n fs classes getter = Ok (vol, pvc, sc) →
  (is_Some vol ∧ pvc = None ∧ sc = None) ∨ (vol = None ∧ is_Some pvc).
Proof.
  unfold filesystemToVolumeInfo.
  destruct (ParseQuantity _) as [size|]; [|done].
  destruct (VolumeSourceForFilesystem fs) as [[vs|]|]; try done.
  { intros [= <- <- <-]. by left. }
  destruct (ParseVolumeParams _ _ _) as [params|]; [|done].
  destruct (resolveStorageClass _ _ _) as [c params'].
  intros [= <- <- <-]. by right.
Qed.

Lemma handleVolume_result v mp ro m x m' :
  handleVolume v mp ro m = (Ok x, m') →
  (∃ vm, x = Some vm ∧ vmMountPath vm = mp ∧ vmReadOnly vm = ro)
  ∧ Containers (podSpec m') = Containers (podSpec m).
Proof.
  unfold handleVolume. rewrite !bind_run. cbn [gets].
  rewrite !bind_run. unfold lift.
  destruct (PushUniqueVolume _ _ _) as [vols|e]; [|done].
  rewrite !bind_run. cbn [modify ret]. intros [= <- <-].
  split; [by eexists|done].
Qed.

Lemma claimHandler_result t a p mp ro m x m' :
  claimHandler t a p mp ro m = (Ok x, m') →
  (∃ vm, x = Some vm ∧ vmMountPath vm = mp ∧ vmReadOnly vm = ro)
  ∧ Containers (podSpec m') = Containers (podSpec m).
Proof.
  assert (handlePVCForStatelessResource a p mp ro m = (Ok x, m') →
          (∃ vm, x = Some vm ∧ vmMountPath vm = mp ∧ vmReadOnly vm = ro)
          ∧ Containers (podSpec m') = Containers (podSpec m)) as Hstateless.
  { unfold handlePVCForStatelessResource.
    rewrite bind_run. cbn [applierApply modify].
    intros Hrun. by apply handleVolume_result in Hrun. }
  destruct t; cbn [claimHandler]; [|done..].
  unfold handlePVCForStatefulSet. rewrite !bind_run. cbn [gets].
  rewrite !bind_run. unfold lift.
  destruct (PushUniqueVolumeClaimTemplate _ _) as [ts|e]; [|done].
  rewrite !bind_run. cbn [modify ret]. intros [= <- <-].
  split; [by eexists|done].
Qed.

Lemma handleVolumeMount_unit config sn vm m c cs :
  Containers (podSpec m) = c :: cs →
  cName c = unitContainerName →
  ∃ c' cs',
    Containers (podSpec (handleVolumeMount config sn vm m).2) = c' :: cs'
    ∧ cName c' = unitContainerName
    ∧ cVolumeMounts c' = cVolumeMounts c ++ [vm].
Proof.
  intros Hcs Hc. unfold handleVolumeMount. cbn [modify snd podSpec
    withPodSpec withContainers Containers].
  rewrite Hcs. cbn [map]. eexists _, _. split; [reflexivity|].
  unfold mountOn. rewrite Hc. cbn [String.eqb].
  by rewrite String.eqb_refl.
Qed.

(** The loop of [configureStorage] gives the charm container one mount
    for each filesystem. *)
Lemma configureStorageFrom_unit_mounts a config t uid fss :
  ∀ index names classes m m' c cs,
    configureStorageFrom a uid (Some handleVolume)
      (handleVolumeMount config) (Some (claimHandler t a))
      (Some handleStorageClass) index fss names classes m = (Ok tt, m') →
    Containers (podSpec m) = c :: cs →
    cName c = unitContainerName →
    ∃ c' cs' added,
      Containers (podSpec m') = c' :: cs'
      ∧ cVolumeMounts c' = cVolumeMounts c ++ added
      ∧ vmMountPath <$> added
        = imap (fun i fs => GetMountPathForFilesystem (index + i) (name a) fs)
            fss
      ∧ vmReadOnly <$> added = readOnlyOf <$> fss.
Proof.
  induction fss as [|fs rest IH]; intros index names classes m m' c cs
    Hrun Hcs Hc.
  { cbn [configureStorageFrom ret] in Hrun. injection Hrun as <-.
    exists c, cs, []. by rewrite app_nil_r. }
  cbn [configureStorageFrom] in Hrun.
  destruct (decide (StorageName fs ∈ names)); [done|].
  rewrite bind_run in Hrun. unfold lift at 1 in Hrun.
  destruct (filesystemToVolumeInfo a _ fs classes _)
    as [[[vol pvc] sc]|e] eqn:Hinfo; [|done].
  apply filesystemToVolumeInfo_shape in Hinfo.
  fold (readOnlyOf fs) in Hrun.
  rewrite bind_run in Hrun.
  match type of Hrun with
  | context [match ?k m with _ => _ end] =>
      destruct (k m) as [[vm1|e] m1] eqn:E1; [|done]
  end.
  rewrite bind_run in Hrun.
  match type of Hrun with
  | context [match ?k m1 with _ => _ end] =>
      destruct (k m1) as [[classes1|e] m2] eqn:E2; [|done]
  end.
  rewrite bind_run in Hrun.
  match type of Hrun with
  | context [match ?k m2 with _ => _ end] =>
      destruct (k m2) as [[vm2|e] m3] eqn:E3; [|done]
  end.
  rewrite bind_run in Hrun.
  match type of Hrun with
  | context [match ?k m3 with _ => _ end] =>
      destruct (k m3) as [[[]|e] m4] eqn:E4; [|done]
  end.
  (* the mount of this filesystem *)
  assert (Containers (podSpec m2) = Containers (podSpec m1)) as H12.
  { destruct sc as [sc1|]; [|by injection E2 as _ <-].
    rewrite bind_run in E2.
    unfold handleStorageClass, applierApply in E2. cbn [modify ret] in E2.
    by injection E2 as _ <-. }
  assert (∃ vm, vm2 = Some vm
                ∧ vmMountPath vm
                  = GetMountPathForFilesystem index (name a) fs
                ∧ vmReadOnly vm = readOnlyOf fs
                ∧ Containers (podSpec m3) = c :: cs)
    as (vm & -> & Hpath & Hro & Hcs3).
  { destruct Hinfo as [([v ->] & -> & ->)|(-> & [p ->])].
    - apply handleVolume_result in E1 as [(vm & -> & ? & ?) Hk].
      cbn [ret] in E2, E3. injection E2 as _ <-. injection E3 as <- <-.
      exists vm. by rewrite Hk.
    - cbn [ret] in E1. injection E1 as _ <-.
      apply claimHandler_result in E3 as [(vm & -> & ? & ?) Hk].
      exists vm. by rewrite Hk, H12. }
  destruct (handleVolumeMount_unit config (StorageName fs) vm m3 c cs
              Hcs3 Hc) as (c4 & cs4 & Hcs4 & Hc4 & Hm4).
  rewrite E4 in Hcs4. cbn [snd] in Hcs4.
  destruct (IH _ _ _ _ _ c4 cs4 Hrun Hcs4 Hc4)
    as (c' & cs' & added & Hcs' & Hmounts & Hpaths & Hros).
  exists c', cs', (vm :: added). split; [done|].
  split; [by rewrite Hmounts, Hm4, <- app_assoc|].
  cbn [fmap list_fmap imap]. rewrite Hpath, Hro, Nat.add_0_r.
  split; [|by rewrite <- Hros].
  f_equal. rewrite Hpaths. apply imap_ext. intros i x _. cbn.
  by rewrite Nat.add_succ_r.
Qed.

(** X17.  In the workload object of a call of [Ensure] that succeeds, the
    charm container has its three mounts of the charm volume and then one
    mount for each filesystem of the configuration, in their order, at
    the path that [GetMountPathForFilesystem] gives for the index of the
    filesystem, read-only as its attachment says. *)
Theorem Ensure_unit_mounts a config m :
  (Ensure a config m).1 = Ok tt →
  ∃ w spec added,
    last (staged (Ensure a config m).2) = Some (OpApply w)
    ∧ templateOf w = Some spec
    ∧ unitMounts spec
      = [charmMount "/charm/bin" "charm/bin" true;
         charmMount DataDir (TrimPrefix DataDir "/") false;
         charmMount "/charm/containers" "charm/containers" false]
        ++ added
    ∧ vmMountPath <$> added
      = imap (fun i fs => GetMountPathForFilesystem i (name a) fs)
          (Filesystems config)
    ∧ vmReadOnly <$> added = readOnlyOf <$> Filesystems config.
Proof.
  intros Hok.
  destruct (Ensure_ok_shape a config m Hok)
    as (t & spec & uid & m3 & m4 & Ht & Hspec & _ & Hprefix & Hcs & Hrest).
  cbn zeta in Hrest. destruct Hrest as [_ Hfirst]. rewrite Hfirst.
  cbn [snd ran staged withStaged]. rewrite last_snoc.
  assert (podSpec m3 = spec) as Hp3.
  { destruct (livePrefix (cluster m) t (name a));
      injection Hprefix as _ <-; cbn [podSpec generated];
      by rewrite prepared_podSpec. }
  set (m3' := match t with
              | Stateful => withClaimTemplates (fun _ => []) m3
              | _ => m3
              end) in *.
  assert (podSpec m3' = spec) as Hp3' by (by destruct t).
  apply applicationPodSpec_ok in Hspec as (selector & _ & Hshape).
  cbn zeta in Hshape.
  unfold configureStorage in Hcs.
  destruct (configureStorageFrom_unit_mounts a config t uid
              (Filesystems config) 0%nat ∅ _ m3' m4
              (unitContainer config
                 (sortStrings
                    (ccName <$> (map_to_list (ccContainers config)).*2)))
              (map workloadContainer (sortedContainers config)) Hcs)
    as (c' & cs' & added & Hcs' & Hmounts & Hpaths & Hros).
  { by rewrite Hp3', Hshape. }
  { done. }
  eexists _, (match t with
              | Stateful => withContainers (Containers (podSpec m4)) spec
              | _ => podSpec m4
              end), added.
  split; [done|]. split; [by destruct t|].
  split; [|done].
  assert (unitMounts match t with
                     | Stateful =>
                         withContainers (Containers (podSpec m4)) spec
                     | _ => podSpec m4
                     end = cVolumeMounts c') as ->.
  { unfold unitMounts. destruct t; cbn [Containers withContainers];
      by rewrite Hcs'. }
  by rewrite Hmounts.
Qed.

End mounts.

(** ** The theorems at work on concrete clusters *)

Import fixture scenario.

(** [Exists] on a cluster with the Secret alone, and on one whose stateful
    set is marked for deletion. *)
Lemma Exists_aggregation_witness :
  Exists (gitlab DeploymentStateful) (boot secretOnly)
  = (({| dsExists := true; dsTerminating := false |}, None),
     logged VGet KService "gitlab"
       (logged VGet KSecret "gitlab-application-config"
          (logged VGet KStatefulSet "gitlab" (boot secretOnly))))
  ∧ Exists (gitlab DeploymentStateful) (boot (running (Some 7)))
    = (({| dsExists := true; dsTerminating := true |}, None),
       logged VGet KStatefulSet "gitlab" (boot (running (Some 7)))).
Proof.
  split.
  - apply (proj1 (Exists_aggregation (gitlab DeploymentStateful) Stateful
                    (boot secretOnly) eq_refl eq_refl)
             (applicationSecret (gitlab DeploymentStateful) (config [])));
      vm_compute; reflexivity.
  - apply (proj2 (Exists_aggregation (gitlab DeploymentStateful) Stateful
                    (boot (running (Some 7))) eq_refl eq_refl)
             (ssMeta (gitlabSet (Some 7))));
      vm_compute; reflexivity.
Defined.

(** [State] on a stateful set of three replicas whose pods come in two
    pages. *)
Lemma State_desired_replicas_witness :
  ∃ m',
    State (gitlab DeploymentStateful) 2 (boot (running None))
    = Some (({| DesiredReplicas := 3;
                Replicas := ["gitlab-0"; "gitlab-1"; "gitlab-2"] |}, None),
            m').
Proof.
  eexists.
  apply (proj1 (State_desired_replicas (gitlab DeploymentStateful) Stateful 2
                  (boot (running None)) eq_refl eq_refl)
           (gitlabSet None) eq_refl eq_refl
           ["gitlab-1"; "gitlab-0"; "gitlab-2"]).
  vm_compute. reflexivity.
Defined.

Lemma State_pagination_witness :
  let names := ["gitlab-1"; "gitlab-0"; "gitlab-2"] in
  (∃ m',
     State (gitlab DeploymentStateful) 2 (boot (running None))
     = Some (({| DesiredReplicas := 3; Replicas := sortStrings names |},
              None), m'))
  ∧ Sorted String.le (sortStrings names)
  ∧ sortStrings names ≡ₚ names
  ∧ (NoDup names → NoDup (sortStrings names)).
Proof.
  apply (State_pagination (gitlab DeploymentStateful) 2
           (boot (running None))
           [[pod "gitlab-1"; pod "gitlab-0"]; [pod "gitlab-2"]] 3
           (logged VGet KStatefulSet "gitlab" (boot (running None)))).
  - vm_compute. reflexivity.
  - cbn. split; [reflexivity|]. eexists. split; [reflexivity|].
    split; [reflexivity|]. split; [reflexivity|].
    split; [reflexivity|]. eexists. split; [reflexivity|].
    split; reflexivity.
  - cbn. lia.
Defined.

(** A filesystem whose class is in the cluster neither by its configured
    name nor by its qualified name. *)
Lemma filesystemToVolumeInfo_precedence_witness :
  ∃ pvc,
    filesystemToVolumeInfo (gitlab DeploymentStateful) "gitlab-database-0"
      (database 0 100 "fast") ∅ (fun n => n +:+ "-appuuid")
    = Ok (None, Some pvc,
          Some (classSpec
                  (provisioner "test" "test"
                     (withStorageClass "fast"
                        {| vpName := "gitlab-database-0-appuuid";
                           vpStorageConfig :=
                             {| cfgStorageClass := "fast";
                                cfgStorageProvisioner := "";
                                cfgParameters := ∅ |};
                           vpSize := ParsedQuantity "100Mi" |}))
                  false))
    ∧ pvcStorageClassName (pvcSpec pvc) = "test-fast".
Proof.
  assert (ParseQuantity (pretty (Size (database 0 100 "fast")) +:+ "Mi")
          = Ok (ParsedQuantity "100Mi")) as Hsize
    by (vm_compute; reflexivity).
  destruct (filesystemToVolumeInfo_precedence (gitlab DeploymentStateful)
              "gitlab-database-0" (database 0 100 "fast") ∅
              (fun n => n +:+ "-appuuid") (ParsedQuantity "100Mi")
              {| vpName := "gitlab-database-0-appuuid";
                 vpStorageConfig :=
                   {| cfgStorageClass := "fast"; cfgStorageProvisioner := "";
                      cfgParameters := ∅ |};
                 vpSize := ParsedQuantity "100Mi" |}
              Hsize eq_refl eq_refl)
    as (pvc & sc & Hrun & _ & _ & _ & Hnew & _).
  destruct (Hnew eq_refl eq_refl) as [-> Hspec].
  exists pvc. split; [exact Hrun|]. rewrite Hspec. reflexivity.
Defined.

(** A first call on an empty cluster asks for one replica. *)
Lemma Ensure_initial_replicas_witness :
  let after :=
    Ensure (gitlab DeploymentStateless) (config []) (boot emptyCluster) in
  (∀ op, op ∈ staged after.2 → opKind op = KDeployment →
         opReplicas op = Some (Some 1))
  ∧ primaryReplicas (cluster after.2) Stateless "gitlab" = Some (Some 1).
Proof.
  intros after.
  assert (Stateless ≠ Daemon) as Hnd by discriminate.
  destruct (Ensure_initial_replicas (gitlab DeploymentStateless) (config [])
              (boot emptyCluster) Stateless eq_refl Hnd) as (H1 & _ & H3).
  split; [exact H1|]. apply H3. vm_compute. reflexivity.
Defined.


(** Two filesystems of one name: the call fails on the second one, on an
    empty cluster and on one whose server refuses the stateful set, where
    the call on the first filesystem alone fails in its batch. *)
Lemma Ensure_duplicate_storage_name_witness :
  let text :=
    "duplicated storage name " +:+ quoted "database-0" +:+ " for "
    +:+ quoted "gitlab" in
  let a := gitlab DeploymentStateful in
  let after := Ensure a (config sameName) (boot emptyCluster) in
  let refused := Ensure a (config sameName) (boot cases.refusing) in
  after.1 = Err (errors.NotValid text)
  ∧ (∀ op, op ∈ staged after.2 → isWorkloadKind (opKind op) = false)
  ∧ sameButServices emptyCluster (cluster after.2)
  ∧ cluster after.2
    = servicesEnsured a (config sameName) Stateful emptyCluster
  ∧ refused.1 = Err (errors.NotValid text).
Proof.
  intros text a after refused.
  assert (StorageName (database 0 200 "fast")
          ∈ (StorageName <$> take 1 (Filesystems (config sameName))))
    as Hin by (vm_compute; left).
  destruct (Ensure_duplicate_storage_name a (config sameName)
              (boot emptyCluster) 1 (database 0 200 "fast") eq_refl Hin)
    as (_ & _ & H3 & H4 & _ & H6 & _).
  destruct (Ensure_duplicate_storage_name a (config sameName)
              (boot cases.refusing) 1 (database 0 200 "fast") eq_refl Hin)
    as (_ & _ & _ & _ & _ & H6' & _).
  lapply H6; [|vm_compute; reflexivity].
  intros (Hmsg & _ & t & Ht & Hcluster). injection Ht as <-.
  lapply H6'; [|vm_compute; reflexivity].
  intros (Hmsg' & _).
  split; [exact Hmsg|]. split; [exact H3|]. split; [exact H4|].
  split; [exact Hcluster|exact Hmsg'].
Defined.

(** The same call has staged the Secret and the storage objects of the
    first filesystem by then, and has written the default Service. *)
Lemma Ensure_duplicate_storage_name_counterexample :
  let after :=
    Ensure (gitlab DeploymentStateless) (config sameName)
      (boot emptyCluster) in
  (∃ msg, after.1 = Err (errors.NotValid msg))
  ∧ opKind <$> staged after.2
    = [KSecret; KStorageClass; KPersistentVolumeClaim]
  ∧ services (cluster (boot emptyCluster)) !! "gitlab" = None
  ∧ is_Some (services (cluster after.2) !! "gitlab").
Proof.
  intros after. split; [eexists; vm_compute; reflexivity|].
  split; [vm_compute; reflexivity|]. split; [reflexivity|].
  vm_compute. eexists. reflexivity.
Qed.



(** A second call on a stateful set with one claim. *)
Lemma Ensure_twice_witness :
  let first := deployed DeploymentStateful oneDisk in
  let second := Ensure (gitlab DeploymentStateful) (config oneDisk) first in
  second.1 = Ok tt
  ∧ cluster second.2 = cluster first
  ∧ prefixCalls second.2 = prefixCalls first
  ∧ staged second.2 = withoutReplicas <$> dropClasses (staged first).
Proof.
  apply (Ensure_twice (gitlab DeploymentStateful) (config oneDisk)
           (boot emptyCluster)).
  - vm_compute. reflexivity.
  - intros s [= <-]. discriminate.
  - intros ns model params legacy. reflexivity.
  - apply map_Forall_empty.
  - intros fs n size params Hfs Hparams.
    apply list_elem_of_singleton in Hfs. subst fs.
    injection Hparams as <-. vm_compute. intros Hfast. exact Hfast.
Defined.

(** A second call on the filesystems of [crossing]: the claim of the first
    filesystem names the class that the first call synthesized for it, and
    after the second call the class of the second filesystem. *)
Lemma Ensure_twice_counterexample :
  let a := gitlab DeploymentStateless in
  let first := Ensure a (config crossing) (boot emptyCluster) in
  let second := Ensure a (config crossing) first.2 in
  let class c :=
    pvcStorageClassName ∘ pvcSpec <$> claims c !! "gitlab-database-0-appuuid"
  in
  first.1 = Ok tt ∧ second.1 = Ok tt
  ∧ class (cluster first.2) = Some "test-test-fast"
  ∧ class (cluster second.2) = Some "test-fast"
  ∧ cluster second.2 ≠ cluster first.2
  ∧ length (staged first.2) = 6%nat ∧ length (staged second.2) = 4%nat.
Proof.
  intros a first second class.
  assert (class (cluster first.2) = Some "test-test-fast") as H1
    by (vm_compute; reflexivity).
  assert (class (cluster second.2) = Some "test-fast") as H2
    by (vm_compute; reflexivity).
  split; [vm_compute; reflexivity|]. split; [vm_compute; reflexivity|].
  split; [exact H1|]. split; [exact H2|]. split.
  - intros Heq. rewrite Heq, H1 in H2. discriminate H2.
  - split; vm_compute; reflexivity.
Qed.

(** ** The further properties at work on concrete clusters *)

Import cases.

(** [Exists] on a cluster with the Secret alone. *)
Lemma Exists_report_witness :
  let a := gitlab DeploymentStateful in
  ∃ state,
    (Exists a (boot secretOnly)).1 = (state, None)
    ∧ (dsExists state = true ↔ lookedAt a Stateful secretOnly ≠ [])
    ∧ (dsTerminating state = true
       ↔ ∃ o, o ∈ lookedAt a Stateful secretOnly ∧ isMarked o = true).
Proof.
  apply (Exists_report (gitlab DeploymentStateful) Stateful
           (boot secretOnly)); reflexivity.
Defined.

(** [Delete] of a deployment with one claim: the claim and its class
    stay. *)
Lemma Delete_removes_witness :
  let a := gitlab DeploymentStateless in
  let m := deployed DeploymentStateless oneDisk in
  (Delete a m).1 = Ok tt
  ∧ (∀ k n, objects k (cluster (Delete a m).2) !! n
            = if bool_decide ((k, n) ∈ deleted a Stateless) then None
              else objects k (cluster m) !! n)
  ∧ claims (cluster (Delete a m).2) = claims (cluster m)
  ∧ storageclasses (cluster (Delete a m).2) = storageclasses (cluster m).
Proof.
  apply (Delete_removes (gitlab DeploymentStateless) Stateless
           (deployed DeploymentStateless oneDisk)).
  - reflexivity.
  - vm_compute. repeat constructor.
Defined.

(** [Delete] and then [Exists] on a stateful set. *)
Lemma Delete_then_Exists_witness :
  let a := gitlab DeploymentStateful in
  let m := deployed DeploymentStateful oneDisk in
  (Delete a m).1 = Ok tt
  ∧ (Exists a (Delete a m).2).1 = (emptyDeploymentState, None).
Proof.
  apply (Delete_then_Exists (gitlab DeploymentStateful) Stateful
           (deployed DeploymentStateful oneDisk)).
  - reflexivity.
  - vm_compute. repeat constructor.
  - vm_compute. reflexivity.
  - vm_compute. reflexivity.
  - vm_compute. reflexivity.
Defined.

(** The pod spec of the application with its one workload container. *)
Lemma applicationPodSpec_containers_witness :
  ∃ spec unit workloads init,
    applicationPodSpec (gitlab DeploymentStateful) (config []) = Ok spec
    ∧ Containers spec = unit :: workloads
    ∧ InitContainers spec = [init]
    ∧ cName <$> workloads ≡ₚ ["gitlab"]
    ∧ cEnv unit !! 0%nat
      = Some ("JUJU_CONTAINER_NAMES",
              EnvLiteral (Join (cName <$> workloads) ",")).
Proof.
  eexists.
  assert (applicationPodSpec (gitlab DeploymentStateful) (config [])
          = Ok _) as Hspec by (vm_compute; reflexivity).
  destruct (applicationPodSpec_containers (gitlab DeploymentStateful)
              (config []) _ Hspec)
    as (unit & workloads & init & H1 & H2 & _ & _ & _ & _ & H7 & H8 & _).
  exists unit, workloads, init.
  split; [exact Hspec|]. split; [exact H1|]. split; [exact H2|].
  split; [exact H7|exact H8].
Defined.

Lemma applicationPodSpec_mounts_witness :
  ∃ spec,
    applicationPodSpec (gitlab DeploymentStateful) (config []) = Ok spec
    ∧ Volumes spec = [ {| volName := charmVolumeName;
                          volSource := EmptyDirSource |} ]
    ∧ AutomountServiceAccountToken spec = Some false
    ∧ ∀ c vm, c ∈ InitContainers spec ++ Containers spec →
              vm ∈ cVolumeMounts c →
              vmName vm = charmVolumeName
              ∧ ∃ v, v ∈ Volumes spec ∧ volName v = vmName vm.
Proof.
  eexists.
  assert (applicationPodSpec (gitlab DeploymentStateful) (config [])
          = Ok _) as Hspec by (vm_compute; reflexivity).
  split; [exact Hspec|].
  exact (applicationPodSpec_mounts (gitlab DeploymentStateful) (config [])
           _ Hspec).
Defined.

(** Half a core and a gigabyte. *)
Lemma applicationPodSpec_requests_witness :
  ∃ spec unit workloads,
    applicationPodSpec (gitlab DeploymentStateful) constrained = Ok spec
    ∧ Containers spec = unit :: workloads
    ∧ cRequests unit !! "cpu" = Some (MilliQuantity 500)
    ∧ cRequests unit !! "memory" = Some (BinaryQuantity 1073741824).
Proof.
  eexists.
  assert (applicationPodSpec (gitlab DeploymentStateful) constrained
          = Ok _) as Hspec by (vm_compute; reflexivity).
  destruct (applicationPodSpec_requests (gitlab DeploymentStateful)
              constrained _ Hspec)
    as (unit & workloads & H1 & _ & Hcpu & Hmem & _).
  exists unit, workloads.
  split; [exact Hspec|]. split; [exact H1|]. split.
  - apply (Hcpu 500 eq_refl). lia.
  - apply (Hmem 1024 eq_refl). lia.
Defined.

(** [State] on the stateful set whose pods come in two pages. *)
Lemma State_reads_only_witness :
  let m := boot (running None) in
  ∃ r m' gets lists,
    State (gitlab DeploymentStateful) 2 m = Some (r, m')
    ∧ m' = asked (gets ++ lists) m
    ∧ (length gets ≤ 1)%nat ∧ Forall (fun q => q.1.1 = VGet) gets
    ∧ (length lists ≤ 2)%nat
    ∧ Forall (fun q => q.1 = (VList, KPod)) lists.
Proof.
  intros m. eexists _, _.
  assert (State (gitlab DeploymentStateful) 2 m = Some (_, _)) as Hrun
    by (vm_compute; reflexivity).
  destruct (State_reads_only (gitlab DeploymentStateful) 2 m _ _ Hrun)
    as (gets & lists & H).
  exists gets, lists. split; [exact Hrun|exact H].
Defined.

(** [State] on an empty cluster. *)
Lemma State_without_workload_witness :
  let a := gitlab DeploymentStateful in
  ∃ e,
    State a 2 (boot emptyCluster)
    = Some ((emptyApplicationState, Some e),
            logged VGet KStatefulSet "gitlab" (boot emptyCluster))
    ∧ IsNotFound e = true.
Proof.
  destruct (State_without_workload (gitlab DeploymentStateful) Stateful 2
              (boot emptyCluster) eq_refl (or_intror eq_refl))
    as (e & Hrun & Hnf).
  exists e. split; [exact Hrun|]. apply Hnf. reflexivity.
Defined.

(** [Ensure] on a cluster that refuses the stateful set. *)
Lemma Ensure_failure_witness :
  let a := gitlab DeploymentStateful in
  let m := boot refusing in
  (Ensure a (config oneDisk) m).1 = Err (Foreign "quota exceeded")
  ∧ (sameButServices (cluster m) (cluster (Ensure a (config oneDisk) m).2)
     ∨ ∃ op msg, op ∈ staged (Ensure a (config oneDisk) m).2
                 ∧ isApply op = true
                 ∧ faults (cluster m) VApply (opKind op) (opName op)
                   = Some msg
                 ∧ Foreign "quota exceeded" = Foreign msg).
Proof.
  intros a m.
  assert ((Ensure a (config oneDisk) m).1 = Err (Foreign "quota exceeded"))
    as Hrun by (vm_compute; reflexivity).
  split; [exact Hrun|].
  exact (Ensure_failure a (config oneDisk) m _ Hrun).
Defined.

(** The stateful set of an application with a claim and a filesystem in
    memory: one claim template, and the volume of the filesystem in
    memory is not in the template. *)
Lemma Ensure_template_witness :
  let a := gitlab DeploymentStateful in
  let after := (Ensure a (config scratch) (boot emptyCluster)).2 in
  ∃ s,
    last (staged after) = Some (OpApply (RStatefulSet s))
    ∧ Containers (tplSpec (ssTemplate s)) = Containers (podSpec after)
    ∧ Volumes (tplSpec (ssTemplate s))
      = [ {| volName := charmVolumeName; volSource := EmptyDirSource |} ]
    ∧ ssVolumeClaimTemplates s = claimTemplates after.
Proof.
  intros a after. eexists.
  assert (last (staged after) = Some (OpApply (RStatefulSet _))) as Hlast
    by (vm_compute; reflexivity).
  split; [exact Hlast|].
  assert (applicationPodSpec a (config scratch) = Ok _) as Hspec
    by (vm_compute; reflexivity).
  exact (Ensure_template a (config scratch) (boot emptyCluster) _
           (RStatefulSet _) Hspec (last_Some_elem_of _ _ Hlast)).
Defined.

Lemma Ensure_stateful_claims_witness :
  let a := gitlab DeploymentStateful in
  let after := (Ensure a (config oneDisk) (boot emptyCluster)).2 in
  ∃ op, staged after !! 1%nat = Some op
        ∧ opKind op ≠ KPersistentVolumeClaim.
Proof.
  intros a after. eexists.
  assert (staged after !! 1%nat = Some _) as Hop
    by (vm_compute; reflexivity).
  split; [exact Hop|].
  exact (Ensure_stateful_claims a (config oneDisk) (boot emptyCluster) _
           eq_refl (list_elem_of_lookup_2 _ _ _ Hop)).
Defined.

(** The Services after a first call for a stateful set. *)
Lemma Ensure_services_witness :
  let a := gitlab DeploymentStateful in
  let after :=
    services (cluster (Ensure a (config oneDisk) (boot emptyCluster)).2) in
  after !! "gitlab"
  = Some (mergeService None
            (defaultService a (annotations a (config oneDisk))))
  ∧ after !! "gitlab-endpoints"
    = Some (mergeService None
              (headlessService a "gitlab"
                 (annotations a (config oneDisk))))
  ∧ ∀ n, n ≠ "gitlab" → n ≠ "gitlab-endpoints" → after !! n = None.
Proof.
  intros a after.
  assert ((Ensure a (config oneDisk) (boot emptyCluster)).1 = Ok tt)
    as Hok by (vm_compute; reflexivity).
  destruct (Ensure_services a (config oneDisk) (boot emptyCluster) Hok)
    as (t & Ht & Hdefault & Hheadless & Hothers).
  injection Ht as <-.
  split; [exact Hdefault|]. split; [exact (Hheadless eq_refl)|].
  intros n Hn Hn'. exact (Hothers n Hn (fun _ => Hn')).
Defined.

(** [Exists] after a first call on an empty cluster. *)
Lemma Ensure_then_Exists_witness :
  let a := gitlab DeploymentStateless in
  let after := (Ensure a (config oneDisk) (boot emptyCluster)).2 in
  (Exists a after).1 = ({| dsExists := true; dsTerminating := false |}, None).
Proof.
  intros a after.
  assert ((Ensure a (config oneDisk) (boot emptyCluster)).1 = Ok tt)
    as Hok by (vm_compute; reflexivity).
  destruct (Ensure_then_Exists a (config oneDisk) (boot emptyCluster) Hok
              eq_refl)
    as (t & [exists_ terminating] & Ht & Hrun & Hexists & Hterm).
  injection Ht as <-.
  cbn [dsExists dsTerminating] in Hexists, Hterm. subst exists_.
  destruct terminating; [|exact Hrun].
  destruct (proj1 Hterm eq_refl) as (o & Ho & _).
  change (o ∈ []) in Ho. by apply elem_of_nil in Ho.
Defined.

(** The mounts of the charm container with a claim and a filesystem in
    memory. *)
Lemma Ensure_unit_mounts_witness :
  let a := gitlab DeploymentStateful in
  let after := (Ensure a (config scratch) (boot emptyCluster)).2 in
  ∃ w spec added,
    last (staged after) = Some (OpApply w)
    ∧ templateOf w = Some spec
    ∧ length (unitMounts spec) = 5%nat
    ∧ vmMountPath <$> added
      = ["/var/lib/juju/storage/database-0/0"; "/cache"]
    ∧ vmReadOnly <$> added = [false; true].
Proof.
  intros a after.
  assert ((Ensure a (config scratch) (boot emptyCluster)).1 = Ok tt)
    as Hok by (vm_compute; reflexivity).
  destruct (Ensure_unit_mounts a (config scratch) (boot emptyCluster) Hok)
    as (w & spec & added & Hlast & Hspec & Hmounts & Hpaths & Hros).
  exists w, spec, added.
  split; [exact Hlast|]. split; [exact Hspec|].
  assert (length added = 2%nat) as Hlen.
  { by rewrite <- (length_fmap vmMountPath), Hpaths. }
  split; [by rewrite Hmounts, length_app, Hlen|].
  split; [exact Hpaths|exact Hros].
Defined.
